(** * Provisioning fixtures of robottelo: a shallow embedding

    The development follows [pytest_fixtures/component/provision_pxe.py].
    Every fixture of that module talks to systems outside the test process
    (the Satellite API, the broker, a remote shell).  A fixture is embedded as
    a computation in a small monad that
    - reads the answers of the outside world from oracles, each of which may
      depend on everything that happened before the call, and
    - records every call together with its answer as an [Event].
    Python exceptions are the [Raise] results of the monad. *)

From Stdlib Require Import ZArith String Ascii List Lia.
From stdpp Require Import base option list strings gmap pretty.

Open Scope string_scope.
Open Scope Z_scope.
Open Scope list_scope.

(** ** Python values, exceptions and results *)

Inductive Exn : Type :=
| AssertionError (msg : string)
| KeyError (key : string)
| IndexError
| ValueError (what : string)
| TypeError (what : string)
| AttributeError (what : string)
| ExternalError (what : string).

Inductive Res (A : Type) : Type :=
| Ok (a : A)
| Raise (e : Exn).
Arguments Ok {A} a.
Arguments Raise {A} e.

Definition is_ok {A} (r : Res A) : bool :=
  match r with Ok _ => true | Raise _ => false end.

(** The values a fixture parameter or a host attribute can hold. *)
Inductive PyVal : Type :=
| PyNone
| PyBool (b : bool)
| PyInt (z : Z)
| PyStr (s : string).

(** [f'{v}'] *)
Definition format (v : PyVal) : string :=
  match v with
  | PyNone => "None"
  | PyBool true => "True"
  | PyBool false => "False"
  | PyInt z => pretty z
  | PyStr s => s
  end.

(** [v == 7] for an integer literal: a string never equals an integer. *)
Definition eq_int (v : PyVal) (n : Z) : bool :=
  match v with
  | PyInt z => Z.eqb z n
  | PyBool b => Z.eqb (if b then 1 else 0) n
  | _ => false
  end.

(** [l.pop()]: the last element and the list without it. *)
Fixpoint pop {A} (l : list A) : option (A * list A) :=
  match l with
  | [] => None
  | [x] => Some (x, [])
  | x :: l' => match pop l' with
               | Some (y, r) => Some (y, x :: r)
               | None => None
               end
  end.

(** ** Remote entities *)

Definition RepoId := positive.
Definition TaskId := string.

Record Repository := { repo_id : RepoId; repo_name : string }.
Record Product := { product_id : positive; product_name : string }.
Record Task := { task_id : TaskId }.
Record TaskStatus := { result : string }.
Record OperatingSystem := { os_id : positive; os_title : string }.
Record ActivationKey := { ak_id : positive; ak_name : string }.
Record ContentView :=
  { cv_id : positive; cv_name : string; repository : list Repository }.
Record Organization := { org_id : positive }.
Record LifecycleEnvironment := { lce_id : positive }.
Record Location := { location_id : positive }.
Record Capsule := { capsule_id : positive }.
Record Domain := { domain_id : positive; domain_name : string }.

(** [packaging.version.Version]: the parsed release and the normalised text. *)
Record PyVersion := { major : Z; minor : Z; version_str : string }.

(** An entry of [constants.REPOS['kickstart']] and one of [constants.REPOS]. *)
Record KickstartEntry :=
  { ks_product : string; ks_name : string; ks_reposet : string; ks_version : string }.
Record RepoEntry :=
  { r_product : string; r_name : string; r_reposet : string; r_releasever : string }.

Inductive RepoKind := Kickstart | Content.

(** The arguments of [enable_rhrepo_and_fetchid]. *)
Record EnableArgs :=
  { basearch : string; e_org_id : positive; e_product : string; e_repo : string;
    e_reposet : string; e_releasever : string }.

(** The keyword arguments of [sat.wait_for_tasks]. *)
Record WaitArgs :=
  { search_query : string; search_rate : option Z; max_tries : option Z;
    poll_timeout : option Z }.

(** The fields handed to [sat.api.Subnet(...)]. *)
Record SubnetFields :=
  { network : string; mask : string; gateway : string; from_ : string; to : string;
    dns_primary : string; dns_secondary : option string;
    boot_mode : string; ipam : string;
    s_location : list Location; s_organization : list Organization;
    dhcp : positive; tftp : positive; template : positive; s_dns : positive;
    httpboot : positive; discovery : positive;
    remote_execution_proxy : list positive; s_domain : list positive }.
Record Subnet := { subnet_id : positive; subnet_fields : SubnetFields }.

Record DomainFields :=
  { d_location : list Location; d_organization : list Organization;
    d_dns : positive; d_name : string }.

(** [broker_data_out]: the keys the fixture reads; [None] is an absent key. *)
Record BrokerDataOut :=
  { provisioning_addr_ipv4 : option string;
    provisioning_upstream_dns : option (list string);
    provisioning_gw_ipv4 : option string;
    provisioning_host_range_start : option string;
    provisioning_host_range_end : option string }.

(** A checked-out host: its name, the broker arguments it was created with and
    its instance attributes ([blank] among them). *)
Record Host :=
  { host_name : string; broker_args : gmap string string; attrs : gmap string PyVal }.

(** What [Broker.__enter__] hands over: the host itself when one host was
    checked out, the list of hosts otherwise. *)
Inductive Checkout : Type :=
| One (host : Host)
| Many (hosts : list Host).

Record CmdResult := { status : Z; stdout : string }.

(** A Satellite ([module_target_sat], [module_discovery_sat.sat]). *)
Record Satellite := { sat_name : string; sat_hostname : string; sat_version : string }.

(** ** Events: every call to the outside world with its answer *)

Inductive Event : Type :=
| EvGenString (s : string)
| EvContentViewCreate (r : Res ContentView)
| EvProductCreate (name : string) (r : Res Product)
| EvRepositoryCreate (p : Product) (url : string) (r : Res Repository)
| EvEnableRepo (k : RepoKind) (name : string) (a : EnableArgs) (r : Res RepoId)
| EvRepositoryRead (id : RepoId) (r : Res Repository)
| EvRepositorySync (repo : Repository) (r : Res Task)
| EvContentViewUpdate (cv : ContentView) (r : Res unit)
| EvWaitForTasks (a : WaitArgs) (r : Res (list TaskStatus))
| EvPoll (id : TaskId) (r : Res TaskStatus)
| EvOperatingSystemSearch (query : string) (r : Res (list OperatingSystem))
| EvOperatingSystemRead (o : OperatingSystem) (r : Res OperatingSystem)
| EvContentViewPublish (cv : ContentView) (r : Res Task)
| EvContentViewSearch (name : string) (r : Res (list ContentView))
| EvActivationKeyCreate (cv : ContentView) (r : Res ActivationKey)
| EvBrokerExecute (args : list (string * string)) (r : Res BrokerDataOut)
| EvDomainCreate (f : DomainFields) (r : Res Domain)
| EvSubnetCreate (f : SubnetFields) (r : Res Subnet)
| EvBrokerCheckout (args : list (string * PyVal)) (r : Res Checkout)
| EvBrokerCheckin (c : Checkout) (r : Res unit)
| EvExecute (hostname : string) (cmd : string) (r : Res CmdResult).

Definition Trace := list Event.

(** ** The monad *)

(** A computation reads the history so far and returns its result with the
    events it added. *)
Definition M (A : Type) : Type := Trace -> Res A * Trace.

Definition ret {A} (a : A) : M A := fun _ => (Ok a, []).
Definition raise {A} (e : Exn) : M A := fun _ => (Raise e, []).
Definition bind {A B} (m : M A) (k : A -> M B) : M B :=
  fun h =>
    match m h with
    | (Ok a, es) => let '(r, es') := k a (h ++ es) in (r, es ++ es')
    | (Raise e, es) => (Raise e, es)
    end.

Notation "'let*' x ':=' m 'in' k" := (bind m (fun x => k))
  (at level 10, x pattern, m at level 100, k at level 200).
Notation "'run' m 'in' k" := (bind m (fun _ => k))
  (at level 10, m at level 100, k at level 200).

(** One call to the outside: ask the oracle, record call and answer. *)
Definition call {A} (oracle : Trace -> Res A) (ev : Res A -> Event) : M A :=
  fun h => let r := oracle h in (r, [ev r]).

(** A library function that may raise and calls nothing outside. *)
Definition lift {A} (r : Res A) : M A := fun _ => (r, []).

(** [assert c, msg] *)
Definition assert (c : bool) (msg : string) : M unit :=
  if c then ret tt else raise (AssertionError msg).

(** [d[key]] on a table of constants *)
Definition getitem {A} (d : string -> option A) (key : string) : M A :=
  match d key with
  | Some a => ret a
  | None => raise (KeyError key)
  end.

(** [l[0]] *)
Definition first {A} (l : list A) : M A :=
  match l with
  | x :: _ => ret x
  | [] => raise IndexError
  end.

(** [for x in l: body], with the loop variables threaded as [s]. *)
Fixpoint for_each {A S} (l : list A) (body : A -> S -> M S) (s : S) : M S :=
  match l with
  | [] => ret s
  | x :: l' => let* s' := body x s in for_each l' body s'
  end.

(** ** The outside world *)

(** Constants and settings of the repository that live outside this module,
    the library functions the fixtures call, and the answers of the remote
    systems.  A remote answer may depend on the whole history of the run. *)
Record World := {
  (* robottelo.constants, robottelo.config.settings *)
  DEFAULT_ARCHITECTURE : string;
  REPOS_kickstart : string -> option KickstartEntry;
  REPOS : string -> option RepoEntry;
  SATCLIENT_REPO : string -> option string;
  (* Python and library functions *)
  int_of_str : string -> Res Z;
  Version : string -> Res PyVersion;
  gen_string : Trace -> string;
  (* Satellite API *)
  content_view_create : Organization -> Trace -> Res ContentView;
  product_create : Organization -> string -> Trace -> Res Product;
  repository_create : Organization -> Product -> string -> Trace -> Res Repository;
  repository_sync : Repository -> Trace -> Res Task;
  enable_rhrepo_and_fetchid : EnableArgs -> Trace -> Res RepoId;
  repository_read : RepoId -> Trace -> Res Repository;
  content_view_update : ContentView -> Trace -> Res unit;
  wait_for_tasks : WaitArgs -> Trace -> Res (list TaskStatus);
  poll : TaskId -> Trace -> Res TaskStatus;
  operating_system_search : string -> Trace -> Res (list OperatingSystem);
  operating_system_read : OperatingSystem -> Trace -> Res OperatingSystem;
  content_view_publish : ContentView -> Trace -> Res Task;
  content_view_search : Organization -> string -> Trace -> Res (list ContentView);
  activation_key_create :
    Organization -> ContentView -> LifecycleEnvironment -> Trace -> Res ActivationKey;
  domain_create : DomainFields -> Trace -> Res Domain;
  subnet_create : SubnetFields -> Trace -> Res Subnet;
  (* remote shell of a Satellite, by host name *)
  execute : string -> string -> Trace -> Res CmdResult;
  (* broker *)
  broker_execute : list (string * string) -> Trace -> Res BrokerDataOut;
  broker_checkout : list (string * PyVal) -> Trace -> Res Checkout;
  broker_checkin : Checkout -> Trace -> Res unit;
  (* settings.provisioning *)
  provisioning_sat_workflow : string;
  provisioning_host_workflow : string;
  vlan_id : string;
  (* ipaddress: the answer for descriptors that are not IPv4, as the texts of
     the network address and of the netmask; [None] is ValueError *)
  ipv6_interface : string -> option (string * string);
}.

(** [int(v)] *)
Definition int (w : World) (v : PyVal) : Res Z :=
  match v with
  | PyInt z => Ok z
  | PyBool b => Ok (if b then 1 else 0)
  | PyStr s => int_of_str w s
  | PyNone => Raise (TypeError "int() argument")
  end.

(** [gen_string('alpha')] *)
Definition gen_alpha (w : World) : M string :=
  fun h => let s := gen_string w h in (Ok s, [EvGenString s]).

(** The [Box(sat=, domain=, subnet=, provisioning_type=)] that
    [module_provisioning_sat] returns. *)
Record ProvisioningSat :=
  { sat : Satellite; domain : Domain; subnet : Subnet; provisioning_type : string }.

(** ** ContentPipeline: [module_provisioning_rhel_content] *)

(** The returned [Box(os=, ak=, ksrepo=, cv=)]. *)
Record ContentBundle :=
  { os : OperatingSystem; ak : ActivationKey; ksrepo : Repository; cv : ContentView }.

(** The local variables the two loops of the fixture update. *)
Record Locals :=
  { rh_repo_id : option RepoId;   (* [None] is the initial [""] *)
    tasks : list Task;
    rh_repos : list Repository;
    content_view : ContentView }.

Section ContentPipeline.
Variable w : World.
Variable module_provisioning_sat : ProvisioningSat.
Variable module_sca_manifest_org : Organization.
Variable module_lce_library : LifecycleEnvironment.

(** Lines 38-43. *)
Definition repo_names (rhel_ver : PyVal) : M (list string) :=
  let* v := lift (int w rhel_ver) in
  if v <=? 7
  then ret ["rhel" +:+ format rhel_ver]
  else ret ["rhel" +:+ format rhel_ver +:+ "_bos";
            "rhel" +:+ format rhel_ver +:+ "_aps"].

Definition enable_kickstart (name : string) : M RepoId :=
  let* e := getitem (REPOS_kickstart w) name in
  let a := {| basearch := DEFAULT_ARCHITECTURE w;
              e_org_id := org_id module_sca_manifest_org;
              e_product := ks_product e; e_repo := ks_name e;
              e_reposet := ks_reposet e; e_releasever := ks_version e |} in
  call (enable_rhrepo_and_fetchid w a) (EvEnableRepo Kickstart name a).

Definition enable_content (name : string) : M RepoId :=
  let* e := getitem (REPOS w) name in
  let a := {| basearch := DEFAULT_ARCHITECTURE w;
              e_org_id := org_id module_sca_manifest_org;
              e_product := r_product e; e_repo := r_name e;
              e_reposet := r_reposet e; e_releasever := r_releasever e |} in
  call (enable_rhrepo_and_fetchid w a) (EvEnableRepo Content name a).

(** Lines 85-91: the body of the sync step for one repository id. *)
Definition sync_step (repo_id : option RepoId) (s : Locals) : M Locals :=
  match repo_id with
  | None => ret s
  | Some id =>
      let* rh_repo := call (repository_read w id) (EvRepositoryRead id) in
      let* task := call (repository_sync w rh_repo) (EvRepositorySync rh_repo) in
      let cv' := {| cv_id := cv_id (content_view s); cv_name := cv_name (content_view s);
                    repository := repository (content_view s) ++ [rh_repo] |} in
      run call (content_view_update w cv') (EvContentViewUpdate cv') in
      ret {| rh_repo_id := rh_repo_id s;
             tasks := tasks s ++ [task];
             rh_repos := rh_repos s ++ [rh_repo];
             content_view := cv' |}
  end.

(** Lines 63-91: one turn of the loop over [repo_names]. *)
Definition enable_and_sync (name : string) (s : Locals) : M Locals :=
  let* rh_kickstart_repo_id := enable_kickstart name in
  let* s1 :=
    if negb (String.eqb (provisioning_type module_provisioning_sat) "discovery")
    then
      let* id := enable_content name in
      ret {| rh_repo_id := Some id; tasks := tasks s; rh_repos := rh_repos s;
             content_view := content_view s |}
    else ret s in
  for_each [Some rh_kickstart_repo_id; rh_repo_id s1] sync_step s1.

(** Lines 92-98. *)
Definition wait_sync (task : Task) (_ : unit) : M unit :=
  let a := {| search_query := "id = " +:+ task_id task; search_rate := None;
              max_tries := None; poll_timeout := Some 2500 |} in
  run call (wait_for_tasks w a) (EvWaitForTasks a) in
  let* task_status := call (poll w (task_id task)) (EvPoll (task_id task)) in
  assert (String.eqb (result task_status) "success") "".

(** Lines 99-103: the key of [constants.REPOS['kickstart']] whose version
    names the operating system. *)
Definition rhel_xy_key (rhel_ver : PyVal) : string :=
  if eq_int rhel_ver 7
  then "rhel" +:+ format rhel_ver
  else "rhel" +:+ format rhel_ver +:+ "_bos".

(** Lines 47-61. *)
Definition create_client_content (rhel_ver : PyVal) : M Locals :=
  let* content_view :=
    call (content_view_create w module_sca_manifest_org) EvContentViewCreate in
  let* alpha := gen_alpha w in
  let pname := "rhel" +:+ format rhel_ver +:+ "_" +:+ alpha in
  let* custom_product :=
    call (product_create w module_sca_manifest_org pname) (EvProductCreate pname) in
  let* url := getitem (SATCLIENT_REPO w) ("rhel" +:+ format rhel_ver) in
  let* client_repo :=
    call (repository_create w module_sca_manifest_org custom_product url)
      (EvRepositoryCreate custom_product url) in
  let* task := call (repository_sync w client_repo) (EvRepositorySync client_repo) in
  ret {| rh_repo_id := None;
         tasks := [task];
         rh_repos := [];
         content_view := {| cv_id := cv_id content_view; cv_name := cv_name content_view;
                            repository := [client_repo] |} |}.

(** Lines 99-127. *)
Definition publish_and_bind (rhel_ver : PyVal) (s : Locals) : M ContentBundle :=
  let* e := getitem (REPOS_kickstart w) (rhel_xy_key rhel_ver) in
  let* rhel_xy := lift (Version w (ks_version e)) in
  let q := "family=Redhat and major=" +:+ pretty (major rhel_xy)
           +:+ " and minor=" +:+ pretty (minor rhel_xy) in
  let* o_systems := call (operating_system_search w q) (EvOperatingSystemSearch q) in
  run assert (match o_systems with [] => false | _ => true end)
        ("Operating system RHEL " +:+ version_str rhel_xy +:+ " was not found") in
  let* o := first o_systems in
  let* os := call (operating_system_read w o) (EvOperatingSystemRead o) in
  let* ksrepo := first (rh_repos s) in
  let* publish :=
    call (content_view_publish w (content_view s)) (EvContentViewPublish (content_view s)) in
  let a := {| search_query := "Actions::Katello::ContentView::Publish and id = "
                              +:+ task_id publish;
              search_rate := Some 15; max_tries := Some 10; poll_timeout := None |} in
  let* task_status := call (wait_for_tasks w a) (EvWaitForTasks a) in
  let* t0 := first task_status in
  run assert (String.eqb (result t0) "success") "" in
  let name := cv_name (content_view s) in
  let* found :=
    call (content_view_search w module_sca_manifest_org name) (EvContentViewSearch name) in
  let* content_view := first found in
  let* ak :=
    call (activation_key_create w module_sca_manifest_org content_view module_lce_library)
      (EvActivationKeyCreate content_view) in
  ret {| os := os; ak := ak; ksrepo := ksrepo; cv := content_view |}.

(** The fixture.  [rhel_ver] is [request.param['rhel_version']]. *)
Definition module_provisioning_rhel_content (rhel_ver : PyVal) : M ContentBundle :=
  let* names := repo_names rhel_ver in
  let* s0 := create_client_content rhel_ver in
  let* s1 := for_each names enable_and_sync s0 in
  run for_each (tasks s1) wait_sync tt in
  publish_and_bind rhel_ver s1.

End ContentPipeline.

(** ** Predicates on computations *)

(** [emits P m]: every event [m] adds satisfies [P], whatever the history and
    whether or not [m] raises. *)
Definition emits {A} (P : Event -> Prop) (m : M A) : Prop :=
  forall h, Forall P (m h).2.

(** [ok_emits P m]: when [m] returns normally, every event it added
    satisfies [P]. *)
Definition ok_emits {A} (P : Event -> Prop) (m : M A) : Prop :=
  forall h a es, m h = (Ok a, es) -> Forall P es.

(** ** Predicates on events *)

(** A sync task polled to something other than success: the poll answered
    with another result, or raised. *)
Definition poll_failed (e : Event) : Prop :=
  match e with
  | EvPoll _ (Ok st) => result st <> "success"
  | EvPoll _ (Raise _) => True
  | _ => False
  end.

Definition is_poll (e : Event) : Prop :=
  match e with EvPoll _ _ => True | _ => False end.

Definition is_sync (e : Event) : Prop :=
  match e with EvRepositorySync _ _ => True | _ => False end.

(** The wait for a task, of a sync or of the publish. *)
Definition is_wait (e : Event) : Prop :=
  match e with EvWaitForTasks _ _ => True | _ => False end.

Definition is_publish (e : Event) : Prop :=
  match e with EvContentViewPublish _ _ => True | _ => False end.

Definition is_activation_key_create (e : Event) : Prop :=
  match e with EvActivationKeyCreate _ _ => True | _ => False end.

(** What the phases before the wait loop may issue: no poll, no publish, no
    activation-key creation. *)
Definition setup_event (e : Event) : Prop :=
  ~ is_poll e /\ ~ is_publish e /\ ~ is_activation_key_create e.

(** ** [ipaddress]: IPv4 interfaces *)

Module ipaddress.

Definition ALL_ONES : Z := 4294967295.
Definition max_prefixlen : Z := 32.

Definition code (c : ascii) : Z := Z.of_N (N_of_ascii c).

(** [c.isascii() and c.isdigit()] *)
Definition is_digit (c : ascii) : bool := (48 <=? code c) && (code c <=? 57).

(** [s.split(sep)] for a one-character separator *)
Fixpoint split (sep : ascii) (s : string) : list string :=
  match s with
  | EmptyString => [EmptyString]
  | String c s' =>
      if Ascii.eqb c sep then EmptyString :: split sep s'
      else match split sep s' with
           | x :: xs => String c x :: xs
           | [] => [String c EmptyString]
           end
  end.

Fixpoint all_digits (s : string) : bool :=
  match s with
  | EmptyString => true
  | String c s' => is_digit c && all_digits s'
  end.

(** [s.isascii() and s.isdigit()]: false on the empty string *)
Definition isdigit (s : string) : bool :=
  match s with
  | EmptyString => false
  | _ => all_digits s
  end.

(** [int(s, 10)] for a string of decimal digits *)
Fixpoint int10 (acc : Z) (s : string) : Z :=
  match s with
  | EmptyString => acc
  | String c s' => int10 (10 * acc + (code c - 48)) s'
  end.

(** [_parse_octet] *)
Definition parse_octet (octet_str : string) : option Z :=
  match octet_str with
  | EmptyString => None
  | String c0 _ =>
      if negb (isdigit octet_str) then None
      else if (3 <? Z.of_nat (String.length octet_str)) then None
      else if negb (String.eqb octet_str "0") && Ascii.eqb c0 "0" then None
      else let octet_int := int10 0 octet_str in
           if 255 <? octet_int then None else Some octet_int
  end.

(** [_ip_int_from_string]: four octets, big-endian *)
Definition ip_int_from_string (ip_str : string) : option Z :=
  match ip_str with
  | EmptyString => None
  | _ =>
      match split "." ip_str with
      | [o1; o2; o3; o4] =>
          match parse_octet o1, parse_octet o2, parse_octet o3, parse_octet o4 with
          | Some a, Some b, Some c, Some d =>
              Some (Z.lor (Z.shiftl a 24) (Z.lor (Z.shiftl b 16) (Z.lor (Z.shiftl c 8) d)))
          | _, _, _, _ => None
          end
      | _ => None
      end
  end.

(** [_prefix_from_prefix_string] *)
Definition prefix_from_prefix_string (prefixlen_str : string) : option Z :=
  if isdigit prefixlen_str
  then let prefixlen := int10 0 prefixlen_str in
       if prefixlen <=? max_prefixlen then Some prefixlen else None
  else None.

(** [_ip_int_from_prefix] *)
Definition ip_int_from_prefix (prefixlen : Z) : Z :=
  Z.lxor ALL_ONES (Z.shiftr ALL_ONES prefixlen).

(** The number of zero bits at the low end of a positive number, at most
    [fuel] of them. *)
Fixpoint low_zero_bits (fuel : nat) (number : Z) : Z :=
  match fuel with
  | O => 0
  | S fuel' =>
      if Z.testbit number 0 then 0 else 1 + low_zero_bits fuel' (Z.shiftr number 1)
  end.

(** [_count_righthand_zero_bits] *)
Definition count_righthand_zero_bits (number bits : Z) : Z :=
  if number =? 0 then bits
  else Z.min bits (low_zero_bits (Z.to_nat bits) number).

(** [_prefix_from_ip_int]: the prefix length of a netmask, [None] when
    the pattern mixes zeroes and ones *)
Definition prefix_from_ip_int (ip_int : Z) : option Z :=
  let trailing_zeroes := count_righthand_zero_bits ip_int max_prefixlen in
  let prefixlen := max_prefixlen - trailing_zeroes in
  let leading_ones := Z.shiftr ip_int trailing_zeroes in
  let all_ones := Z.shiftl 1 prefixlen - 1 in
  if leading_ones =? all_ones then Some prefixlen else None.

(** [_prefix_from_ip_string]: a netmask, or else a hostmask, in dotted form *)
Definition prefix_from_ip_string (ip_str : string) : option Z :=
  match ip_int_from_string ip_str with
  | None => None
  | Some ip_int =>
      match prefix_from_ip_int ip_int with
      | Some p => Some p
      | None => prefix_from_ip_int (Z.lxor ip_int ALL_ONES)
      end
  end.

(** [_make_netmask] on the text after the slash *)
Definition make_netmask (arg : string) : option Z :=
  match prefix_from_prefix_string arg with
  | Some p => Some p
  | None => prefix_from_ip_string arg
  end.

(** An [IPv4Interface]: the address and the prefix length of its network. *)
Record IPv4Interface := { ip : Z; prefixlen : Z }.

Definition netmask (i : IPv4Interface) : Z := ip_int_from_prefix (prefixlen i).
Definition hostmask (i : IPv4Interface) : Z := Z.lxor (netmask i) ALL_ONES.

(** [IPv4Network(..., strict=False).network_address] *)
Definition network_address (i : IPv4Interface) : Z := Z.land (ip i) (netmask i).
Definition broadcast_address (i : IPv4Interface) : Z :=
  Z.lor (network_address i) (hostmask i).

(** [IPv4Interface(address)] for a string *)
Definition IPv4Interface_of_string (address : string) : option IPv4Interface :=
  match split "/" address with
  | [addr] =>
      match ip_int_from_string addr with
      | Some a => Some {| ip := a; prefixlen := max_prefixlen |}
      | None => None
      end
  | [addr; m] =>
      match ip_int_from_string addr, make_netmask m with
      | Some a, Some p => Some {| ip := a; prefixlen := p |}
      | _, _ => None
      end
  | _ => None
  end.

(** [str(IPv4Address(ip_int))] *)
Definition string_from_ip_int (ip_int : Z) : string :=
  pretty (Z.land (Z.shiftr ip_int 24) 255) +:+ "." +:+
  pretty (Z.land (Z.shiftr ip_int 16) 255) +:+ "." +:+
  pretty (Z.land (Z.shiftr ip_int 8) 255) +:+ "." +:+
  pretty (Z.land ip_int 255).

(** [IPv4Address(a) in network], for the text [a] of an address; an
    unparsable text is in no network. *)
Definition contains (i : IPv4Interface) (a : string) : bool :=
  match ip_int_from_string a with
  | Some x => (network_address i <=? x) && (x <=? broadcast_address i)
  | None => false
  end.

End ipaddress.

(** The network of [ipaddress.ip_interface(...)]: an IPv4 network, or the
    texts of an IPv6 network's address and netmask. *)
Inductive IPNetwork : Type :=
| V4 (i : ipaddress.IPv4Interface)
| V6 (network_address netmask : string).

Definition network_address_str (n : IPNetwork) : string :=
  match n with
  | V4 i => ipaddress.string_from_ip_int (ipaddress.network_address i)
  | V6 a _ => a
  end.

Definition netmask_str (n : IPNetwork) : string :=
  match n with
  | V4 i => ipaddress.string_from_ip_int (ipaddress.netmask i)
  | V6 _ m => m
  end.

(** [ipaddress.ip_interface(address).network]: IPv4 first, then IPv6,
    ValueError when neither fits. *)
Definition ip_interface_network (w : World) (address : string) : Res IPNetwork :=
  match ipaddress.IPv4Interface_of_string address with
  | Some i => Ok (V4 i)
  | None =>
      match ipv6_interface w address with
      | Some (a, m) => Ok (V6 a m)
      | None => Raise (ValueError address)
      end
  end.

(** Whether the address with text [a] lies in the network. *)
Definition in_network (n : IPNetwork) (a : string) : bool :=
  match n with
  | V4 i => ipaddress.contains i a
  | V6 _ _ => false
  end.

(** ** NetworkProvisioner: [module_provisioning_sat] *)

(** [s.lower()] on the letters A-Z *)
Definition lower_char (c : ascii) : ascii :=
  let n := N_of_ascii c in
  if ((65 <=? n) && (n <=? 90))%N then ascii_of_N (n + 32) else c.

Fixpoint lower (s : string) : string :=
  match s with
  | EmptyString => EmptyString
  | String c s' => String (lower_char c) (lower s')
  end.

(** [box.key]: an absent key raises *)
Definition getattr_box {A} (key : string) (v : option A) : Res A :=
  match v with
  | Some a => Ok a
  | None => Raise (KeyError key)
  end.

(** Lines 162-169: the two pops on [broker_data_out.provisioning_upstream_dns].
    Returns primary, secondary and the list as the pops leave it. *)
Definition pop_upstream_dns (dns : list string)
    : Res (string * option string * list string) :=
  match pop dns with
  | None => Raise IndexError
  | Some (provisioning_upstream_dns_primary, dns1) =>
      if (0 <? Z.of_nat (length dns1))
      then match pop dns1 with
           | Some (provisioning_upstream_dns_secondary, dns2) =>
               Ok (provisioning_upstream_dns_primary,
                   Some provisioning_upstream_dns_secondary, dns2)
           | None => Raise IndexError
           end
      else Ok (provisioning_upstream_dns_primary, None, dns1)
  end.

Section NetworkProvisioner.
Variable w : World.
Variable module_target_sat : Satellite.
Variable module_sca_manifest_org : Organization.
Variable module_location : Location.
Variable module_provisioning_capsule : Capsule.

(** The fixture.  [param] is [getattr(request, 'param', '')]. *)
Definition module_provisioning_sat (param : string) : M ProvisioningSat :=
  let provisioning_type := param in
  let sat := module_target_sat in
  let* alpha := gen_alpha w in
  let provisioning_domain_name := lower alpha +:+ ".foo" in
  let args := [("workflow", provisioning_sat_workflow w); ("artifacts", "last");
               ("target_vlan_id", vlan_id w); ("target_host", sat_name sat);
               ("provisioning_dns_zone", provisioning_domain_name);
               ("sat_version", sat_version sat)] in
  let* broker_data_out := call (broker_execute w args) (EvBrokerExecute args) in
  let* addr := lift (getattr_box "provisioning_addr_ipv4"
                      (provisioning_addr_ipv4 broker_data_out)) in
  let* provisioning_network := lift (ip_interface_network w addr) in
  let* dns := lift (getattr_box "provisioning_upstream_dns"
                      (provisioning_upstream_dns broker_data_out)) in
  let* (provisioning_upstream_dns_primary, provisioning_upstream_dns_secondary, _) :=
    lift (pop_upstream_dns dns) in
  let df := {| d_location := [module_location];
               d_organization := [module_sca_manifest_org];
               d_dns := capsule_id module_provisioning_capsule;
               d_name := provisioning_domain_name |} in
  let* domain := call (domain_create w df) (EvDomainCreate df) in
  let* gw := lift (getattr_box "provisioning_gw_ipv4"
                     (provisioning_gw_ipv4 broker_data_out)) in
  let* range_start := lift (getattr_box "provisioning_host_range_start"
                              (provisioning_host_range_start broker_data_out)) in
  let* range_end := lift (getattr_box "provisioning_host_range_end"
                            (provisioning_host_range_end broker_data_out)) in
  let sf := {| s_location := [module_location];
               s_organization := [module_sca_manifest_org];
               network := network_address_str provisioning_network;
               mask := netmask_str provisioning_network;
               gateway := gw;
               from_ := range_start;
               to := range_end;
               dns_primary := provisioning_upstream_dns_primary;
               dns_secondary := provisioning_upstream_dns_secondary;
               boot_mode := "DHCP";
               ipam := "DHCP";
               dhcp := capsule_id module_provisioning_capsule;
               tftp := capsule_id module_provisioning_capsule;
               template := capsule_id module_provisioning_capsule;
               s_dns := capsule_id module_provisioning_capsule;
               httpboot := capsule_id module_provisioning_capsule;
               discovery := capsule_id module_provisioning_capsule;
               remote_execution_proxy := [capsule_id module_provisioning_capsule];
               s_domain := [domain_id domain] |} in
  let* subnet := call (subnet_create w sf) (EvSubnetCreate sf) in
  ret {| sat := sat; domain := domain; subnet := subnet;
         provisioning_type := provisioning_type |}.

End NetworkProvisioner.

(** ** EphemeralHostManager: [provisioning_host], [provision_multiple_hosts] *)

(** [PXE_LOADER_MAP] *)
Record PxeLoader := { vm_firmware : string; pxe_loader_name : string }.

Definition PXE_LOADER_MAP (key : string) : option PxeLoader :=
  if String.eqb key "bios" then Some {| vm_firmware := "bios"; pxe_loader_name := "PXELinux BIOS" |}
  else if String.eqb key "uefi" then Some {| vm_firmware := "uefi"; pxe_loader_name := "Grub2 UEFI" |}
  else if String.eqb key "ipxe" then Some {| vm_firmware := "bios"; pxe_loader_name := "iPXE Embedded" |}
  else if String.eqb key "http_uefi"
       then Some {| vm_firmware := "uefi"; pxe_loader_name := "Grub2 UEFI HTTP" |}
  else None.

(** The fixture [pxe_loader]; [param] is [getattr(request, 'param', 'bios')]. *)
Definition pxe_loader (param : string) : M PxeLoader := getitem PXE_LOADER_MAP param.

(** [getattr(host, 'blank', False)] *)
Definition getattr_blank (host : Host) : PyVal :=
  default (PyBool false) (attrs host !! "blank").

(** [host.blank = v] *)
Definition setattr_blank (host : Host) (v : PyVal) : Host :=
  {| host_name := host_name host; broker_args := broker_args host;
     attrs := <["blank" := v]> (attrs host) |}.

(** [prov_host.blank = getattr(prov_host, 'blank', False)] *)
Definition keep_blank (prov_host : Host) : Host :=
  setattr_blank prov_host (getattr_blank prov_host).

(** [try: m finally: exit], where [exit] sees the object as [m] left it:
    [c'] when [m] returned it, [c] when [m] raised. *)
Definition with_exit {A} (c : A) (m : M A) (exit : A -> M unit) : M A :=
  fun h =>
    match m h with
    | (Ok c', es) =>
        match exit c' (h ++ es) with
        | (Ok _, es') => (Ok c', es ++ es')
        | (Raise e, es') => (Raise e, es ++ es')
        end
    | (Raise e, es) =>
        match exit c (h ++ es) with
        | (Ok _, es') => (Raise e, es ++ es')
        | (Raise e', es') => (Raise e', es ++ es')
        end
    end.

(** The outcome of a test body. *)
Inductive Outcome : Type :=
| Passed
| Failed (e : Exn).

(** A test body receives what the fixture yields.  It may change the
    attributes of the hosts, call the outside world, and pass or fail. *)
Definition TestBody := Checkout -> Trace -> Outcome * Checkout * Trace.

(** How pytest drives a fixture with a [yield]: the part before the
    [yield] runs first; when it raises, neither the test nor the rest of the
    fixture runs.  Otherwise the test body runs, and then the generator is
    resumed, whether the test passed or failed.  The result is the list
    of events of the three parts. *)
Definition pytest_run (setup : M Checkout) (test : TestBody)
    (teardown : Checkout -> M Checkout) (h : Trace) : Trace * Trace * Trace :=
  match setup h with
  | (Raise _, es) => (es, [], [])
  | (Ok c, es) =>
      let '(_, c', es_test) := test c (h ++ es) in
      (es, es_test, (teardown c' (h ++ es ++ es_test)).2)
  end.

Section EphemeralHostManager.
Variable w : World.
Variable module_ssh_key_file : string.
Variable pxe : PxeLoader.

Definition checkout_args (count : option PyVal) : list (string * PyVal) :=
  [("workflow", PyStr (provisioning_host_workflow w))]
  ++ match count with Some n => [("_count", n)] | None => [] end
  ++ [("target_vlan_id", PyStr (vlan_id w));
      ("target_vm_firmware", PyStr (vm_firmware pxe));
      ("target_pxeless_image", PyStr "");
      ("blank", PyBool true);
      ("target_memory", PyStr "6GiB");
      ("auth", PyStr module_ssh_key_file)].

(** [with Broker(...) as prov_host:] up to the [yield] *)
Definition provisioning_host_setup : M Checkout :=
  call (broker_checkout w (checkout_args None)) (EvBrokerCheckout (checkout_args None)).

(** Lines 230-232, the code after the [yield]. *)
Definition provisioning_host_after_yield (module_provisioning_sat : ProvisioningSat)
    (prov_host : Checkout) : M Checkout :=
  let hostname := sat_hostname (sat module_provisioning_sat) in
  let* res := call (execute w hostname "systemctl restart dhcpd")
                (EvExecute hostname "systemctl restart dhcpd") in
  run assert (status res =? 0) "" in
  match prov_host with
  | One host => ret (One (keep_blank host))
  | Many _ => raise (AttributeError "blank")
  end.

(** The rest of [provisioning_host]: the code after the [yield], then
    [Broker.__exit__]. *)
Definition provisioning_host_teardown (module_provisioning_sat : ProvisioningSat)
    (prov_host : Checkout) : M Checkout :=
  with_exit prov_host
    (provisioning_host_after_yield module_provisioning_sat prov_host)
    (fun c => call (broker_checkin w c) (EvBrokerCheckin c)).

(** [param] is [getattr(request, 'param', 2)]. *)
Definition provision_multiple_hosts_setup (param : PyVal) : M Checkout :=
  call (broker_checkout w (checkout_args (Some param)))
    (EvBrokerCheckout (checkout_args (Some param))).

(** Lines 255-256, the code after the [yield]. *)
Definition provision_multiple_hosts_after_yield (hosts : Checkout) : M Checkout :=
  match hosts with
  | Many l => ret (Many (map keep_blank l))
  | One _ => raise (TypeError "host is not iterable")
  end.

Definition provision_multiple_hosts_teardown (hosts : Checkout) : M Checkout :=
  with_exit hosts
    (provision_multiple_hosts_after_yield hosts)
    (fun c => call (broker_checkin w c) (EvBrokerCheckin c)).

End EphemeralHostManager.

(** ** DiscoveryImageManager: [pxeless_discovery_host] *)

(** The pattern [foreman-discovery-image\S+] of line 325.  A text is a
    string of code points below 256. *)
Module re.

(** [\s] on a code point below 256: the whitespace of Unicode there. *)
Definition is_whitespace (c : ascii) : bool :=
  let n := N_of_ascii c in
  (((9 <=? n) && (n <=? 13)) || ((28 <=? n) && (n <=? 32)) || (n =? 133) || (n =? 160))%N.

Definition literal : string := "foreman-discovery-image".

(** [s] without the prefix [p], when it starts with [p] *)
Fixpoint strip_prefix (p s : string) : option string :=
  match p, s with
  | EmptyString, _ => Some s
  | String a p', String b s' => if Ascii.eqb a b then strip_prefix p' s' else None
  | String _ _, EmptyString => None
  end.

(** The longest run of [\S] at the head of [s] *)
Fixpoint nonspace_run (s : string) : string :=
  match s with
  | EmptyString => EmptyString
  | String c s' => if is_whitespace c then EmptyString else String c (nonspace_run s')
  end.

(** The match of the pattern that starts at the head of [s], if any:
    the literal, then [\S+], greedy. *)
Definition match_here (s : string) : option string :=
  match strip_prefix literal s with
  | Some rest =>
      match nonspace_run rest with
      | EmptyString => None
      | r => Some (literal +:+ r)
      end
  | None => None
  end.

(** [pattern.findall(s)]: the matches from left to right, none overlapping.
    [skip] counts the characters of the last match still to pass. *)
Fixpoint findall_from (skip : nat) (s : string) : list string :=
  match s with
  | EmptyString => []
  | String _ s' =>
      match skip with
      | S k => findall_from k s'
      | O =>
          match match_here s with
          | Some m => m :: findall_from (String.length m - 1) s'
          | None => findall_from 0 s'
          end
      end
  end.

Definition findall (s : string) : list string := findall_from 0 s.

(** The leftmost match alone, as [pattern.search(s)] finds it. *)
Fixpoint scan (s : string) : option string :=
  match s with
  | EmptyString => None
  | String _ s' =>
      match match_here s with
      | Some m => Some m
      | None => scan s'
      end
  end.

End re.

(** [module_discovery_sat]: the Satellite and the name of the discovery ISO. *)
Record DiscoverySat := { d_sat : Satellite; iso : string }.

Definition dquote : string := String (ascii_of_N 34) EmptyString.

Section DiscoveryImageManager.
Variable w : World.
Variable module_discovery_sat : DiscoverySat.
Variable pxe : PxeLoader.

(** Lines 325-326. *)
Definition extract_fdi (stdout_text : string) : M string :=
  first (re.findall stdout_text).

Definition remaster_command (mac : string) : string :=
  "cd /var/www/html/pub && " +:+
  "discovery-remaster " +:+ iso module_discovery_sat +:+ " " +:+
  dquote +:+ "proxy.type=foreman proxy.url=https://" +:+
  sat_hostname (d_sat module_discovery_sat) +:+ ":443 fdi.pxmac=" +:+ mac +:+
  " fdi.pxauto=1" +:+ dquote.

(** The fixture up to its [yield]; returns the host and [image_name]. *)
Definition pxeless_discovery_host_setup (provisioning_host : Host) : M (Host * string) :=
  let sat := d_sat module_discovery_sat in
  let* alpha := gen_alpha w in
  let image_name := alpha +:+ "-" +:+ iso module_discovery_sat in
  let* mac := getitem (fun k => broker_args provisioning_host !! k)
                "provisioning_nic_mac_addr" in
  let cmd := remaster_command mac in
  let* res := call (execute w (sat_hostname sat) cmd) (EvExecute (sat_hostname sat) cmd) in
  let* fdi := extract_fdi (stdout res) in
  let import_args :=
    [("workflow", "import-disk-image");
     ("import_disk_image_name", image_name);
     ("import_disk_image_url", "https://" +:+ sat_hostname sat +:+ "/pub/" +:+ fdi);
     ("firmware_type", vm_firmware pxe)] in
  run call (broker_execute w import_args) (EvBrokerExecute import_args) in
  let* firmware := getitem (fun k => broker_args provisioning_host !! k)
                     "target_vm_firmware" in
  let boot_args :=
    [("job_template", "configure-pxe-boot");
     ("target_host", host_name provisioning_host);
     ("target_vlan_id", vlan_id w);
     ("target_vm_firmware", firmware);
     ("target_pxeless_image", image_name);
     ("target_boot_scenario", "pxeless_pre")] in
  run call (broker_execute w boot_args) (EvBrokerExecute boot_args) in
  ret (provisioning_host, image_name).

(** The code after the [yield]. *)
Definition pxeless_discovery_host_teardown (image_name : string) : M unit :=
  let args := [("workflow", "remove-disk-image"); ("remove_disk_image_name", image_name)] in
  run call (broker_execute w args) (EvBrokerExecute args) in
  ret tt.

End DiscoveryImageManager.

(** ** A concrete world, for evaluating the fixtures *)

Module Demo.

Definition org : Organization := {| org_id := 1 |}.
Definition lce : LifecycleEnvironment := {| lce_id := 1 |}.
Definition location : Location := {| location_id := 2 |}.
Definition capsule : Capsule := {| capsule_id := 1 |}.
Definition satellite : Satellite :=
  {| sat_name := "sat"; sat_hostname := "sat.example.com"; sat_version := "6.15" |}.

Definition kickstart_table : list (string * string) :=
  [("rhel6", "6.10"); ("rhel7", "7.9"); ("rhel8_bos", "8.9"); ("rhel8_aps", "8.9");
   ("rhel9_bos", "9.3"); ("rhel9_aps", "9.3")].

Fixpoint assoc {A} (l : list (string * A)) (key : string) : option A :=
  match l with
  | [] => None
  | (k, v) :: l' => if String.eqb k key then Some v else assoc l' key
  end.

Definition ks_entry (name : string) : option KickstartEntry :=
  match assoc kickstart_table name with
  | Some v => Some {| ks_product := "Red Hat Enterprise Linux";
                      ks_name := name +:+ " Kickstart " +:+ v;
                      ks_reposet := name +:+ " (Kickstart)"; ks_version := v |}
  | None => None
  end.

Definition repo_entry (name : string) : option RepoEntry :=
  match assoc kickstart_table name with
  | Some v => Some {| r_product := "Red Hat Enterprise Linux";
                      r_name := name +:+ " RPMs"; r_reposet := name +:+ " (RPMs)";
                      r_releasever := v |}
  | None => None
  end.

Definition client_repo_url (key : string) : option string :=
  Some ("https://cdn.example.com/client/" +:+ key).

Definition parse_int (s : string) : Res Z :=
  if ipaddress.isdigit s then Ok (ipaddress.int10 0 s) else Raise (ValueError s).

Definition parse_version (s : string) : Res PyVersion :=
  match ipaddress.split "." s with
  | [a; b] =>
      if ipaddress.isdigit a && ipaddress.isdigit b
      then Ok {| major := ipaddress.int10 0 a; minor := ipaddress.int10 0 b;
                 version_str := s |}
      else Raise (ValueError s)
  | _ => Raise (ValueError s)
  end.

Definition host (name : string) (a : gmap string PyVal) : Host :=
  {| host_name := name;
     broker_args := {[ "provisioning_nic_mac_addr" := "52:54:00:aa:bb:cc";
                       "target_vm_firmware" := "bios" ]};
     attrs := a |}.

Definition has_count (args : list (string * PyVal)) : bool :=
  existsb (fun kv => String.eqb kv.1 "_count") args.

(** The answers of the world are fixed but for: the result each sync task
    polls to, the data the broker hands out, and the result of each remote
    command. *)
Definition world (poll_answer : TaskId -> string) (data_out : BrokerDataOut)
    (cmd_result : string -> CmdResult) : World :=
  {| DEFAULT_ARCHITECTURE := "x86_64";
     REPOS_kickstart := ks_entry;
     REPOS := repo_entry;
     SATCLIENT_REPO := client_repo_url;
     int_of_str := parse_int;
     Version := parse_version;
     gen_string := fun _ => "AbCdE";
     content_view_create := fun _ _ => Ok {| cv_id := 5; cv_name := "cv"; repository := [] |};
     product_create := fun _ name _ => Ok {| product_id := 3; product_name := name |};
     repository_create := fun _ _ _ _ => Ok {| repo_id := 100%positive; repo_name := "client" |};
     repository_sync := fun r _ => Ok {| task_id := "sync-" +:+ repo_name r |};
     enable_rhrepo_and_fetchid :=
       fun a h => Ok (Pos.of_nat (S (length h)));
     repository_read := fun id _ => Ok {| repo_id := id; repo_name := pretty (Z.pos id) |};
     content_view_update := fun _ _ => Ok tt;
     wait_for_tasks := fun _ _ => Ok [ {| result := "success" |} ];
     poll := fun id _ => Ok {| result := poll_answer id |};
     operating_system_search :=
       fun q _ => Ok [ {| os_id := 1; os_title := q |} ];
     operating_system_read := fun o _ => Ok o;
     content_view_publish := fun _ _ => Ok {| task_id := "publish" |};
     content_view_search :=
       fun _ name _ => Ok [ {| cv_id := 5; cv_name := name; repository := [] |} ];
     activation_key_create := fun _ _ _ _ => Ok {| ak_id := 9; ak_name := "ak" |};
     domain_create := fun f _ => Ok {| domain_id := 4; domain_name := d_name f |};
     subnet_create := fun f _ => Ok {| subnet_id := 6; subnet_fields := f |};
     execute := fun _ cmd _ => Ok (cmd_result cmd);
     broker_execute := fun _ _ => Ok data_out;
     broker_checkout :=
       fun args _ =>
         if has_count args
         then Ok (Many [host "vm1" {[ "blank" := PyBool true ]}; host "vm2" ∅])
         else Ok (One (host "vm1" {[ "blank" := PyBool true ]}));
     broker_checkin := fun _ _ => Ok tt;
     provisioning_sat_workflow := "deploy-satellite-provisioning";
     provisioning_host_workflow := "deploy-blank-vm";
     vlan_id := "400";
     ipv6_interface := fun _ => None |}.

Definition all_success : TaskId -> string := fun _ => "success".

(** The second sync task, the one of the first kickstart repository, ends in
    an error. *)
Definition kickstart_sync_fails : TaskId -> string :=
  fun id => if String.eqb id "sync-client" then "success" else "error".

(** The broker output of the scenario with one upstream DNS address. *)
Definition data_out : BrokerDataOut :=
  {| provisioning_addr_ipv4 := Some "10.0.0.5/24";
     provisioning_upstream_dns := Some ["8.8.8.8"];
     provisioning_gw_ipv4 := Some "10.0.0.1";
     provisioning_host_range_start := Some "10.0.0.100";
     provisioning_host_range_end := Some "10.0.0.200" |}.

(** A broker output whose host range is not in the network of its address. *)
Definition data_out_foreign_range : BrokerDataOut :=
  {| provisioning_addr_ipv4 := Some "10.0.0.5/24";
     provisioning_upstream_dns := Some ["8.8.8.8"];
     provisioning_gw_ipv4 := Some "10.0.0.1";
     provisioning_host_range_start := Some "192.168.1.10";
     provisioning_host_range_end := Some "192.168.1.20" |}.

Definition cmd_ok (out : string) : string -> CmdResult :=
  fun _ => {| status := 0; stdout := out |}.

Definition psat (provisioning_type : string) : ProvisioningSat :=
  {| sat := satellite;
     domain := {| domain_id := 4; domain_name := "abcde.foo" |};
     subnet := {| subnet_id := 6;
                  subnet_fields :=
                    {| network := "10.0.0.0"; mask := "255.255.255.0"; gateway := "10.0.0.1";
                       from_ := "10.0.0.100"; to := "10.0.0.200";
                       dns_primary := "8.8.8.8"; dns_secondary := None;
                       boot_mode := "DHCP"; ipam := "DHCP";
                       s_location := [location]; s_organization := [org];
                       dhcp := 1; tftp := 1; template := 1; s_dns := 1; httpboot := 1;
                       discovery := 1; remote_execution_proxy := [1%positive];
                       s_domain := [4%positive] |} |};
     provisioning_type := provisioning_type |}.

Definition pxe : PxeLoader := {| vm_firmware := "bios"; pxe_loader_name := "PXELinux BIOS" |}.

(** A broker output with three upstream DNS addresses. *)
Definition data_out_three_dns : BrokerDataOut :=
  {| provisioning_addr_ipv4 := Some "10.0.0.5/24";
     provisioning_upstream_dns := Some ["1.1.1.1"; "8.8.4.4"; "8.8.8.8"];
     provisioning_gw_ipv4 := Some "10.0.0.1";
     provisioning_host_range_start := Some "10.0.0.100";
     provisioning_host_range_end := Some "10.0.0.200" |}.

(** The run of [module_provisioning_sat] on a broker output. *)
Definition provisioning_sat_run (d : BrokerDataOut) : Res ProvisioningSat * Trace :=
  module_provisioning_sat (world all_success d (cmd_ok "")) satellite org location
    capsule "" [].

End Demo.

(** ** Projections of a trace *)

(** The vendor repositories enabled, by kind, with the answers. *)
Definition enable_of (k : RepoKind) (e : Event) : option (string * Res RepoId) :=
  match e, k with
  | EvEnableRepo Kickstart name _ r, Kickstart => Some (name, r)
  | EvEnableRepo Content name _ r, Content => Some (name, r)
  | _, _ => None
  end.

Definition enabled (k : RepoKind) (es : Trace) : list (string * Res RepoId) :=
  omap (enable_of k) es.

Definition read_of (e : Event) : option (RepoId * Res Repository) :=
  match e with
  | EvRepositoryRead id r => Some (id, r)
  | _ => None
  end.

(** The repositories read by id, with the answers. *)
Definition repository_reads (es : Trace) : list (RepoId * Res Repository) :=
  omap read_of es.

(** The names of the vendor repositories of lines 39-43, given [int(rhel_ver)]. *)
Definition vendor_names (rhel_ver : PyVal) (v : Z) : list string :=
  if v <=? 7
  then ["rhel" +:+ format rhel_ver]
  else ["rhel" +:+ format rhel_ver +:+ "_bos"; "rhel" +:+ format rhel_ver +:+ "_aps"].

(** What the phases other than the loop over the vendor names may issue:
    they neither enable nor read a repository. *)
Definition no_enable_no_read (e : Event) : Prop :=
  (forall k, enable_of k e = None) /\ read_of e = None.

(** ** The phases of [module_provisioning_rhel_content] *)

(** A run of the fixture is a run of its phases, each started in the
    history the earlier ones left; the first phase that raises ends it. *)
Definition fixture_phases w psat org lce (v : PyVal) (h : Trace)
    (r : Res ContentBundle) (es : Trace) : Prop :=
  match int w v with
  | Raise e => r = Raise e /\ es = []
  | Ok z =>
      let '(rC, esC) := create_client_content w org v h in
      (exists e, rC = Raise e /\ r = Raise e /\ es = esC) \/
      exists s0, rC = Ok s0 /\
        let '(rL, esL) :=
          for_each (vendor_names v z) (enable_and_sync w psat org) s0 (h ++ esC) in
        (exists e, rL = Raise e /\ r = Raise e /\ es = esC ++ esL) \/
        exists s1, rL = Ok s1 /\
          let '(rW, esW) :=
            for_each (tasks s1) (wait_sync w) tt ((h ++ esC) ++ esL) in
          (exists e, rW = Raise e /\ r = Raise e /\ es = esC ++ esL ++ esW) \/
          (rW = Ok tt /\
           exists esP,
             publish_and_bind w org lce v s1 (((h ++ esC) ++ esL) ++ esW) = (r, esP) /\
             es = esC ++ esL ++ esW ++ esP)
  end.

(** ** Where a synced repository comes from *)

(** Every repository whose sync was triggered is the custom client
    repository the fixture created, or was read by an id that enabling a
    kickstart repository returned. *)
Definition sync_provenance (es : Trace) : Prop :=
  forall repo rt, EvRepositorySync repo rt ∈ es ->
    (exists p url, EvRepositoryCreate p url (Ok repo) ∈ es) \/
    (exists name a id,
        EvEnableRepo Kickstart name a (Ok id) ∈ es /\
        EvRepositoryRead id (Ok repo) ∈ es).

(** The content repository of [name] was enabled, read and its sync
    triggered. *)
Definition content_synced (name : string) (es : Trace) : Prop :=
  exists a id repo task,
    EvEnableRepo Content name a (Ok id) ∈ es /\
    EvRepositoryRead id (Ok repo) ∈ es /\
    EvRepositorySync repo (Ok task) ∈ es.

(** The kickstart repository of [name] was enabled, read and its sync
    triggered. *)
Definition kickstart_synced (name : string) (es : Trace) : Prop :=
  exists a id repo task,
    EvEnableRepo Kickstart name a (Ok id) ∈ es /\
    EvRepositoryRead id (Ok repo) ∈ es /\
    EvRepositorySync repo (Ok task) ∈ es.

(** The custom client repository was created and its sync triggered. *)
Definition client_synced (es : Trace) : Prop :=
  exists p url repo task,
    EvRepositoryCreate p url (Ok repo) ∈ es /\
    EvRepositorySync repo (Ok task) ∈ es.

(** The repositories whose sync was asked for, in order. *)
Definition sync_of (e : Event) : option Repository :=
  match e with
  | EvRepositorySync repo _ => Some repo
  | _ => None
  end.

Definition syncs (es : Trace) : list Repository := omap sync_of es.

(** Nothing obtained is left aside: the sync of every repository created
    or read was asked for, and every id that enabling a kickstart repository
    returned was read. *)
Definition sync_follows (es : Trace) : Prop :=
  (forall p url repo,
      EvRepositoryCreate p url (Ok repo) ∈ es -> exists rt, EvRepositorySync repo rt ∈ es) /\
  (forall name a id,
      EvEnableRepo Kickstart name a (Ok id) ∈ es -> exists rr, EvRepositoryRead id rr ∈ es) /\
  (forall id repo,
      EvRepositoryRead id (Ok repo) ∈ es -> exists rt, EvRepositorySync repo rt ∈ es).

(** An event that creates, enables or reads no repository. *)
Definition hands_nothing_on (e : Event) : Prop :=
  match e with
  | EvRepositoryCreate _ _ _ | EvEnableRepo _ _ _ _ | EvRepositoryRead _ _ => False
  | _ => True
  end.

(** A command run on a Satellite. *)
Definition is_execute (e : Event) : Prop :=
  match e with EvExecute _ _ _ => True | _ => False end.

(** A workflow or job template run by the broker. *)
Definition is_broker_execute (e : Event) : Prop :=
  match e with EvBrokerExecute _ _ => True | _ => False end.

(** The test bodies of the demo: one passes and leaves the host alone, one
    marks the host as configured and then fails. *)
Definition passing_test : TestBody := fun c _ => (Passed, c, []).

Definition failing_test : TestBody :=
  fun c _ =>
    (Failed (AssertionError "host did not boot"),
     match c with
     | One host => One (setattr_blank host (PyBool false))
     | Many l => Many l
     end,
     []).

(** ** What the pattern of line 325 matches *)

Module PatternSpec.

(** No whitespace in [s] *)
Fixpoint all_nonspace (s : string) : bool :=
  match s with
  | EmptyString => true
  | String c s' => negb (re.is_whitespace c) && all_nonspace s'
  end.

(** [s] is empty or begins with whitespace: a run of non-whitespace that
    ends before [s] cannot be extended. *)
Definition ends_run (s : string) : bool :=
  match s with
  | EmptyString => true
  | String c _ => re.is_whitespace c
  end.

(** After the prefix [pre], the text [s] has the literal followed by at least
    one non-whitespace character. *)
Definition match_starts (s pre : string) : Prop :=
  exists c rest,
    s = pre +:+ re.literal +:+ String c rest /\ re.is_whitespace c = false.

(** [m] is the match of the pattern that begins after [pre]: the literal and
    the longest run of non-whitespace characters that follows it. *)
Definition match_at (s pre m : string) : Prop :=
  exists suffix post,
    s = pre +:+ m +:+ post /\
    m = re.literal +:+ suffix /\
    suffix <> EmptyString /\
    all_nonspace suffix = true /\
    ends_run post = true.

(** [m] is the first match in [s]: no match starts earlier. *)
Definition first_match (s m : string) : Prop :=
  exists pre,
    match_at s pre m /\
    forall pre', match_starts s pre' -> (String.length pre <= String.length pre')%nat.

End PatternSpec.

(** ** Further projections of a trace *)

(** The tasks of the syncs that were accepted, in order. *)
Definition sync_task_of (e : Event) : option Task :=
  match e with
  | EvRepositorySync _ (Ok t) => Some t
  | _ => None
  end.

Definition sync_tasks (es : Trace) : list Task := omap sync_task_of es.

(** The repositories that reading by id returned, in order. *)
Definition read_repo_of (e : Event) : option Repository :=
  match e with
  | EvRepositoryRead _ (Ok r) => Some r
  | _ => None
  end.

Definition repositories_read (es : Trace) : list Repository := omap read_repo_of es.

(** The custom client repository, as its creation returned it. *)
Definition created_repo_of (e : Event) : option Repository :=
  match e with
  | EvRepositoryCreate _ _ (Ok r) => Some r
  | _ => None
  end.

Definition repositories_created (es : Trace) : list Repository := omap created_repo_of es.

Definition is_domain_or_subnet_create (e : Event) : Prop :=
  match e with
  | EvDomainCreate _ _ | EvSubnetCreate _ _ => True
  | _ => False
  end.

(** How the loop over the vendor names changes the local variables from [s]
    to [s'], given the events [es] it added: the tasks of the syncs and the
    repositories read are appended, the latter also to the content view, and
    there is one sync for each repository read. *)
Definition attached (s s' : Locals) (es : Trace) : Prop :=
  tasks s' = tasks s ++ sync_tasks es /\
  rh_repos s' = rh_repos s ++ repositories_read es /\
  repository (content_view s') = repository (content_view s) ++ repositories_read es /\
  cv_id (content_view s') = cv_id (content_view s) /\
  cv_name (content_view s') = cv_name (content_view s) /\
  length (sync_tasks es) = length (repositories_read es).

(** The events of lines 99-127 alone. *)
Definition last_phase_event (e : Event) : Prop :=
  match e with
  | EvOperatingSystemSearch _ _ | EvOperatingSystemRead _ _
  | EvContentViewPublish _ _ | EvContentViewSearch _ _
  | EvActivationKeyCreate _ _ => True
  | _ => False
  end.



(** Broker outputs that cannot be used: no upstream DNS address, and no
    gateway key. *)
Definition data_out_no_dns : BrokerDataOut :=
  {| provisioning_addr_ipv4 := Some "10.0.0.5/24";
     provisioning_upstream_dns := Some [];
     provisioning_gw_ipv4 := Some "10.0.0.1";
     provisioning_host_range_start := Some "10.0.0.100";
     provisioning_host_range_end := Some "10.0.0.200" |}.

Definition data_out_no_gateway : BrokerDataOut :=
  {| provisioning_addr_ipv4 := Some "10.0.0.5/24";
     provisioning_upstream_dns := Some ["8.8.8.8"];
     provisioning_gw_ipv4 := None;
     provisioning_host_range_start := Some "10.0.0.100";
     provisioning_host_range_end := Some "10.0.0.200" |}.

(** A remote command that fails, a Satellite with a discovery image, the
    output of a remaster, and hosts whose broker arguments lack a key. *)
Definition cmd_fails : string -> CmdResult :=
  fun _ => {| status := 1; stdout := "dhcpd.service failed" |}.

Definition discovery_sat : DiscoverySat := {| d_sat := Demo.satellite; iso := "fdi.iso" |}.

Definition remaster_output : string :=
  "Created foreman-discovery-image-3.8.2.iso in /var/www/html/pub".

Definition host_without_mac : Host :=
  {| host_name := "vm1";
     broker_args := {[ "target_vm_firmware" := "bios" ]};
     attrs := ∅ |}.

Definition host_without_firmware : Host :=
  {| host_name := "vm1";
     broker_args := {[ "provisioning_nic_mac_addr" := "52:54:00:aa:bb:cc" ]};
     attrs := ∅ |}.

(** The broker workflow that imports the discovery image. *)
Definition is_image_import (e : Event) : Prop :=
  match e with
  | EvBrokerExecute args _ => ("workflow", "import-disk-image") ∈ args
  | _ => False
  end.

(** * Properties *)

(** ** Reasoning about computations *)

Lemma bind_inv {A B} (m : M A) (k : A -> M B) h r es :
  bind m k h = (r, es) ->
  (exists e, m h = (Raise e, es) /\ r = Raise e) \/
  (exists a es1 es2,
      m h = (Ok a, es1) /\ k a (h ++ es1) = (r, es2) /\ es = es1 ++ es2).
Proof.
  unfold bind. destruct (m h) as [[a|e] es1].
  - destruct (k a (h ++ es1)) as [r' es2] eqn:Hk. intros [= <- <-].
    right. exists a, es1, es2. auto.
  - intros [= <- <-]. left. eauto.
Qed.

Lemma bind_ok {A B} (m : M A) (k : A -> M B) h a es1 :
  m h = (Ok a, es1) ->
  bind m k h = ((k a (h ++ es1)).1, es1 ++ (k a (h ++ es1)).2).
Proof. unfold bind. intros ->. by destruct (k a (h ++ es1)). Qed.

Lemma bind_raise {A B} (m : M A) (k : A -> M B) h e es :
  m h = (Raise e, es) -> bind m k h = (Raise e, es).
Proof. unfold bind. by intros ->. Qed.

Lemma emits_ret {A} P (a : A) : emits P (ret a).
Proof. intros h. constructor. Qed.

Lemma emits_raise {A} P e : emits P (@raise A e).
Proof. intros h. constructor. Qed.

Lemma emits_lift {A} P (r : Res A) : emits P (lift r).
Proof. intros h. constructor. Qed.

Lemma emits_call {A} (P : Event -> Prop) (o : Trace -> Res A) ev :
  (forall r, P (ev r)) -> emits P (call o ev).
Proof. intros H h. simpl. auto. Qed.

Lemma emits_bind {A B} P (m : M A) (k : A -> M B) :
  emits P m -> (forall a, emits P (k a)) -> emits P (bind m k).
Proof.
  intros Hm Hk h. specialize (Hm h). unfold bind.
  destruct (m h) as [[a|e] es1]; simpl in *; [|done].
  specialize (Hk a (h ++ es1)). destruct (k a (h ++ es1)); simpl in *.
  by apply Forall_app.
Qed.

Lemma emits_gen_alpha (P : Event -> Prop) w :
  (forall s, P (EvGenString s)) -> emits P (gen_alpha w).
Proof. intros H h. simpl. auto. Qed.

Lemma emits_assert P c msg : emits P (assert c msg).
Proof. destruct c; [apply emits_ret | apply emits_raise]. Qed.

Lemma emits_getitem {A} P (d : string -> option A) key : emits P (getitem d key).
Proof. unfold getitem. destruct (d key); [apply emits_ret | apply emits_raise]. Qed.

Lemma emits_first {A} P (l : list A) : emits P (first l).
Proof. destruct l; [apply emits_raise | apply emits_ret]. Qed.

Lemma emits_for_each {A S} P (l : list A) (body : A -> S -> M S) :
  (forall x s, emits P (body x s)) -> forall s, emits P (for_each l body s).
Proof.
  intros Hb. induction l as [|x l IH]; intros s; simpl.
  - apply emits_ret.
  - apply emits_bind; auto.
Qed.

Lemma emits_ok_emits {A} P (m : M A) : emits P m -> ok_emits P m.
Proof. intros H h a es Hm. specialize (H h). by rewrite Hm in H. Qed.

Lemma ok_emits_bind {A B} P (m : M A) (k : A -> M B) :
  ok_emits P m -> (forall a, ok_emits P (k a)) -> ok_emits P (bind m k).
Proof.
  intros Hm Hk h b es Hb.
  apply bind_inv in Hb as [(e & _ & ?)|(a & es1 & es2 & H1 & H2 & ->)]; [done|].
  apply Forall_app. split; [by eapply Hm | by eapply Hk].
Qed.

Lemma ok_emits_for_each {A S} P (l : list A) (body : A -> S -> M S) :
  (forall x s, ok_emits P (body x s)) -> forall s, ok_emits P (for_each l body s).
Proof.
  intros Hb. induction l as [|x l IH]; intros s; simpl.
  - apply emits_ok_emits, emits_ret.
  - apply ok_emits_bind; auto.
Qed.

Create HintDb emits.
#[local] Hint Resolve emits_ret emits_raise emits_lift emits_assert emits_getitem
  emits_first : emits.

(** Splits [emits P m] along the structure of [m]. *)
Ltac emits_step :=
  match goal with
  | |- emits _ (bind _ _) => apply emits_bind; [|intros ?]
  | |- emits _ (call _ _) => apply emits_call; intros ?; simpl
  | |- emits _ (gen_alpha _) => apply emits_gen_alpha; intros ?; simpl
  | |- emits _ (for_each _ _ _) => apply emits_for_each; intros ? ?
  | |- emits _ (if ?c then _ else _) => destruct c
  | |- emits _ (match ?x with _ => _ end) => destruct x
  | |- emits _ _ => solve [auto with emits]
  end.

(** ** ContentPipeline *)

Section ContentPipelineFacts.
Variable w : World.
Variable psat : ProvisioningSat.
Variable org : Organization.
Variable lce : LifecycleEnvironment.

Lemma emits_repo_names P v : emits P (repo_names w v).
Proof. unfold repo_names. repeat emits_step. Qed.

Lemma emits_create_client_content v :
  emits setup_event (create_client_content w org v).
Proof.
  unfold create_client_content.
  repeat emits_step; unfold setup_event; simpl; tauto.
Qed.

Lemma emits_enable_and_sync name s :
  emits setup_event (enable_and_sync w psat org name s).
Proof.
  unfold enable_and_sync, enable_kickstart, enable_content, sync_step.
  repeat emits_step; unfold setup_event; simpl; tauto.
Qed.

(** The wait loop neither publishes nor creates an activation key. *)
Lemma emits_wait_sync t u :
  emits (fun e => ~ is_publish e /\ ~ is_activation_key_create e) (wait_sync w t u).
Proof. unfold wait_sync. repeat emits_step; simpl; tauto. Qed.

(** A turn of the wait loop that returns has polled its task to success. *)
Lemma ok_emits_wait_sync t u : ok_emits (fun e => ~ poll_failed e) (wait_sync w t u).
Proof.
  intros h a es. unfold wait_sync, bind, call, assert.
  destruct (wait_for_tasks w _ h) as [sts|e]; [|done].
  destruct (poll w (task_id t) _) as [st|e]; [|done]. simpl.
  destruct (String.eqb (result st) "success") eqn:E; simpl; [|done].
  intros [= <- <-]. apply String.eqb_eq in E.
  repeat constructor; simpl; tauto.
Qed.

Lemma emits_publish_and_bind v s :
  emits (fun e => ~ is_poll e) (publish_and_bind w org lce v s).
Proof. unfold publish_and_bind. repeat emits_step; simpl; tauto. Qed.

End ContentPipelineFacts.

Lemma poll_failed_is_poll e : poll_failed e -> is_poll e.
Proof. by destruct e. Qed.

(** C1: in every run of [module_provisioning_rhel_content] in which some sync
    task polls to a result other than success (or the poll raises), no
    content-view publish is issued and no activation key is created. *)
Theorem sync_failure_blocks_publish w psat org lce rhel_ver h r es :
  module_provisioning_rhel_content w psat org lce rhel_ver h = (r, es) ->
  Exists poll_failed es ->
  Forall (fun e => ~ is_publish e /\ ~ is_activation_key_create e) es.
Proof.
  unfold module_provisioning_rhel_content. intros Hrun Hfail.
  assert (Hsetup : forall e, setup_event e ->
             ~ poll_failed e /\ ~ is_publish e /\ ~ is_activation_key_create e).
  { intros e (? & ? & ?). split; [|done]. intros ?%poll_failed_is_poll. done. }
  assert (Hno : forall l : Trace, Forall setup_event l -> Exists poll_failed l -> False).
  { intros l Hl Hex. apply Exists_exists in Hex as (e & Hin & He).
    rewrite Forall_forall in Hl. destruct (Hsetup e (Hl e Hin)) as [? _]. done. }
  assert (Hweak : forall l : Trace, Forall setup_event l ->
             Forall (fun e => ~ is_publish e /\ ~ is_activation_key_create e) l).
  { intros l Hl. eapply Forall_impl; [exact Hl|]. intros e He. apply Hsetup in He. tauto. }
  apply bind_inv in Hrun as [(e & Hn & _)|(names & es0 & es' & Hn & Hrun & ->)].
  { pose proof (emits_repo_names w setup_event rhel_ver h) as H0.
    rewrite Hn in H0. by apply Hweak. }
  pose proof (emits_repo_names w setup_event rhel_ver h) as H0. rewrite Hn in H0.
  simpl in H0.
  apply bind_inv in Hrun as [(e & Hc & _)|(s0 & es1 & es'' & Hc & Hrun & ->)].
  { pose proof (emits_create_client_content w org rhel_ver (h ++ es0)) as H1.
    rewrite Hc in H1. apply Forall_app. split; by apply Hweak. }
  pose proof (emits_create_client_content w org rhel_ver (h ++ es0)) as H1.
  rewrite Hc in H1. simpl in H1.
  apply bind_inv in Hrun as [(e & Hl & _)|(s1 & es2 & es3 & Hl & Hrun & ->)].
  { pose proof (emits_for_each setup_event names _
                  (emits_enable_and_sync w psat org) s0 ((h ++ es0) ++ es1)) as H2.
    rewrite Hl in H2. rewrite !Forall_app. auto. }
  pose proof (emits_for_each setup_event names _
                (emits_enable_and_sync w psat org) s0 ((h ++ es0) ++ es1)) as H2.
  rewrite Hl in H2. simpl in H2.
  apply bind_inv in Hrun as [(e & Hw & _)|([] & es4 & es5 & Hw & Hrun & ->)].
  { pose proof (emits_for_each _ (tasks s1) _ (emits_wait_sync w) tt
                  (((h ++ es0) ++ es1) ++ es2)) as H3.
    rewrite Hw in H3. rewrite !Forall_app. auto. }
  (* the wait loop returned: every poll succeeded, a contradiction *)
  exfalso.
  pose proof (ok_emits_for_each _ (tasks s1) _ (ok_emits_wait_sync w) tt _ _ _ Hw) as H3.
  pose proof (emits_publish_and_bind w org lce rhel_ver s1
                ((((h ++ es0) ++ es1) ++ es2) ++ es4)) as H4.
  rewrite Hrun in H4. simpl in H4.
  rewrite !Exists_app in Hfail.
  destruct Hfail as [?|[?|[?|[Hex|Hex]]]]; eauto.
  - apply Exists_exists in Hex as (e & Hin & He).
    rewrite Forall_forall in H3. by eapply H3.
  - apply Exists_exists in Hex as (e & Hin & He).
    rewrite Forall_forall in H4. apply poll_failed_is_poll in He. by eapply H4.
Qed.

(** Finds an event in an explicit list. *)
Ltac find_event := vm_compute; repeat constructor.

Lemma sync_failure_blocks_publish_witness :
  let out := module_provisioning_rhel_content
               (Demo.world Demo.kickstart_sync_fails Demo.data_out (Demo.cmd_ok ""))
               (Demo.psat "") Demo.org Demo.lce (PyInt 8) [] in
  Exists poll_failed out.2 /\
  Forall (fun e => ~ is_publish e /\ ~ is_activation_key_create e) out.2.
Proof.
  intros out.
  assert (Hfail : Exists poll_failed out.2).
  { apply Exists_exists. exists (EvPoll "sync-6" (Ok {| result := "error" |})).
    split; [find_event | simpl; discriminate]. }
  split; [exact Hfail|].
  apply (sync_failure_blocks_publish
           (Demo.world Demo.kickstart_sync_fails Demo.data_out (Demo.cmd_ok ""))
           (Demo.psat "") Demo.org Demo.lce (PyInt 8) [] out.1 out.2);
    [apply surjective_pairing | exact Hfail].
Defined.

(** ** Inversion of runs *)

Lemma bind_inv_ok {A B} (m : M A) (k : A -> M B) h b es :
  bind m k h = (Ok b, es) ->
  exists a es1 es2, m h = (Ok a, es1) /\ k a (h ++ es1) = (Ok b, es2) /\ es = es1 ++ es2.
Proof. intros [(e & _ & ?)|?]%bind_inv; [done | assumption]. Qed.

Lemma ret_inv {A} (a : A) h r es : ret a h = (r, es) -> r = Ok a /\ es = [].
Proof. by intros [= <- <-]. Qed.

Lemma lift_inv {A} (x : Res A) h r es : lift x h = (r, es) -> r = x /\ es = [].
Proof. by intros [= <- <-]. Qed.

Lemma call_inv {A} (o : Trace -> Res A) ev h r es :
  call o ev h = (r, es) -> r = o h /\ es = [ev r].
Proof. by intros [= <- <-]. Qed.

Lemma assert_inv_ok c msg h u es : assert c msg h = (Ok u, es) -> c = true /\ es = [].
Proof. destruct c; [by intros [= <- <-] | done]. Qed.

Lemma getitem_inv_ok {A} (d : string -> option A) key h a es :
  getitem d key h = (Ok a, es) -> d key = Some a /\ es = [].
Proof. unfold getitem. destruct (d key); [by intros [= <- <-] | done]. Qed.

Lemma first_inv_ok {A} (l : list A) h a es :
  first l h = (Ok a, es) -> es = [] /\ exists tl, l = a :: tl.
Proof. destruct l; [done|]. intros [= <- <-]. eauto. Qed.

(** Takes a run that returned normally apart, step by step. *)
Ltac inv_ok H :=
  lazy beta in H;
  match type of H with
  | bind _ _ _ = (Ok _, _) =>
      let H1 := fresh "Hrun" in let H2 := fresh "Hrun" in
      apply bind_inv_ok in H as (? & ? & ? & H1 & H2 & ->); inv_ok H1; inv_ok H2
  | ret _ _ = (_, _) => apply ret_inv in H as [[= ?] ->]; subst
  | lift _ _ = (Ok _, _) => apply lift_inv in H as [? ->]
  | call _ _ _ = (Ok _, _) => apply call_inv in H as [? ->]
  | assert _ _ _ = (Ok _, _) => apply assert_inv_ok in H as [? ->]
  | getitem _ _ _ = (Ok _, _) => apply getitem_inv_ok in H as [? ->]
  | first _ _ = (Ok _, _) => apply first_inv_ok in H as [-> [? ?]]
  | _ => idtac
  end.

Lemma omap_none {B} (f : Event -> option B) (es : Trace) :
  Forall (fun e => f e = None) es -> omap f es = [].
Proof. induction 1 as [|e es He _ IH]; simpl; [done|]. by rewrite He. Qed.

Lemma emits_omap_nil {A B} (f : Event -> option B) (m : M A) h :
  emits (fun e => f e = None) m -> omap f (m h).2 = [].
Proof. intros H. apply omap_none, H. Qed.

Section ContentPipelineRuns.
Variable w : World.
Variable psat : ProvisioningSat.
Variable org : Organization.
Variable lce : LifecycleEnvironment.

Lemma repo_names_inv v h r es :
  repo_names w v h = (r, es) ->
  es = [] /\
  r = match int w v with Ok z => Ok (vendor_names v z) | Raise e => Raise e end.
Proof.
  unfold repo_names, bind, lift, vendor_names. destruct (int w v) as [z|e].
  - destruct (z <=? 7); by intros [= <- <-].
  - by intros [= <- <-].
Qed.

(** A sync step that returns has read, synced and attached its repository. *)
Lemma sync_step_ok oid s h s' es :
  sync_step w oid s h = (Ok s', es) ->
  rh_repo_id s' = rh_repo_id s /\
  match oid with
  | None => s' = s /\ es = []
  | Some id =>
      exists repo task cv' u,
        es = [EvRepositoryRead id (Ok repo); EvRepositorySync repo (Ok task);
              EvContentViewUpdate cv' (Ok u)] /\
        rh_repos s' = rh_repos s ++ [repo] /\
        tasks s' = tasks s ++ [task]
  end.
Proof.
  destruct oid as [id|]; simpl; intros H; inv_ok H; [|by repeat split].
  simpl. split; [done|]. eexists _, _, _, _. split; [|done]. reflexivity.
Qed.

Lemma enable_kickstart_ok name h id es :
  enable_kickstart w org name h = (Ok id, es) ->
  exists a, es = [EvEnableRepo Kickstart name a (Ok id)].
Proof. unfold enable_kickstart. intros H. inv_ok H. simpl. eauto. Qed.

Lemma enable_content_ok name h id es :
  enable_content w org name h = (Ok id, es) ->
  exists a, es = [EvEnableRepo Content name a (Ok id)].
Proof. unfold enable_content. intros H. inv_ok H. simpl. eauto. Qed.

Lemma enable_and_sync_ok name s h s' es :
  enable_and_sync w psat org name s h = (Ok s', es) ->
  exists id repo tl rds,
    enabled Kickstart es = [(name, Ok id)] /\
    repository_reads es = (id, Ok repo) :: rds /\
    rh_repos s' = rh_repos s ++ repo :: tl.
Proof.
  unfold enable_and_sync. intros H.
  apply bind_inv_ok in H as (id & es1 & esA & Hks & H & ->).
  apply enable_kickstart_ok in Hks as [a ->].
  apply bind_inv_ok in H as (s1 & es2 & esB & Hct & H & ->).
  assert (Hs1 : rh_repos s1 = rh_repos s /\ enabled Kickstart es2 = [] /\
                repository_reads es2 = []).
  { destruct (negb _); inv_ok Hct; [|done].
    apply enable_content_ok in Hrun as [a' ->]. done. }
  destruct Hs1 as (Hr & He & Hd).
  cbn [for_each] in H.
  apply bind_inv_ok in H as (s2 & es3 & esC & Hf & H & ->).
  apply sync_step_ok in Hf as (_ & repo & task & cv' & u & -> & Hr2 & _).
  apply bind_inv_ok in H as (s3 & es4 & esD & Hg & H & ->).
  apply ret_inv in H as [[= ->] ->].
  apply sync_step_ok in Hg as (_ & Hg).
  exists id, repo.
  unfold enabled, repository_reads in *. rewrite !omap_app, He, Hd. simpl.
  destruct (rh_repo_id s1) as [id'|].
  - destruct Hg as (repo' & task' & cv'' & u' & -> & Hr3 & _). simpl.
    eexists [repo'], _. rewrite Hr3, Hr2, Hr, <- app_assoc. done.
  - destruct Hg as [-> ->]. simpl.
    eexists [], _. by rewrite Hr2, Hr.
Qed.

(** One turn of the loop enables the kickstart repository of its name, once;
    it enables none only when the lookup of the name raised. *)
Lemma enable_and_sync_enabled name s h r es :
  enable_and_sync w psat org name s h = (r, es) ->
  map fst (enabled Kickstart es) = [name] \/
  (enabled Kickstart es = [] /\ is_ok r = false).
Proof.
  unfold enable_and_sync. intros H.
  apply bind_inv in H as [(e & Hks & ->)|(id & es1 & es2 & Hks & H & ->)].
  - unfold enable_kickstart, getitem in Hks.
    destruct (REPOS_kickstart w name) as [en|]; simpl in Hks.
    + apply call_inv in Hks as [_ ->]. by left.
    + injection Hks as _ <-. by right.
  - apply enable_kickstart_ok in Hks as [a ->]. left.
    unfold enabled. rewrite omap_app. simpl. f_equal.
    match type of H with ?m ?h' = _ =>
      pose proof (emits_omap_nil (enable_of Kickstart) m h') as Hn end.
    rewrite H in Hn. simpl in Hn. rewrite Hn; [done|].
    unfold enable_content, sync_step. repeat emits_step; done.
Qed.

Lemma for_each_enable_prefix names s h r es :
  for_each names (enable_and_sync w psat org) s h = (r, es) ->
  map fst (enabled Kickstart es) `prefix_of` names /\
  (is_ok r = true -> map fst (enabled Kickstart es) = names).
Proof.
  revert s h r es. induction names as [|name names IH]; intros s h r es; simpl.
  - intros [= <- <-]. by split.
  - intros [(e & Hb & ->)|(s1 & es1 & es2 & Hb & H & ->)]%bind_inv.
    + apply enable_and_sync_enabled in Hb as [->|[-> _]]; simpl.
      * split; [|done]. by exists names.
      * split; [|done]. apply prefix_nil.
    + apply enable_and_sync_enabled in Hb as [Hb|[_ ?]]; [|done].
      apply IH in H as [Hp Hok]. unfold enabled in *. rewrite omap_app, map_app, Hb.
      simpl. split.
      * by apply prefix_cons.
      * intros Hr. by rewrite Hok.
Qed.

Lemma for_each_enable_grows names s h s' es :
  for_each names (enable_and_sync w psat org) s h = (Ok s', es) ->
  exists tl, rh_repos s' = rh_repos s ++ tl.
Proof.
  revert s h es. induction names as [|name names IH]; intros s h es; simpl.
  - intros [= <- <-]. exists []. by rewrite app_nil_r.
  - intros (s1 & es1 & es2 & Hb & H & ->)%bind_inv_ok.
    apply enable_and_sync_ok in Hb as (id & repo & tl & rds & _ & _ & Hr).
    apply IH in H as [tl' ->]. rewrite Hr, <- app_assoc. eauto.
Qed.

(** The first turn of the loop: its kickstart repository is the first one
    enabled, the first one read, and the first one registered. *)
Lemma for_each_enable_first name names s h s' es :
  for_each (name :: names) (enable_and_sync w psat org) s h = (Ok s', es) ->
  exists id repo ids rds tl,
    enabled Kickstart es = (name, Ok id) :: ids /\
    repository_reads es = (id, Ok repo) :: rds /\
    rh_repos s' = rh_repos s ++ repo :: tl.
Proof.
  simpl. intros (s1 & es1 & es2 & Hb & H & ->)%bind_inv_ok.
  apply enable_and_sync_ok in Hb as (id & repo & tl & rds & He & Hd & Hr).
  apply for_each_enable_grows in H as [tl' ->].
  exists id, repo. unfold enabled, repository_reads in *.
  rewrite !omap_app, He, Hd, Hr, <- app_assoc. simpl. eauto 10.
Qed.

End ContentPipelineRuns.

Section ContentPipelinePhases.
Variable w : World.
Variable psat : ProvisioningSat.
Variable org : Organization.
Variable lce : LifecycleEnvironment.

Lemma run_phases v h r es :
  module_provisioning_rhel_content w psat org lce v h = (r, es) ->
  fixture_phases w psat org lce v h r es.
Proof.
  unfold module_provisioning_rhel_content, fixture_phases. intros H.
  apply bind_inv in H as [(e & Hn & ->)|(names & es0 & es' & Hn & H & ->)];
    apply repo_names_inv in Hn as [-> Hn].
  { destruct (int w v) as [z|e']; [done|]. by injection Hn as <-. }
  destruct (int w v) as [z|e']; [|done].
  injection Hn as ->. rewrite app_nil_r in H. simpl.
  destruct (create_client_content w org v h) as [rC esC] eqn:HC.
  apply bind_inv in H as [(e & H1 & ->)|(s0 & es1 & esA & H1 & H & ->)];
    rewrite HC in H1; injection H1 as -> ->; [left; eauto|]. right.
  exists s0. split; [done|].
  destruct (for_each (vendor_names v z) _ s0 (h ++ es1)) as [rL esL] eqn:HL.
  apply bind_inv in H as [(e & H1 & ->)|(s1 & es2 & esB & H1 & H & ->)];
    rewrite HL in H1; injection H1 as -> ->; [left; eauto|]. right.
  exists s1. split; [done|].
  destruct (for_each (tasks s1) _ tt ((h ++ es1) ++ es2)) as [rW esW] eqn:HW.
  apply bind_inv in H as [(e & H1 & ->)|([] & es3 & esD & H1 & H & ->)];
    rewrite HW in H1; injection H1 as -> ->; [left; eauto|]. right.
  split; [done|]. exists esD. by rewrite H.
Qed.

Lemma emits_create_client_quiet v :
  emits no_enable_no_read (create_client_content w org v).
Proof.
  unfold create_client_content. repeat emits_step; by split; [intros []|].
Qed.

Lemma emits_wait_quiet l :
  emits no_enable_no_read (for_each l (wait_sync w) tt).
Proof. unfold wait_sync. repeat emits_step; by split; [intros []|]. Qed.

Lemma emits_publish_quiet v s :
  emits no_enable_no_read (publish_and_bind w org lce v s).
Proof. unfold publish_and_bind. repeat emits_step; by split; [intros []|]. Qed.

Lemma emits_create_client_no_wait v :
  emits (fun e => ~ is_wait e) (create_client_content w org v).
Proof. unfold create_client_content. repeat emits_step; by intros []. Qed.

Lemma emits_enable_and_sync_no_wait names s :
  emits (fun e => ~ is_wait e) (for_each names (enable_and_sync w psat org) s).
Proof.
  unfold enable_and_sync, enable_kickstart, enable_content, sync_step.
  repeat emits_step; by intros [].
Qed.

Lemma quiet_nil (es : Trace) k :
  Forall no_enable_no_read es -> enabled k es = [] /\ repository_reads es = [].
Proof.
  intros H. split; apply omap_none; eapply Forall_impl; try exact H;
    intros e [? ?]; auto.
Qed.

Lemma create_client_content_ok v h s0 es :
  create_client_content w org v h = (Ok s0, es) ->
  rh_repos s0 = [] /\ rh_repo_id s0 = None.
Proof. unfold create_client_content. intros H. inv_ok H. done. Qed.

Lemma publish_and_bind_ok v s h b es :
  publish_and_bind w org lce v s h = (Ok b, es) ->
  exists tl, rh_repos s = ksrepo b :: tl.
Proof. unfold publish_and_bind. intros H. inv_ok H. simpl. eauto. Qed.

End ContentPipelinePhases.

(** C2: a run of [module_provisioning_rhel_content] enables the kickstart
    repositories of the vendor names in order and no other: the single
    ['rhel{v}'] when [int(v) <= 7], ['rhel{v}_bos'] then ['rhel{v}_aps'] when
    [int(v) > 7].  A run that raises has enabled a prefix of them; a run that
    got as far as waiting for a sync task has enabled exactly them.  A run
    that returns has enabled exactly them, and the [ksrepo] of its bundle is
    the first repository read and registered: the one whose id the first of
    these calls returned. *)
Theorem kickstart_repos_by_version w psat org lce v z h r es :
  int w v = Ok z ->
  module_provisioning_rhel_content w psat org lce v h = (r, es) ->
  map fst (enabled Kickstart es) `prefix_of` vendor_names v z /\
  (Exists is_wait es -> map fst (enabled Kickstart es) = vendor_names v z) /\
  forall b, r = Ok b ->
    map fst (enabled Kickstart es) = vendor_names v z /\
    length (enabled Kickstart es) = (if z <=? 7 then 1%nat else 2%nat) /\
    exists id ids rds,
      enabled Kickstart es =
        ((if z <=? 7 then "rhel" +:+ format v else "rhel" +:+ format v +:+ "_bos"), Ok id)
        :: ids /\
      repository_reads es = (id, Ok (ksrepo b)) :: rds.
Proof.
  intros Hz H%run_phases. unfold fixture_phases in H. rewrite Hz in H.
  pose proof (emits_create_client_quiet w org v h) as HqC.
  pose proof (emits_create_client_no_wait w org v h) as HwC.
  destruct (create_client_content w org v h) as [rC esC] eqn:HC. simpl in HqC, HwC.
  pose proof (quiet_nil _ Kickstart HqC) as [HeC HrC].
  assert (Hnw : forall l : Trace, Forall (fun e => ~ is_wait e) l -> ~ Exists is_wait l).
  { intros l Hl (e & Hin & He)%Exists_exists. rewrite Forall_forall in Hl.
    by apply (Hl e). }
  destruct H as [(e & -> & -> & ->)|(s0 & -> & H)].
  { rewrite HeC. split; [apply prefix_nil|]. split; [|done].
    intros Hw. by destruct (Hnw _ HwC). }
  pose proof (emits_enable_and_sync_no_wait w psat org (vendor_names v z) s0
                (h ++ esC)) as HwL.
  destruct (for_each (vendor_names v z) _ s0 (h ++ esC)) as [rL esL] eqn:HL.
  simpl in HwL.
  pose proof (for_each_enable_prefix _ _ _ _ _ _ _ _ HL) as [Hpre Hall].
  assert (Happ : forall es', Forall no_enable_no_read es' ->
            enabled Kickstart (esC ++ esL ++ es') = enabled Kickstart esL /\
            repository_reads (esC ++ esL ++ es') = repository_reads esL).
  { intros es' [He' Hr']%(quiet_nil _ Kickstart). unfold enabled, repository_reads in *.
    rewrite !omap_app, HeC, HrC, He', Hr', !app_nil_r. done. }
  destruct H as [(e & -> & -> & ->)|(s1 & -> & H)].
  { destruct (Happ [] ltac:(constructor)) as [He _]. rewrite app_nil_r in He.
    rewrite He. split; [done|]. split; [|done].
    intros Hw. destruct (Hnw (esC ++ esL)); [by apply Forall_app | done]. }
  specialize (Hall eq_refl).
  pose proof (emits_wait_quiet w (tasks s1) ((h ++ esC) ++ esL)) as HqW.
  destruct (for_each (tasks s1) _ tt _) as [rW esW] eqn:HW. simpl in HqW.
  destruct H as [(e & -> & -> & ->)|(-> & esP & HP & ->)].
  { destruct (Happ esW HqW) as [He _]. rewrite He. split; [done|]. by split. }
  pose proof (emits_publish_quiet w org lce v s1 (((h ++ esC) ++ esL) ++ esW)) as HqP.
  rewrite HP in HqP. simpl in HqP.
  destruct (Happ (esW ++ esP) ltac:(by apply Forall_app)) as [He Hr].
  rewrite He, Hr. split; [done|]. split; [done|]. intros b ->.
  split; [done|]. split.
  { rewrite <- (length_map fst), Hall. unfold vendor_names. by destruct (z <=? 7). }
  apply create_client_content_ok in HC as [Hs0 _].
  apply publish_and_bind_ok in HP as [tl Hks].
  unfold vendor_names in HL.
  destruct (z <=? 7);
    apply for_each_enable_first in HL as (id & repo & ids & rds & tl' & -> & -> & Hrepos);
    rewrite Hs0, Hks in Hrepos; injection Hrepos as -> _; eauto.
Qed.

Lemma kickstart_repos_by_version_witness :
  let w := Demo.world Demo.all_success Demo.data_out (Demo.cmd_ok "") in
  let out := module_provisioning_rhel_content w (Demo.psat "") Demo.org Demo.lce
               (PyInt 8) [] in
  int w (PyInt 8) = Ok 8 /\
  is_ok out.1 = true /\
  map fst (enabled Kickstart out.2) `prefix_of` ["rhel8_bos"; "rhel8_aps"] /\
  (Exists is_wait out.2 ->
   map fst (enabled Kickstart out.2) = ["rhel8_bos"; "rhel8_aps"]) /\
  forall b, out.1 = Ok b ->
    map fst (enabled Kickstart out.2) = ["rhel8_bos"; "rhel8_aps"] /\
    length (enabled Kickstart out.2) = 2%nat /\
    exists id ids rds,
      enabled Kickstart out.2 = ("rhel8_bos", Ok id) :: ids /\
      repository_reads out.2 = (id, Ok (ksrepo b)) :: rds.
Proof.
  intros w out. split; [reflexivity|]. split; [by vm_compute|].
  apply (kickstart_repos_by_version w (Demo.psat "") Demo.org Demo.lce
           (PyInt 8) 8 [] out.1 out.2 eq_refl).
  apply surjective_pairing.
Defined.

(** ** Discovery and the content repositories *)

Lemma sync_provenance_app es1 es2 :
  sync_provenance es1 -> sync_provenance es2 -> sync_provenance (es1 ++ es2).
Proof.
  intros H1 H2 repo rt [Hin|Hin]%elem_of_app.
  - destruct (H1 _ _ Hin) as [(p & url & ?)|(name & a & id & ? & ?)].
    + left. exists p, url. apply elem_of_app. auto.
    + right. exists name, a, id. rewrite !elem_of_app. auto.
  - destruct (H2 _ _ Hin) as [(p & url & ?)|(name & a & id & ? & ?)].
    + left. exists p, url. apply elem_of_app. auto.
    + right. exists name, a, id. rewrite !elem_of_app. auto.
Qed.

Lemma sync_provenance_no_sync es :
  Forall (fun e => ~ is_sync e) es -> sync_provenance es.
Proof.
  intros H repo rt Hin. rewrite Forall_forall in H. by destruct (H _ Hin).
Qed.

(** Takes any run apart, case by case. *)
Ltac inv_run H :=
  lazy beta in H;
  lazymatch type of H with
  | bind _ _ _ = (_, _) =>
      let H1 := fresh "Hrun" in let H2 := fresh "Hrun" in
      apply bind_inv in H as [(? & H1 & ?)|(? & ? & ? & H1 & H2 & ->)];
      [simplify_eq; inv_run H1 | inv_run H1; inv_run H2]
  | ret _ _ = (_, _) => apply ret_inv in H as [? ?]; simplify_eq
  | raise _ _ = (_, _) => injection H as ? ?; simplify_eq
  | gen_alpha _ _ = (_, _) => injection H as ? ?; simplify_eq
  | lift _ _ = (_, _) => apply lift_inv in H as [? ?]; simplify_eq
  | match ?x with _ => _ end _ = (_, _) => is_var x; destruct x; inv_run H
  | call _ _ _ = (_, _) => apply call_inv in H as [? ?]; simplify_eq
  | getitem ?d ?k _ = (_, _) =>
      unfold getitem in H; destruct (d k); inv_run H
  | _ => idtac
  end.

(** Case analysis on membership in a list of events built from explicit
    events and appends. *)
Ltac elem_inv H :=
  repeat match type of H with
         | _ ∈ [] => apply elem_of_nil in H; destruct H
         | _ ∈ _ :: _ =>
             apply elem_of_cons in H as [H|H];
             [try discriminate H; try (injection H; clear H; intros; subst)|]
         | _ ∈ _ ++ _ => apply elem_of_app in H as [H|H]
         end.

(** Finds an event in such a list. *)
Ltac elem_find :=
  first [ assumption
        | apply list_elem_of_here
        | apply list_elem_of_further; elem_find
        | apply elem_of_app; first [ left; elem_find | right; elem_find ] ].

Section Discovery.
Variable w : World.
Variable psat : ProvisioningSat.
Variable org : Organization.
Variable lce : LifecycleEnvironment.

Lemma sync_step_any id s h r es :
  sync_step w (Some id) s h = (r, es) ->
  (forall s', r = Ok s' -> rh_repo_id s' = rh_repo_id s) /\
  Forall (fun e => forall k, enable_of k e = None) es /\
  forall repo rt, EvRepositorySync repo rt ∈ es -> EvRepositoryRead id (Ok repo) ∈ es.
Proof.
  unfold sync_step. intros H.
  inv_run H; (split; [by intros ? [= <-]|]); (split; [by repeat constructor|]);
    intros repo rt Hin; elem_inv Hin; elem_find.
Qed.

(** A turn of the loop under the discovery flavor, started with no content
    repository id at hand. *)
Lemma enable_and_sync_discovery name s h r es :
  provisioning_type psat = "discovery" ->
  rh_repo_id s = None ->
  enable_and_sync w psat org name s h = (r, es) ->
  (forall s', r = Ok s' -> rh_repo_id s' = None) /\
  enabled Content es = [] /\
  sync_provenance es.
Proof.
  intros Hd Hs. unfold enable_and_sync. rewrite Hd, String.eqb_refl.
  cbn [negb for_each]. intros H.
  apply bind_inv in H as [(e & Hks & ->)|(id & es1 & es2 & Hks & H & ->)];
    unfold enable_kickstart in Hks.
  - split; [done|]. inv_run Hks; (split; [done|]);
      apply sync_provenance_no_sync; repeat constructor; by intros [].
  - inv_run Hks.
    apply bind_inv in H as [(e & Hr & ->)|(s1 & es3 & es4 & Hr & H & ->)];
      apply ret_inv in Hr as [[=] ->].
    subst s1. rewrite Hs in H.
    assert (Hprov : forall r' es5 es6,
              sync_step w (Some id) s
                ((h ++ [] ++ [EvEnableRepo Kickstart name
                   {| basearch := DEFAULT_ARCHITECTURE w; e_org_id := org_id org;
                      e_product := ks_product k; e_repo := ks_name k;
                      e_reposet := ks_reposet k; e_releasever := ks_version k |}
                   (Ok id)]) ++ []) = (r', es5) ->
              Forall (fun e => ~ is_sync e /\ forall k, enable_of k e = None) es6 ->
              (forall s', r' = Ok s' -> rh_repo_id s' = None) /\
              enabled Content
                (([] ++ [EvEnableRepo Kickstart name
                   {| basearch := DEFAULT_ARCHITECTURE w; e_org_id := org_id org;
                      e_product := ks_product k; e_repo := ks_name k;
                      e_reposet := ks_reposet k; e_releasever := ks_version k |}
                   (Ok id)]) ++ [] ++ es5 ++ es6) = [] /\
              sync_provenance
                (([] ++ [EvEnableRepo Kickstart name
                   {| basearch := DEFAULT_ARCHITECTURE w; e_org_id := org_id org;
                      e_product := ks_product k; e_repo := ks_name k;
                      e_reposet := ks_reposet k; e_releasever := ks_version k |}
                   (Ok id)]) ++ [] ++ es5 ++ es6)).
    { intros r' es5 es6 (Hid & Hen & Hsync)%sync_step_any H6. split; [|split].
      - intros s' ->. by rewrite (Hid _ eq_refl).
      - unfold enabled. rewrite !omap_app. simpl.
        rewrite (omap_none _ es5) by (eapply Forall_impl; [exact Hen|]; auto).
        rewrite (omap_none _ es6); [done|].
        eapply Forall_impl; [exact H6|]. by intros e' [_ ?].
      - intros repo rt Hin. elem_inv Hin.
        + pose proof (Hsync _ _ Hin). right. eexists name, _, id. split; elem_find.
        + rewrite Forall_forall in H6. by destruct (H6 _ Hin) as [[] _]. }
    apply bind_inv in H as [(e & Hr & ->)|(s2 & es5 & es6 & Hr & H & ->)].
    + apply (Hprov _ _ []) in Hr; [|constructor]. by rewrite !app_nil_r in Hr.
    + unfold sync_step in H. inv_run H.
      apply (Hprov _ _ []) in Hr; [|constructor]. done.
Qed.

Lemma for_each_discovery names s h r es :
  provisioning_type psat = "discovery" ->
  rh_repo_id s = None ->
  for_each names (enable_and_sync w psat org) s h = (r, es) ->
  enabled Content es = [] /\ sync_provenance es.
Proof.
  intros Hd. revert s h r es.
  induction names as [|name names IH]; intros s h r es Hs; cbn [for_each].
  - intros [= <- <-]. split; [done|]. by apply sync_provenance_no_sync.
  - intros [(e & Hb & ->)|(s1 & es1 & es2 & Hb & H & ->)]%bind_inv;
      apply enable_and_sync_discovery in Hb as (Hid & He & Hp); try done.
    apply IH in H as [He2 Hp2]; [|by apply Hid].
    split; [|by apply sync_provenance_app].
    unfold enabled in *. by rewrite omap_app, He, He2.
Qed.

Lemma create_client_content_provenance v h r es :
  create_client_content w org v h = (r, es) -> sync_provenance es.
Proof.
  unfold create_client_content. intros H.
  inv_run H; intros repo rt Hin; elem_inv Hin; left; eexists _, _; elem_find.
Qed.

Lemma emits_wait_no_sync l : emits (fun e => ~ is_sync e) (for_each l (wait_sync w) tt).
Proof. unfold wait_sync. repeat emits_step; by intros []. Qed.

Lemma emits_publish_no_sync v s :
  emits (fun e => ~ is_sync e) (publish_and_bind w org lce v s).
Proof. unfold publish_and_bind. repeat emits_step; by intros []. Qed.

(** A turn of the loop under another flavor: when it returns, the content
    repository of its name is enabled, read and synced. *)
Lemma enable_and_sync_content name s h s' es :
  provisioning_type psat <> "discovery" ->
  enable_and_sync w psat org name s h = (Ok s', es) ->
  map fst (enabled Content es) = [name] /\ content_synced name es.
Proof.
  intros Hd%String.eqb_neq. unfold enable_and_sync. rewrite Hd.
  cbn [negb for_each]. intros H.
  apply bind_inv_ok in H as (id & es1 & esA & Hks & H & ->).
  apply enable_kickstart_ok in Hks as [a ->].
  apply bind_inv_ok in H as (s1 & es2 & esB & Hct & H & ->).
  apply bind_inv_ok in Hct as (id' & es3 & esC & Hct & Hr & ->).
  apply enable_content_ok in Hct as [a' ->].
  apply ret_inv in Hr as [[= ->] ->]. cbn [rh_repo_id] in H.
  apply bind_inv_ok in H as (s2 & es4 & esD & Hf & H & ->).
  apply sync_step_ok in Hf as (_ & repo & task & cv' & u & -> & _).
  apply bind_inv_ok in H as (s3 & es5 & esE & Hg & H & ->).
  apply sync_step_ok in Hg as (_ & repo' & task' & cv'' & u' & -> & _).
  apply ret_inv in H as [_ ->]. split; [done|].
  exists a', id', repo', task'. repeat split; elem_find.
Qed.

Lemma content_synced_app_l name es1 es2 :
  content_synced name es1 -> content_synced name (es1 ++ es2).
Proof.
  intros (a & id & repo & task & ? & ? & ?). exists a, id, repo, task.
  rewrite !elem_of_app. auto.
Qed.

Lemma content_synced_app_r name es1 es2 :
  content_synced name es2 -> content_synced name (es1 ++ es2).
Proof.
  intros (a & id & repo & task & ? & ? & ?). exists a, id, repo, task.
  rewrite !elem_of_app. auto.
Qed.

Lemma for_each_content names s h s' es :
  provisioning_type psat <> "discovery" ->
  for_each names (enable_and_sync w psat org) s h = (Ok s', es) ->
  map fst (enabled Content es) = names /\
  forall name, name ∈ names -> content_synced name es.
Proof.
  intros Hd. revert s h es.
  induction names as [|name names IH]; intros s h es; cbn [for_each].
  - intros [= <- <-]. split; [done|]. by intros name ?%elem_of_nil.
  - intros (s1 & es1 & es2 & Hb & H & ->)%bind_inv_ok.
    apply enable_and_sync_content in Hb as [He Hc]; [|done].
    apply IH in H as [He2 Hc2]. split.
    + unfold enabled in *. by rewrite omap_app, map_app, He, He2.
    + intros name' [->|Hin]%elem_of_cons.
      * by apply content_synced_app_l.
      * by apply content_synced_app_r, Hc2.
Qed.

(** *** Every sync the loop owes is asked for *)

(** Runs a tactic on the membership that a clause about events assumes. *)
Ltac on_event tac :=
  intros; lazymatch goal with Hin : _ ∈ _ |- _ => tac Hin end.

Lemma sync_follows_app es1 es2 :
  sync_follows es1 -> sync_follows es2 -> sync_follows (es1 ++ es2).
Proof.
  intros (C1 & E1 & R1) (C2 & E2 & R2). split; [|split].
  - intros p url repo [Hin|Hin]%elem_of_app;
      [destruct (C1 _ _ _ Hin) as [rt ?] | destruct (C2 _ _ _ Hin) as [rt ?]];
      exists rt; rewrite elem_of_app; auto.
  - intros name a id [Hin|Hin]%elem_of_app;
      [destruct (E1 _ _ _ Hin) as [rr ?] | destruct (E2 _ _ _ Hin) as [rr ?]];
      exists rr; rewrite elem_of_app; auto.
  - intros id repo [Hin|Hin]%elem_of_app;
      [destruct (R1 _ _ Hin) as [rt ?] | destruct (R2 _ _ Hin) as [rt ?]];
      exists rt; rewrite elem_of_app; auto.
Qed.

Lemma sync_follows_nothing es : Forall hands_nothing_on es -> sync_follows es.
Proof.
  intros H. rewrite Forall_forall in H.
  split; [|split]; on_event ltac:(fun Hin => by destruct (H _ Hin)).
Qed.

Lemma emits_wait_nothing l : emits hands_nothing_on (for_each l (wait_sync w) tt).
Proof. unfold wait_sync. repeat emits_step; done. Qed.

Lemma emits_publish_nothing v s : emits hands_nothing_on (publish_and_bind w org lce v s).
Proof. unfold publish_and_bind. repeat emits_step; done. Qed.

Lemma create_client_content_follows v h r es :
  create_client_content w org v h = (r, es) -> sync_follows es.
Proof.
  unfold create_client_content. intros H.
  inv_run H; (split; [|split]);
    on_event ltac:(fun Hin => elem_inv Hin; eexists; elem_find).
Qed.

(** A turn of the loop under the discovery flavor, however it ends: the id
    the kickstart repository was enabled under is read, and the sync of the
    repository read is asked for. *)
Lemma enable_and_sync_follows name s h r es :
  provisioning_type psat = "discovery" ->
  rh_repo_id s = None ->
  enable_and_sync w psat org name s h = (r, es) ->
  sync_follows es.
Proof.
  intros Hd Hs. unfold enable_and_sync. rewrite Hd, String.eqb_refl.
  cbn [negb]. intros H.
  apply bind_inv in H as [(e & Hks & ->)|(id & es1 & es2 & Hks & H & ->)];
    unfold enable_kickstart in Hks.
  - inv_run Hks; (split; [|split]); on_event ltac:(fun Hin => elem_inv Hin).
  - inv_run Hks.
    apply bind_inv in H as [(e & Hr & ->)|(s1 & es3 & es4 & Hr & H & ->)];
      apply ret_inv in Hr as [[=] ->].
    subst s1. rewrite Hs in H. cbn [for_each] in H. unfold sync_step in H.
    inv_run H; (split; [|split]);
      on_event ltac:(fun Hin => elem_inv Hin; eexists; elem_find).
Qed.

Lemma for_each_follows names s h r es :
  provisioning_type psat = "discovery" ->
  rh_repo_id s = None ->
  for_each names (enable_and_sync w psat org) s h = (r, es) ->
  sync_follows es.
Proof.
  intros Hd. revert s h r es.
  induction names as [|name names IH]; intros s h r es Hs; cbn [for_each].
  - intros [= <- <-]. by apply sync_follows_nothing.
  - intros [(e & Hb & ->)|(s1 & es1 & es2 & Hb & H & ->)]%bind_inv.
    + by eapply enable_and_sync_follows.
    + apply sync_follows_app.
      * by eapply enable_and_sync_follows.
      * apply enable_and_sync_discovery in Hb as (Hid & _); [|done..].
        eapply IH; [|exact H]. by apply Hid.
Qed.

(** *** What a finished loop has synced *)

Lemma syncs_app es1 es2 : syncs (es1 ++ es2) = syncs es1 ++ syncs es2.
Proof. apply omap_app. Qed.

Lemma syncs_none es : Forall (fun e => ~ is_sync e) es -> syncs es = [].
Proof.
  intros H. apply omap_none. eapply Forall_impl; [exact H|].
  intros e He. destruct e; try done; by destruct He.
Qed.

Lemma kickstart_synced_mono name es es' :
  (forall e, e ∈ es -> e ∈ es') -> kickstart_synced name es -> kickstart_synced name es'.
Proof. intros H (a & id & repo & task & ? & ? & ?). exists a, id, repo, task. auto. Qed.

Lemma content_synced_mono name es es' :
  (forall e, e ∈ es -> e ∈ es') -> content_synced name es -> content_synced name es'.
Proof. intros H (a & id & repo & task & ? & ? & ?). exists a, id, repo, task. auto. Qed.

Lemma client_synced_mono es es' :
  (forall e, e ∈ es -> e ∈ es') -> client_synced es -> client_synced es'.
Proof. intros H (p & url & repo & task & ? & ?). exists p, url, repo, task. auto. Qed.

Lemma create_client_content_synced v h s0 es :
  create_client_content w org v h = (Ok s0, es) ->
  client_synced es /\ length (syncs es) = 1%nat.
Proof.
  unfold create_client_content. intros H. inv_ok H.
  injection Hrun as ? ?; subst. split; [|done].
  eexists _, _, _, _. split; elem_find.
Qed.

(** A turn of the loop that returns: the kickstart repository of its name
    was enabled, read and synced; under the discovery flavor that is its one
    sync, under another flavor the sync of the content repository is the
    second. *)
Lemma enable_and_sync_synced name s h s' es :
  enable_and_sync w psat org name s h = (Ok s', es) ->
  kickstart_synced name es /\
  (provisioning_type psat = "discovery" -> rh_repo_id s = None ->
   length (syncs es) = 1%nat /\ rh_repo_id s' = None) /\
  (provisioning_type psat <> "discovery" -> length (syncs es) = 2%nat).
Proof.
  unfold enable_and_sync. intros H.
  apply bind_inv_ok in H as (id & es1 & esA & Hks & H & ->).
  apply enable_kickstart_ok in Hks as [a ->].
  apply bind_inv_ok in H as (s1 & es2 & esB & Hct & H & ->).
  cbn [for_each] in H.
  apply bind_inv_ok in H as (s2 & es3 & esC & Hf & H & ->).
  apply sync_step_ok in Hf as (Hid2 & repo & task & cv' & u & -> & _).
  apply bind_inv_ok in H as (s3 & es4 & esD & Hg & H & ->).
  apply ret_inv in H as [[= ->] ->].
  apply sync_step_ok in Hg as (Hid3 & Hg).
  split; [|split].
  - exists a, id, repo, task. repeat split; elem_find.
  - intros Hd Hs. rewrite Hd, String.eqb_refl in Hct. cbn [negb] in Hct.
    apply ret_inv in Hct as [[= ->] ->]. rewrite Hs in Hg. destruct Hg as [-> ->].
    split; [done|]. by rewrite Hid2.
  - intros Hd%String.eqb_neq. rewrite Hd in Hct. cbn [negb] in Hct.
    apply bind_inv_ok in Hct as (id' & es5 & esE & Hct & Hr & ->).
    apply enable_content_ok in Hct as [a' ->].
    apply ret_inv in Hr as [[= ->] ->]. cbn [rh_repo_id] in Hg.
    destruct Hg as (repo' & task' & cv'' & u' & -> & _). done.
Qed.

Lemma for_each_synced names s h s' es :
  for_each names (enable_and_sync w psat org) s h = (Ok s', es) ->
  (forall name, name ∈ names -> kickstart_synced name es) /\
  (provisioning_type psat = "discovery" -> rh_repo_id s = None ->
   length (syncs es) = length names) /\
  (provisioning_type psat <> "discovery" ->
   length (syncs es) = (2 * length names)%nat).
Proof.
  revert s h es. induction names as [|name names IH]; intros s h es; cbn [for_each].
  - intros [= <- <-]. split; [by intros name ?%elem_of_nil | done].
  - intros (s1 & es1 & es2 & Hb & H & ->)%bind_inv_ok.
    apply enable_and_sync_synced in Hb as (Hk & Hd1 & Ho1).
    apply IH in H as (Hks & Hd2 & Ho2). split; [|split].
    + intros name' [->|Hin]%elem_of_cons.
      * eapply kickstart_synced_mono; [|exact Hk]. intros e ?. apply elem_of_app. auto.
      * eapply kickstart_synced_mono; [|exact (Hks _ Hin)].
        intros e ?. apply elem_of_app. auto.
    + intros Hd Hs. destruct (Hd1 Hd Hs) as [Hl Hid].
      rewrite syncs_app, length_app, Hl, (Hd2 Hd Hid). done.
    + intros Hd. rewrite syncs_app, length_app, (Ho1 Hd), (Ho2 Hd). simpl. lia.
Qed.

End Discovery.

(** C7: under the discovery flavor no content repository is enabled; every
    sync the fixture triggers is that of the custom client repository or of a
    repository read by the id a kickstart repository was enabled under; and
    none of these is left out: the sync of the client repository created is
    asked for, every id a kickstart repository was enabled under is read, and
    the sync of every repository read is asked for.  A run that got as far as
    waiting for a task, or that returns, has created the client repository
    and triggered its sync, and has enabled, read and triggered the sync of
    the kickstart repository of every vendor name.  Under the discovery
    flavor these are all its syncs, one more than there are vendor names.
    Under any other flavor it has also enabled the content repository of
    every vendor name, read it and triggered its sync, two syncs for every
    vendor name. *)
Theorem content_sync_by_flavor w psat org lce v h r es :
  module_provisioning_rhel_content w psat org lce v h = (r, es) ->
  (provisioning_type psat = "discovery" ->
   enabled Content es = [] /\ sync_provenance es /\ sync_follows es) /\
  (forall z, int w v = Ok z ->
     Exists is_wait es \/ (exists b, r = Ok b) ->
     client_synced es /\
     (forall name, name ∈ vendor_names v z -> kickstart_synced name es) /\
     (provisioning_type psat = "discovery" ->
      length (syncs es) = S (length (vendor_names v z))) /\
     (provisioning_type psat <> "discovery" ->
      map fst (enabled Content es) = vendor_names v z /\
      (forall name, name ∈ vendor_names v z -> content_synced name es) /\
      length (syncs es) = S (2 * length (vendor_names v z)))).
Proof.
  intros H%run_phases. unfold fixture_phases in H.
  destruct (int w v) as [z|e].
  2:{ destruct H as [-> ->]. split; [|by intros z' [=]].
      intros _. split; [done|].
      split; [by apply sync_provenance_no_sync | by apply sync_follows_nothing]. }
  pose proof (emits_create_client_quiet w org v h) as HqC.
  pose proof (emits_create_client_no_wait w org v h) as HwC.
  pose proof (create_client_content_provenance w org v h) as HpC.
  pose proof (create_client_content_follows w org v h) as HfC.
  destruct (create_client_content w org v h) as [rC esC] eqn:HC. simpl in HqC, HwC.
  specialize (HpC _ _ eq_refl). specialize (HfC _ _ eq_refl).
  pose proof (quiet_nil _ Content HqC) as [HeC _].
  assert (Hnw : forall l : Trace, Forall (fun e => ~ is_wait e) l -> ~ Exists is_wait l).
  { intros l Hl (e & Hin & He)%Exists_exists. rewrite Forall_forall in Hl.
    by apply (Hl e). }
  destruct H as [(e & -> & -> & ->)|(s0 & -> & H)].
  { split; [by intros _|]. intros z' _ [Hw|[b [=]]]. by destruct (Hnw _ HwC). }
  pose proof (create_client_content_synced w org _ _ _ _ HC) as [HcC HlC].
  apply create_client_content_ok in HC as [_ Hs0].
  pose proof (emits_enable_and_sync_no_wait w psat org (vendor_names v z) s0
                (h ++ esC)) as HwL.
  destruct (for_each (vendor_names v z) _ s0 (h ++ esC)) as [rL esL] eqn:HL.
  simpl in HwL.
  assert (Hquiet : forall es', Forall no_enable_no_read es' ->
            enabled Content (esC ++ esL ++ es') = enabled Content esL).
  { intros es' [He' _]%(quiet_nil _ Content). unfold enabled in *.
    by rewrite !omap_app, HeC, He', !app_nil_r. }
  assert (Hdisc : provisioning_type psat = "discovery" ->
            forall es', Forall no_enable_no_read es' -> Forall (fun e => ~ is_sync e) es' ->
            Forall hands_nothing_on es' ->
            enabled Content (esC ++ esL ++ es') = [] /\
            sync_provenance (esC ++ esL ++ es') /\
            sync_follows (esC ++ esL ++ es')).
  { intros Hd es' Hq Hns Hno.
    destruct (for_each_discovery w psat org _ _ _ _ _ Hd Hs0 HL) as [He Hp].
    pose proof (for_each_follows w psat org _ _ _ _ _ Hd Hs0 HL) as Hf.
    split; [|split].
    - by rewrite Hquiet.
    - auto using sync_provenance_app, sync_provenance_no_sync.
    - auto using sync_follows_app, sync_follows_nothing. }
  destruct H as [(e & -> & -> & ->)|(s1 & -> & H)].
  { split.
    - intros Hd. specialize (Hdisc Hd [] ltac:(done) ltac:(done) ltac:(done)).
      by rewrite app_nil_r in Hdisc.
    - intros z' _ [Hw|[b [=]]]. destruct (Hnw (esC ++ esL)); [by apply Forall_app | done]. }
  destruct (for_each_synced w psat org _ _ _ _ _ HL) as (Hks & Hld & Hlo).
  assert (Hdone : forall es', Forall no_enable_no_read es' ->
            Forall (fun e => ~ is_sync e) es' ->
            client_synced (esC ++ esL ++ es') /\
            (forall name, name ∈ vendor_names v z ->
                          kickstart_synced name (esC ++ esL ++ es')) /\
            (provisioning_type psat = "discovery" ->
             length (syncs (esC ++ esL ++ es')) = S (length (vendor_names v z))) /\
            (provisioning_type psat <> "discovery" ->
             map fst (enabled Content (esC ++ esL ++ es')) = vendor_names v z /\
             (forall name, name ∈ vendor_names v z ->
                           content_synced name (esC ++ esL ++ es')) /\
             length (syncs (esC ++ esL ++ es')) = S (2 * length (vendor_names v z)))).
  { intros es' Hq Hns.
    assert (Hlen : length (syncs (esC ++ esL ++ es')) = S (length (syncs esL))).
    { by rewrite !syncs_app, (syncs_none es' Hns), app_nil_r, length_app, HlC. }
    split; [|split; [|split]].
    - eapply client_synced_mono; [|exact HcC]. intros e ?. rewrite !elem_of_app. auto.
    - intros name Hin. eapply kickstart_synced_mono; [|exact (Hks _ Hin)].
      intros e ?. rewrite !elem_of_app. auto.
    - intros Hd. by rewrite Hlen, (Hld Hd Hs0).
    - intros Hd. rewrite (Hquiet es' Hq), Hlen, (Hlo Hd).
      destruct (for_each_content w psat org _ _ _ _ _ Hd HL) as [He Hc].
      split; [done|]. split; [|done].
      intros name Hin. eapply content_synced_mono; [|exact (Hc _ Hin)].
      intros e ?. rewrite !elem_of_app. auto. }
  pose proof (emits_wait_quiet w (tasks s1) ((h ++ esC) ++ esL)) as HqW.
  pose proof (emits_wait_no_sync w (tasks s1) ((h ++ esC) ++ esL)) as HnW.
  pose proof (emits_wait_nothing w (tasks s1) ((h ++ esC) ++ esL)) as HhW.
  destruct (for_each (tasks s1) _ tt _) as [rW esW] eqn:HW. simpl in HqW, HnW, HhW.
  destruct H as [(e & -> & -> & ->)|(-> & esP & HP & ->)].
  { split; [auto|]. intros z' [= <-] _. auto. }
  pose proof (emits_publish_quiet w org lce v s1 (((h ++ esC) ++ esL) ++ esW)) as HqP.
  pose proof (emits_publish_no_sync w org lce v s1 (((h ++ esC) ++ esL) ++ esW)) as HnP.
  pose proof (emits_publish_nothing w org lce v s1 (((h ++ esC) ++ esL) ++ esW)) as HhP.
  rewrite HP in HqP, HnP, HhP. simpl in HqP, HnP, HhP.
  split.
  - intros Hd. apply Hdisc; [done|..]; by apply Forall_app.
  - intros z' [= <-] _. apply Hdone; by apply Forall_app.
Qed.

Lemma content_sync_by_flavor_witness :
  let w := Demo.world Demo.all_success Demo.data_out (Demo.cmd_ok "") in
  let discovery := module_provisioning_rhel_content w (Demo.psat "discovery")
                     Demo.org Demo.lce (PyInt 8) [] in
  let other := module_provisioning_rhel_content w (Demo.psat "")
                 Demo.org Demo.lce (PyInt 8) [] in
  (enabled Content discovery.2 = [] /\ sync_provenance discovery.2 /\
   sync_follows discovery.2) /\
  (is_ok discovery.1 = true /\
   client_synced discovery.2 /\
   (forall name, name ∈ ["rhel8_bos"; "rhel8_aps"] -> kickstart_synced name discovery.2) /\
   length (syncs discovery.2) = 3%nat) /\
  (is_ok other.1 = true /\
   client_synced other.2 /\
   (forall name, name ∈ ["rhel8_bos"; "rhel8_aps"] -> kickstart_synced name other.2) /\
   map fst (enabled Content other.2) = ["rhel8_bos"; "rhel8_aps"] /\
   (forall name, name ∈ ["rhel8_bos"; "rhel8_aps"] -> content_synced name other.2) /\
   length (syncs other.2) = 5%nat).
Proof.
  intros w discovery other.
  destruct (content_sync_by_flavor w (Demo.psat "discovery") Demo.org Demo.lce
              (PyInt 8) [] discovery.1 discovery.2 (surjective_pairing _)) as [Hd1 Hd2].
  destruct (content_sync_by_flavor w (Demo.psat "") Demo.org Demo.lce
              (PyInt 8) [] other.1 other.2 (surjective_pairing _)) as [_ Ho2].
  split; [exact (Hd1 eq_refl)|]. split.
  - split; [by vm_compute|].
    destruct discovery.1 as [b|e] eqn:Hb; [|by vm_compute in Hb].
    destruct (Hd2 8 eq_refl (or_intror (ex_intro _ b eq_refl))) as (Hc & Hk & Hl & _).
    split; [exact Hc|]. split; [exact Hk|]. exact (Hl eq_refl).
  - split; [by vm_compute|].
    destruct other.1 as [b|e] eqn:Hb; [|by vm_compute in Hb].
    destruct (Ho2 8 eq_refl (or_intror (ex_intro _ b eq_refl))) as (Hc & Hk & _ & Hl).
    destruct (Hl ltac:(done)) as (He & Hcs & Hn).
    split; [exact Hc|]. split; [exact Hk|]. split; [exact He|]. split; [exact Hcs|].
    exact Hn.
Defined.

(** ** The operating system of the bundle *)

(** The key is the combined entry only at the integer 7. *)
Lemma rhel_xy_key_int z :
  rhel_xy_key (PyInt z) =
  if z =? 7 then "rhel" +:+ pretty z else "rhel" +:+ pretty z +:+ "_bos".
Proof. reflexivity. Qed.

Lemma rhel_xy_key_str s : rhel_xy_key (PyStr s) = "rhel" +:+ s +:+ "_bos".
Proof. reflexivity. Qed.

(** When no operating system matches, the fixture raises with a message
    that names the version. *)
Lemma operating_system_not_found w org lce v s h e xy :
  REPOS_kickstart w (rhel_xy_key v) = Some e ->
  Version w (ks_version e) = Ok xy ->
  operating_system_search w
    ("family=Redhat and major=" +:+ pretty (major xy) +:+ " and minor=" +:+
     pretty (minor xy)) h = Ok [] ->
  (publish_and_bind w org lce v s h).1 =
  Raise (AssertionError ("Operating system RHEL " +:+ version_str xy +:+ " was not found")).
Proof.
  intros He Hv Hs. unfold publish_and_bind, bind at 1, getitem.
  rewrite He. unfold ret, bind at 1, lift. rewrite Hv.
  unfold bind at 1, call. rewrite !app_nil_r, Hs. reflexivity.
Qed.

(** C4, at [rhel_version = 6]: the fixture enables the combined kickstart
    repository ['rhel6'], yet it reads the version of the operating system
    from the entry ['rhel6_bos'], since [6 == 7] is false; with the constants
    of the demo world, which have no such entry, the run ends in
    [KeyError].  The string ['7'] takes the same way. *)
Theorem kickstart_version_key_at_rhel6 :
  (forall w h, (repo_names w (PyInt 6) h).1 = Ok ["rhel6"]) /\
  rhel_xy_key (PyInt 6) = "rhel6_bos" /\
  rhel_xy_key (PyStr "7") = "rhel7_bos" /\
  (module_provisioning_rhel_content
     (Demo.world Demo.all_success Demo.data_out (Demo.cmd_ok ""))
     (Demo.psat "") Demo.org Demo.lce (PyInt 6) []).1 = Raise (KeyError "rhel6_bos").
Proof. repeat split; by vm_compute. Qed.


(** ** NetworkProvisioner *)

Lemma pop_snoc {A} (l : list A) a : pop (l ++ [a]) = Some (a, l).
Proof.
  induction l as [|x l IH]; [done|]. simpl. rewrite IH.
  by destruct l.
Qed.

Lemma getattr_box_ok {A} key (v : option A) a : Ok a = getattr_box key v -> v = Some a.
Proof. destruct v; [by intros [= ->] | done]. Qed.

Section NetworkProvisionerFacts.
Variable w : World.
Variable target : Satellite.
Variable org : Organization.
Variable loc : Location.
Variable cap : Capsule.

(** A run that reaches the creation of the Subnet has these four events,
    and the fields of the Subnet come from the broker output as follows. *)
Lemma module_provisioning_sat_subnet param h r es f rs :
  module_provisioning_sat w target org loc cap param h = (r, es) ->
  EvSubnetCreate f rs ∈ es ->
  exists alpha args d df dom addr net dns rest,
    es = [EvGenString alpha; EvBrokerExecute args (Ok d); EvDomainCreate df (Ok dom);
          EvSubnetCreate f rs] /\
    provisioning_addr_ipv4 d = Some addr /\
    ip_interface_network w addr = Ok net /\
    provisioning_upstream_dns d = Some dns /\
    pop_upstream_dns dns = Ok (dns_primary f, dns_secondary f, rest) /\
    provisioning_gw_ipv4 d = Some (gateway f) /\
    provisioning_host_range_start d = Some (from_ f) /\
    provisioning_host_range_end d = Some (to f) /\
    network f = network_address_str net /\
    mask f = netmask_str net.
Proof.
  unfold module_provisioning_sat. intros H Hin.
  inv_run H; elem_inv Hin;
    repeat match goal with
           | H : Ok _ = getattr_box _ _ |- _ => apply getattr_box_ok in H
           end;
    eexists _, _, _, _, _, _, _, _, _; simpl;
    (split; [reflexivity|]); eauto 12.
Qed.

(** The Subnet is created once the broker answered with all five keys, the
    descriptor and the DNS list are usable, and the Domain was created. *)
Lemma module_provisioning_sat_reaches_subnet param h r es args d df dom :
  module_provisioning_sat w target org loc cap param h = (r, es) ->
  EvBrokerExecute args (Ok d) ∈ es ->
  EvDomainCreate df (Ok dom) ∈ es ->
  is_Some (provisioning_gw_ipv4 d) ->
  is_Some (provisioning_host_range_start d) ->
  is_Some (provisioning_host_range_end d) ->
  exists f rs, EvSubnetCreate f rs ∈ es.
Proof.
  unfold module_provisioning_sat. intros H Hb Hd [gw Hgw] [st Hst] [en Hen].
  inv_run H; elem_inv Hb; elem_inv Hd;
    repeat match goal with
           | H : _ = getattr_box _ _ |- _ =>
               rewrite ?Hgw, ?Hst, ?Hen in H; simpl in H; try discriminate H
           end;
    eexists _, _; elem_find.
Qed.

End NetworkProvisionerFacts.

(** C10: the upstream DNS addresses are taken from the end of the list.
    With two or more addresses the primary is the last one, the secondary
    the one before it, and both are gone from the list; with a single
    address it is the primary, and there is no secondary.  The Subnet that
    [module_provisioning_sat] creates carries them. *)
Theorem upstream_dns_from_the_end :
  (forall l b a, pop_upstream_dns (l ++ [b; a]) = Ok (a, Some b, l)) /\
  (forall a, pop_upstream_dns [a] = Ok (a, None, [])) /\
  (forall w target org loc cap param h r es args d dns f rs,
      module_provisioning_sat w target org loc cap param h = (r, es) ->
      EvBrokerExecute args (Ok d) ∈ es ->
      provisioning_upstream_dns d = Some dns ->
      EvSubnetCreate f rs ∈ es ->
      (forall l b a, dns = l ++ [b; a] ->
                     dns_primary f = a /\ dns_secondary f = Some b) /\
      (forall a, dns = [a] -> dns_primary f = a /\ dns_secondary f = None)).
Proof.
  assert (H2 : forall l b a, pop_upstream_dns (l ++ [b; a]) = Ok (a, Some b, l)).
  { intros l b a. unfold pop_upstream_dns.
    change (l ++ [b; a]) with (l ++ [b] ++ [a]). rewrite app_assoc, pop_snoc.
    rewrite length_app. simpl.
    replace (0 <? Z.of_nat (length l + 1)) with true by (symmetry; apply Z.ltb_lt; lia).
    by rewrite pop_snoc. }
  split; [exact H2|]. split; [done|].
  intros w target org loc cap param h r es args d dns f rs Hrun Hb Hdns Hs.
  destruct (module_provisioning_sat_subnet _ _ _ _ _ _ _ _ _ _ _ Hrun Hs)
    as (alpha & args' & d' & df & dom & addr & net & dns' & rest & -> & _ & _ &
        Hdns' & Hpop & _).
  elem_inv Hb. rewrite Hdns in Hdns'. injection Hdns' as <-.
  split.
  - intros l b a ->. rewrite H2 in Hpop. by injection Hpop as <- <- _.
  - intros a ->. by injection Hpop as <- <- _.
Qed.

Lemma upstream_dns_from_the_end_witness :
  pop_upstream_dns (["1.1.1.1"] ++ ["8.8.4.4"; "8.8.8.8"])
  = Ok ("8.8.8.8", Some "8.8.4.4", ["1.1.1.1"]) /\
  exists f rs,
    EvSubnetCreate f rs ∈ (Demo.provisioning_sat_run Demo.data_out_three_dns).2 /\
    dns_primary f = "8.8.8.8" /\ dns_secondary f = Some "8.8.4.4".
Proof.
  destruct upstream_dns_from_the_end as (H2 & _ & Hrun).
  split; [apply H2|].
  assert (Hb : exists args, EvBrokerExecute args (Ok Demo.data_out_three_dns)
                            ∈ (Demo.provisioning_sat_run Demo.data_out_three_dns).2).
  { eexists. find_event. }
  assert (Hs : exists f rs,
             EvSubnetCreate f rs ∈ (Demo.provisioning_sat_run Demo.data_out_three_dns).2).
  { eexists _, _. find_event. }
  destruct Hb as (args & Hb). destruct Hs as (f & rs & Hs).
  exists f, rs. split; [exact Hs|].
  exact (proj1 (Hrun (Demo.world Demo.all_success Demo.data_out_three_dns (Demo.cmd_ok ""))
                  Demo.satellite Demo.org Demo.location Demo.capsule "" []
                  (Demo.provisioning_sat_run Demo.data_out_three_dns).1
                  (Demo.provisioning_sat_run Demo.data_out_three_dns).2
                  args Demo.data_out_three_dns ["1.1.1.1"; "8.8.4.4"; "8.8.8.8"] f rs
                  (surjective_pairing (Demo.provisioning_sat_run Demo.data_out_three_dns))
                  Hb eq_refl Hs)
           ["1.1.1.1"] "8.8.4.4" "8.8.8.8" eq_refl).
Defined.

(** C5: when the broker hands out the address ['10.0.0.5/24'] and the
    upstream DNS list [['8.8.8.8']], the Subnet that [module_provisioning_sat]
    creates has network ['10.0.0.0'], mask ['255.255.255.0'], primary DNS
    ['8.8.8.8'] and no secondary DNS; and it does create that Subnet when the
    broker output has the gateway and range keys and the Domain was created. *)
Theorem subnet_of_single_dns_scenario w target org loc cap param h r es args d :
  module_provisioning_sat w target org loc cap param h = (r, es) ->
  EvBrokerExecute args (Ok d) ∈ es ->
  provisioning_addr_ipv4 d = Some "10.0.0.5/24" ->
  provisioning_upstream_dns d = Some ["8.8.8.8"] ->
  (forall f rs, EvSubnetCreate f rs ∈ es ->
     network f = "10.0.0.0" /\ mask f = "255.255.255.0" /\
     dns_primary f = "8.8.8.8" /\ dns_secondary f = None) /\
  (forall df dom,
     EvDomainCreate df (Ok dom) ∈ es ->
     is_Some (provisioning_gw_ipv4 d) ->
     is_Some (provisioning_host_range_start d) ->
     is_Some (provisioning_host_range_end d) ->
     exists f rs, EvSubnetCreate f rs ∈ es).
Proof.
  intros Hrun Hb Haddr Hdns. split.
  - intros f rs Hs.
    destruct (module_provisioning_sat_subnet _ _ _ _ _ _ _ _ _ _ _ Hrun Hs)
      as (alpha & args' & d' & df & dom & addr & net & dns' & rest & -> & Haddr' & Hnet &
          Hdns' & Hpop & _ & _ & _ & -> & ->).
    elem_inv Hb. rewrite Haddr in Haddr'. injection Haddr' as <-.
    rewrite Hdns in Hdns'. injection Hdns' as <-.
    injection Hnet as <-. by injection Hpop as <- <- _.
  - intros df dom Hd. by eapply module_provisioning_sat_reaches_subnet.
Qed.

Lemma subnet_of_single_dns_scenario_witness :
  (exists args, EvBrokerExecute args (Ok Demo.data_out)
                ∈ (Demo.provisioning_sat_run Demo.data_out).2) /\
  exists f rs,
    EvSubnetCreate f rs ∈ (Demo.provisioning_sat_run Demo.data_out).2 /\
    network f = "10.0.0.0" /\ mask f = "255.255.255.0" /\
    dns_primary f = "8.8.8.8" /\ dns_secondary f = None.
Proof.
  assert (Hb : exists args, EvBrokerExecute args (Ok Demo.data_out)
                            ∈ (Demo.provisioning_sat_run Demo.data_out).2).
  { eexists. find_event. }
  assert (Hd : exists df dom, EvDomainCreate df (Ok dom)
                              ∈ (Demo.provisioning_sat_run Demo.data_out).2).
  { eexists _, _. find_event. }
  split; [exact Hb|]. destruct Hb as [args Hb]. destruct Hd as (df & dom & Hd).
  destruct (subnet_of_single_dns_scenario
              (Demo.world Demo.all_success Demo.data_out (Demo.cmd_ok ""))
              Demo.satellite Demo.org Demo.location Demo.capsule "" []
              (Demo.provisioning_sat_run Demo.data_out).1
              (Demo.provisioning_sat_run Demo.data_out).2 args Demo.data_out
              (surjective_pairing (Demo.provisioning_sat_run Demo.data_out))
              Hb eq_refl eq_refl) as [Hfields Hcreated].
  destruct (Hcreated df dom Hd) as (f & rs & Hs); [by eexists | by eexists | by eexists |].
  exists f, rs. split; [exact Hs|]. exact (Hfields f rs Hs).
Defined.

(** The fields of the Subnet that depend on the broker output. *)
Lemma subnet_fields_from_broker w target org loc cap param h r es args d f rs :
  module_provisioning_sat w target org loc cap param h = (r, es) ->
  EvBrokerExecute args (Ok d) ∈ es ->
  EvSubnetCreate f rs ∈ es ->
  exists addr net dns rest,
    provisioning_addr_ipv4 d = Some addr /\
    ip_interface_network w addr = Ok net /\
    provisioning_upstream_dns d = Some dns /\
    pop_upstream_dns dns = Ok (dns_primary f, dns_secondary f, rest) /\
    provisioning_gw_ipv4 d = Some (gateway f) /\
    provisioning_host_range_start d = Some (from_ f) /\
    provisioning_host_range_end d = Some (to f) /\
    network f = network_address_str net /\
    mask f = netmask_str net.
Proof.
  intros Hrun Hb Hs.
  destruct (module_provisioning_sat_subnet _ _ _ _ _ _ _ _ _ _ _ Hrun Hs)
    as (alpha & args' & d' & df & dom & addr & net & dns & rest & -> & H).
  elem_inv Hb. exists addr, net, dns, rest. exact H.
Qed.

(** C3, as amended: the Subnet that [module_provisioning_sat] creates takes
    its DHCP range from the broker output unchanged, [from_] from
    [provisioning_host_range_start] and [to] from [provisioning_host_range_end];
    so the range lies in the network derived from the address and prefix
    whenever the range the broker supplied does.  Its secondary DNS is absent
    when exactly one upstream DNS address was supplied. *)
Theorem subnet_range_is_broker_range w target org loc cap param h r es args d f rs :
  module_provisioning_sat w target org loc cap param h = (r, es) ->
  EvBrokerExecute args (Ok d) ∈ es ->
  EvSubnetCreate f rs ∈ es ->
  provisioning_host_range_start d = Some (from_ f) /\
  provisioning_host_range_end d = Some (to f) /\
  (exists addr net,
      provisioning_addr_ipv4 d = Some addr /\
      ip_interface_network w addr = Ok net /\
      network f = network_address_str net /\
      mask f = netmask_str net /\
      forall range_start range_end,
        provisioning_host_range_start d = Some range_start ->
        provisioning_host_range_end d = Some range_end ->
        in_network net range_start = true ->
        in_network net range_end = true ->
        in_network net (from_ f) = true /\ in_network net (to f) = true) /\
  (forall a, provisioning_upstream_dns d = Some [a] ->
             dns_primary f = a /\ dns_secondary f = None).
Proof.
  intros Hrun Hb Hs.
  destruct (subnet_fields_from_broker _ _ _ _ _ _ _ _ _ _ _ _ _ Hrun Hb Hs)
    as (addr & net & dns & rest & Haddr & Hnet & Hdns & Hpop & _ & Hst & Hen & Hn & Hm).
  split; [done|]. split; [done|]. split.
  - exists addr, net. do 4 (split; [done|]).
    intros range_start range_end Hs' He' Hin1 Hin2.
    rewrite Hst in Hs'. rewrite Hen in He'.
    injection Hs' as <-. injection He' as <-. done.
  - intros a Ha. rewrite Hdns in Ha. injection Ha as ->.
    by injection Hpop as <- <- _.
Qed.

Lemma subnet_range_is_broker_range_witness :
  exists f rs,
    EvSubnetCreate f rs ∈ (Demo.provisioning_sat_run Demo.data_out).2 /\
    from_ f = "10.0.0.100" /\ to f = "10.0.0.200" /\
    network f = "10.0.0.0" /\ mask f = "255.255.255.0" /\
    dns_primary f = "8.8.8.8" /\ dns_secondary f = None.
Proof.
  assert (Hb : exists args, EvBrokerExecute args (Ok Demo.data_out)
                            ∈ (Demo.provisioning_sat_run Demo.data_out).2).
  { eexists. find_event. }
  assert (Hs : exists f rs,
             EvSubnetCreate f rs ∈ (Demo.provisioning_sat_run Demo.data_out).2).
  { eexists _, _. find_event. }
  destruct Hb as [args Hb]. destruct Hs as (f & rs & Hs).
  destruct (subnet_range_is_broker_range
              (Demo.world Demo.all_success Demo.data_out (Demo.cmd_ok ""))
              Demo.satellite Demo.org Demo.location Demo.capsule "" []
              (Demo.provisioning_sat_run Demo.data_out).1
              (Demo.provisioning_sat_run Demo.data_out).2 args Demo.data_out f rs
              (surjective_pairing (Demo.provisioning_sat_run Demo.data_out)) Hb Hs)
    as (Hst & Hen & (addr & net & Haddr & Hnet & Hn & Hm & _) & Hdns).
  exists f, rs. split; [exact Hs|].
  injection Hst as <-. injection Hen as <-. injection Haddr as <-.
  injection Hnet as <-. destruct (Hdns "8.8.8.8" eq_refl) as [-> ->].
  rewrite Hn, Hm. repeat split.
Defined.

(** C3, as stated, fails: the broker output below is well formed, with the
    address 10.0.0.5/24 and one upstream DNS address, but a host range in
    192.168.1.0/24; the Subnet is created with that range, outside the
    network 10.0.0.0/24 that the address and prefix give. *)
Lemma dhcp_range_outside_derived_network :
  exists i f rs,
    ipaddress.IPv4Interface_of_string "10.0.0.5/24" = Some i /\
    EvSubnetCreate f rs ∈ (Demo.provisioning_sat_run Demo.data_out_foreign_range).2 /\
    network f = ipaddress.string_from_ip_int (ipaddress.network_address i) /\
    from_ f = "192.168.1.10" /\ to f = "192.168.1.20" /\
    in_network (V4 i) (from_ f) = false /\
    in_network (V4 i) (to f) = false.
Proof.
  eexists _, _, _. split; [reflexivity|]. split; [find_event|]. by vm_compute.
Qed.

(** ** EphemeralHostManager *)

Section EphemeralHostManagerFacts.
Variable w : World.
Variable key : string.
Variable pxe : PxeLoader.

(** The events of the teardown of [provisioning_host]: the restart of
    dhcpd, then the check-in. *)
Lemma provisioning_host_teardown_events psat c h :
  exists r c' r',
    (provisioning_host_teardown w psat c h).2 =
      [EvExecute (sat_hostname (sat psat)) "systemctl restart dhcpd" r;
       EvBrokerCheckin c' r'] /\
    match c with
    | One host =>
        c' = One host \/
        (c' = One (keep_blank host) /\ exists res, r = Ok res /\ status res = 0)
    | Many _ => c' = c
    end /\
    (forall host res, c = One host -> r = Ok res -> status res = 0 ->
                      c' = One (keep_blank host)).
Proof.
  unfold provisioning_host_teardown, with_exit, provisioning_host_after_yield,
    bind, call, assert.
  destruct (execute w _ _ h) as [res|e]; simpl.
  - destruct (status res =? 0) eqn:Hst; simpl.
    + destruct c as [host|l]; simpl.
      * destruct (broker_checkin w _ _); simpl; eexists _, _, _;
          (split; [reflexivity|]); (split; [right; split; [done|]; eexists; split;
             [done | by apply Z.eqb_eq] | by intros ? ? [= <-]]).
      * destruct (broker_checkin w _ _); simpl; eexists _, _, _;
          (split; [reflexivity|]); by split.
    + destruct (broker_checkin w _ _); simpl; eexists _, _, _;
        (split; [reflexivity|]);
        (split; [destruct c; auto|]);
        intros host res' -> [= <-] Hz; apply Z.eqb_neq in Hst; done.
  - destruct (broker_checkin w _ _); simpl; eexists _, _, _;
      (split; [reflexivity|]); (split; [destruct c; auto | done]).
Qed.

(** The events of the teardown of [provision_multiple_hosts]: the check-in
    alone. *)
Lemma provision_multiple_hosts_teardown_events c h :
  exists r',
    (provision_multiple_hosts_teardown w c h).2 =
      [EvBrokerCheckin
         match c with Many l => Many (map keep_blank l) | One _ => c end r'].
Proof.
  unfold provision_multiple_hosts_teardown, with_exit,
    provision_multiple_hosts_after_yield, call.
  destruct c as [host|l]; simpl; destruct (broker_checkin w _ _); simpl; eauto.
Qed.

End EphemeralHostManagerFacts.

(** C6: whatever the test body did and whether it passed or failed, the
    rest of [provisioning_host] first restarts dhcpd on the Satellite and then
    checks the host in; the rest of [provision_multiple_hosts] only checks
    the hosts in and runs no command at all. *)
Theorem dhcpd_restart_only_after_single_host w key pxe psat (test : TestBody) h :
  (forall c es outcome c' es_test,
      provisioning_host_setup w key pxe h = (Ok c, es) ->
      test c (h ++ es) = (outcome, c', es_test) ->
      exists r c'' r',
        pytest_run (provisioning_host_setup w key pxe) test
          (provisioning_host_teardown w psat) h =
        (es, es_test,
         [EvExecute (sat_hostname (sat psat)) "systemctl restart dhcpd" r;
          EvBrokerCheckin c'' r'])) /\
  (forall param c es outcome c' es_test,
      provision_multiple_hosts_setup w key pxe param h = (Ok c, es) ->
      test c (h ++ es) = (outcome, c', es_test) ->
      exists c'' r' es_down,
        pytest_run (provision_multiple_hosts_setup w key pxe param) test
          (provision_multiple_hosts_teardown w) h = (es, es_test, es_down) /\
        es_down = [EvBrokerCheckin c'' r'] /\
        Forall (fun e => ~ is_execute e) es_down).
Proof.
  split.
  - intros c es outcome c' es_test Hs Ht. unfold pytest_run. rewrite Hs, Ht.
    destruct (provisioning_host_teardown_events w psat c' (h ++ es ++ es_test))
      as (r & c'' & r' & -> & _). eauto.
  - intros param c es outcome c' es_test Hs Ht. unfold pytest_run. rewrite Hs, Ht.
    destruct (provision_multiple_hosts_teardown_events w c' (h ++ es ++ es_test))
      as (r' & ->). eexists _, _, _. split; [reflexivity|]. split; [reflexivity|].
    repeat constructor. by intros [].
Qed.

Lemma dhcpd_restart_only_after_single_host_witness :
  let w := Demo.world Demo.all_success Demo.data_out (Demo.cmd_ok "") in
  (exists es r c'' r',
      pytest_run (provisioning_host_setup w "id_rsa" Demo.pxe) failing_test
        (provisioning_host_teardown w (Demo.psat "")) [] =
      (es, [],
       [EvExecute "sat.example.com" "systemctl restart dhcpd" r;
        EvBrokerCheckin c'' r'])) /\
  (exists es c'' r' es_down,
      pytest_run (provision_multiple_hosts_setup w "id_rsa" Demo.pxe (PyInt 2))
        failing_test (provision_multiple_hosts_teardown w) [] = (es, [], es_down) /\
      es_down = [EvBrokerCheckin c'' r'] /\
      Forall (fun e => ~ is_execute e) es_down).
Proof.
  intros w.
  destruct (dhcpd_restart_only_after_single_host w "id_rsa" Demo.pxe (Demo.psat "")
              failing_test []) as [H1 H2].
  split.
  - eexists. eapply H1; reflexivity.
  - eexists. eapply (H2 (PyInt 2)); reflexivity.
Defined.

(** ** The blank flag at teardown *)

Lemma keep_blank_set host v : attrs host !! "blank" = Some v -> keep_blank host = host.
Proof.
  intros H. unfold keep_blank, getattr_blank, setattr_blank. rewrite H. simpl.
  rewrite insert_id by done. by destruct host.
Qed.

Lemma keep_blank_missing host :
  attrs host !! "blank" = None ->
  attrs (keep_blank host) = <["blank" := PyBool false]> (attrs host).
Proof. intros H. unfold keep_blank, getattr_blank, setattr_blank. by rewrite H. Qed.

Lemma keep_blank_other host k :
  k <> "blank" -> attrs (keep_blank host) !! k = attrs host !! k.
Proof. intros H. unfold keep_blank, setattr_blank. simpl. by rewrite lookup_insert_ne. Qed.

(** C9: the teardown assigns [blank = getattr(host, 'blank', False)].  A
    host whose [blank] attribute is set is checked in as the test left it,
    by [provisioning_host] and by [provision_multiple_hosts] alike; a host
    without the attribute gets [blank = False] and keeps its other
    attributes.  In [provisioning_host] the assignment comes after the
    assertion on the restart of dhcpd, so it is reached when the restart
    returned status 0. *)
Theorem teardown_keeps_blank w psat h :
  (forall host v c r',
      attrs host !! "blank" = Some v ->
      EvBrokerCheckin c r' ∈ (provisioning_host_teardown w psat (One host) h).2 ->
      c = One host) /\
  (forall l c r',
      EvBrokerCheckin c r' ∈ (provision_multiple_hosts_teardown w (Many l) h).2 ->
      c = Many (map keep_blank l)) /\
  (forall host c r' res,
      EvExecute (sat_hostname (sat psat)) "systemctl restart dhcpd" (Ok res)
        ∈ (provisioning_host_teardown w psat (One host) h).2 ->
      status res = 0 ->
      EvBrokerCheckin c r' ∈ (provisioning_host_teardown w psat (One host) h).2 ->
      c = One (keep_blank host)) /\
  (forall host,
      (forall v, attrs host !! "blank" = Some v ->
                 keep_blank host = host /\ attrs (keep_blank host) !! "blank" = Some v) /\
      (attrs host !! "blank" = None ->
       attrs (keep_blank host) !! "blank" = Some (PyBool false)) /\
      (forall k, k <> "blank" -> attrs (keep_blank host) !! k = attrs host !! k)).
Proof.
  split; [|split; [|split]].
  - intros host v c r' Hv Hin.
    destruct (provisioning_host_teardown_events w psat (One host) h)
      as (r & c' & r'' & Hes & Hc & _). rewrite Hes in Hin. elem_inv Hin.
    destruct Hc as [->|[-> _]]; [done|]. by rewrite (keep_blank_set _ _ Hv).
  - intros l c r' Hin.
    destruct (provision_multiple_hosts_teardown_events w (Many l) h) as (r & Hes).
    rewrite Hes in Hin. by elem_inv Hin.
  - intros host c r' res Hex Hst Hin.
    destruct (provisioning_host_teardown_events w psat (One host) h)
      as (r & c' & r'' & Hes & _ & Hc). rewrite Hes in Hex, Hin.
    elem_inv Hex. elem_inv Hin. by eapply Hc.
  - intros host. split; [|split].
    + intros v Hv. rewrite (keep_blank_set _ _ Hv). done.
    + intros Hn. rewrite (keep_blank_missing _ Hn). apply lookup_insert_eq.
    + intros k. apply keep_blank_other.
Qed.

Lemma teardown_keeps_blank_witness :
  let w := Demo.world Demo.all_success Demo.data_out (Demo.cmd_ok "") in
  let blank_host := Demo.host "vm1" {[ "blank" := PyBool true ]} in
  let bare_host := Demo.host "vm2" ∅ in
  (exists c r',
      EvBrokerCheckin c r'
        ∈ (provisioning_host_teardown w (Demo.psat "") (One blank_host) []).2 /\
      c = One blank_host) /\
  (exists c r',
      EvBrokerCheckin c r'
        ∈ (provision_multiple_hosts_teardown w (Many [blank_host; bare_host]) []).2 /\
      c = Many [keep_blank blank_host; keep_blank bare_host]) /\
  keep_blank blank_host = blank_host /\
  attrs (keep_blank bare_host) !! "blank" = Some (PyBool false).
Proof.
  intros w blank_host bare_host.
  destruct (teardown_keeps_blank w (Demo.psat "") []) as (H1 & H2 & _ & H4).
  assert (Hb : attrs blank_host !! "blank" = Some (PyBool true)) by reflexivity.
  assert (Hn : attrs bare_host !! "blank" = None) by reflexivity.
  split; [|split; [|split]].
  - assert (Hin : exists c r',
               EvBrokerCheckin c r'
                 ∈ (provisioning_host_teardown w (Demo.psat "") (One blank_host) []).2).
    { eexists _, _. find_event. }
    destruct Hin as (c & r' & Hin). exists c, r'. split; [exact Hin|].
    exact (H1 blank_host (PyBool true) c r' Hb Hin).
  - assert (Hin : exists c r',
               EvBrokerCheckin c r'
                 ∈ (provision_multiple_hosts_teardown w
                      (Many [blank_host; bare_host]) []).2).
    { eexists _, _. find_event. }
    destruct Hin as (c & r' & Hin). exists c, r'. split; [exact Hin|].
    exact (H2 [blank_host; bare_host] c r' Hin).
  - exact (proj1 (proj1 (H4 blank_host) (PyBool true) Hb)).
  - exact (proj1 (proj2 (H4 bare_host)) Hn).
Defined.

(** ** DiscoveryImageManager *)

Section Pattern.
Import re PatternSpec.
#[local] Arguments is_whitespace : simpl never.

Lemma findall_head s : head (findall s) = scan s.
Proof.
  unfold findall. induction s as [|c s IH]; [done|].
  cbn [findall_from scan]. destruct (match_here (String c s)); [done | exact IH].
Qed.

Lemma append_cons c x y : String c x +:+ y = String c (x +:+ y).
Proof. reflexivity. Qed.

Lemma append_nil y : EmptyString +:+ y = y.
Proof. reflexivity. Qed.

Lemma append_assoc x y z : (x +:+ y) +:+ z = x +:+ y +:+ z.
Proof. induction x as [|c x IH]; [done|]. by rewrite !append_cons, IH. Qed.

Lemma strip_prefix_spec p s rest : strip_prefix p s = Some rest <-> s = p +:+ rest.
Proof.
  revert s. induction p as [|a p IH]; intros s; rewrite ?append_nil, ?append_cons; simpl.
  - split; [by intros [= ->] | by intros ->].
  - destruct s as [|b s]; [by split|].
    destruct (Ascii.eqb_spec a b) as [->|Hne].
    + rewrite IH. split; [by intros -> | by intros [= ->]].
    + split; [done | by intros [= ? ?]].
Qed.

Lemma nonspace_run_spec s :
  exists post,
    s = nonspace_run s +:+ post /\
    all_nonspace (nonspace_run s) = true /\ ends_run post = true.
Proof.
  induction s as [|c s (post & Hs & Ha & He)]; simpl.
  - by exists EmptyString.
  - destruct (is_whitespace c) eqn:Hc; simpl.
    + exists (String c s). by repeat split.
    + exists post. rewrite Hc, Ha, append_cons, <- Hs. done.
Qed.

Lemma match_here_some s m :
  match_here s = Some m -> match_at s EmptyString m /\ match_starts s EmptyString.
Proof.
  unfold match_here. destruct (strip_prefix literal s) as [rest|] eqn:Hp; [|done].
  apply strip_prefix_spec in Hp as ->.
  destruct (nonspace_run_spec rest) as (post & Hrest & Ha & He).
  destruct (nonspace_run rest) as [|c suffix] eqn:Hrun; [done|]. intros [= <-].
  split.
  - exists (String c suffix), post. rewrite append_nil, append_assoc, <- Hrest.
    by repeat split.
  - destruct rest as [|c' rest']; [done|]. simpl in Hrun.
    destruct (is_whitespace c') eqn:Hc; [done|]. by exists c', rest'.
Qed.

Lemma match_here_none s : match_here s = None -> ~ match_starts s EmptyString.
Proof.
  unfold match_here. intros H (c & rest & -> & Hc). rewrite append_nil in H.
  destruct (strip_prefix literal _) as [rest'|] eqn:Hp.
  - apply strip_prefix_spec, (inj (String.append literal)) in Hp as <-.
    simpl in H. by rewrite Hc in H.
  - assert (Hs : strip_prefix literal (literal +:+ String c rest)
                 = Some (String c rest)) by by apply strip_prefix_spec.
    by rewrite Hp in Hs.
Qed.

Lemma match_starts_cons c s pre :
  match_starts (String c s) pre ->
  pre = EmptyString \/ exists pre', pre = String c pre' /\ match_starts s pre'.
Proof.
  intros (c' & rest & Hs & Hc). destruct pre as [|a pre']; [by left|]. right.
  rewrite append_cons in Hs. injection Hs as <- ->.
  exists pre'. split; [done|]. by exists c', rest.
Qed.

Lemma scan_some s m : scan s = Some m -> first_match s m.
Proof.
  revert m. induction s as [|c s IH]; intros m; [done|]. cbn [scan].
  destruct (match_here (String c s)) as [m'|] eqn:Hm.
  - intros [= <-]. apply match_here_some in Hm as [Hm _].
    exists EmptyString. split; [done|]. intros pre' _. simpl. lia.
  - intros (pre & (suffix & post & Hs & Hmm & Hr & Ha & He) & Hfirst)%IH.
    exists (String c pre). split.
    + exists suffix, post. rewrite append_cons, <- Hs. done.
    + intros pre' Hst'.
      destruct (match_starts_cons _ _ _ Hst') as [->|(pre'' & -> & Hst)].
      * by destruct (match_here_none _ Hm).
      * simpl. specialize (Hfirst _ Hst). lia.
Qed.

Lemma scan_none s : scan s = None -> forall pre, ~ match_starts s pre.
Proof.
  induction s as [|c s IH]; cbn [scan].
  - intros _ pre (c & rest & Hs & _). by destruct pre.
  - destruct (match_here (String c s)) eqn:Hm; [done|].
    intros Hn pre Hst'.
    destruct (match_starts_cons _ _ _ Hst') as [->|(pre' & -> & Hst)].
    + by destruct (match_here_none _ Hm).
    + by apply (IH Hn pre').
Qed.

End Pattern.

Lemma extract_fdi_cases stdout_text h :
  (exists m, extract_fdi stdout_text h = (Ok m, []) /\
             PatternSpec.first_match stdout_text m /\
             exists pre, PatternSpec.match_starts stdout_text pre) \/
  (extract_fdi stdout_text h = (Raise IndexError, []) /\
   forall pre, ~ PatternSpec.match_starts stdout_text pre).
Proof.
  unfold extract_fdi. pose proof (findall_head stdout_text) as Hh.
  destruct (re.scan stdout_text) as [m|] eqn:Hs.
  - left. apply scan_some in Hs. destruct (re.findall stdout_text) as [|m' l]; [done|].
    injection Hh as ->. exists m. split; [done|]. split; [done|].
    destruct Hs as (pre & (suffix & post & -> & -> & Hr & Ha & He) & _).
    destruct suffix as [|c suffix]; [done|]. simpl in Ha.
    apply andb_true_iff in Ha as [Hc%negb_true_iff _].
    exists pre, c, (suffix +:+ post). split; [|done]. by rewrite !append_assoc.
  - right. pose proof (scan_none _ Hs) as Hno.
    by destruct (re.findall stdout_text).
Qed.

(** C8: [pattern.findall(result.stdout)[0]].  When the output has the
    literal [foreman-discovery-image] followed by a non-whitespace character
    somewhere, the file name extracted is the first match: the literal with
    the longest run of non-whitespace characters after it, at the leftmost
    place where a match starts.  When the output has no such place, the
    extraction raises (IndexError), and [pxeless_discovery_host] raises with
    it before it asks the broker for anything; the image it imports otherwise
    is the first match. *)
Theorem extract_fdi_first_match :
  (forall stdout_text h,
      (exists pre, PatternSpec.match_starts stdout_text pre) ->
      exists m, extract_fdi stdout_text h = (Ok m, []) /\
                PatternSpec.first_match stdout_text m) /\
  (forall stdout_text h,
      (forall pre, ~ PatternSpec.match_starts stdout_text pre) ->
      extract_fdi stdout_text h = (Raise IndexError, [])) /\
  (forall w dsat pxe provisioning_host h r es hostname cmd res,
      pxeless_discovery_host_setup w dsat pxe provisioning_host h = (r, es) ->
      EvExecute hostname cmd (Ok res) ∈ es ->
      ((forall pre, ~ PatternSpec.match_starts (stdout res) pre) ->
       r = Raise IndexError /\ Forall (fun e => ~ is_broker_execute e) es) /\
      (forall args rr url,
          EvBrokerExecute args rr ∈ es ->
          ("import_disk_image_url", url) ∈ args ->
          exists m, PatternSpec.first_match (stdout res) m /\
                    url = "https://" +:+ sat_hostname (d_sat dsat) +:+ "/pub/" +:+ m)).
Proof.
  split; [|split].
  - intros s h Hex. destruct (extract_fdi_cases s h) as [(m & ? & ? & _)|[_ Hno]]; [eauto|].
    destruct Hex as [pre Hpre]. by destruct (Hno pre).
  - intros s h Hno. destruct (extract_fdi_cases s h) as [(m & _ & _ & pre & Hpre)|[? _]];
      [by destruct (Hno pre) | done].
  - intros w dsat pxe host h r es hostname cmd res Hrun Hex.
    unfold pxeless_discovery_host_setup in Hrun.
    apply bind_inv in Hrun as [(e & Hg & ->)|(alpha & esA & esB & Hg & Hrun & ->)];
      inv_run Hg; try (by elem_inv Hex).
    apply bind_inv in Hrun as [(e & Hg & ->)|(mac & esC & esD & Hg & Hrun & ->)];
      inv_run Hg; try (by elem_inv Hex).
    apply bind_inv in Hrun as [(e & Hg & ->)|(res' & esE & esF & Hg & Hrun & ->)];
      inv_run Hg; try (by elem_inv Hex).
    apply bind_inv in Hrun as [(e & Hf & ->)|(fdi & esG & esH & Hf & Hrun & ->)].
    + match type of Hf with extract_fdi _ ?h' = _ =>
        destruct (extract_fdi_cases (stdout res') h') as [(m & Hm & _)|[Hm Hno]]
      end; rewrite Hm in Hf; [done|]. injection Hf as <- <-.
      elem_inv Hex. split.
      * intros _. split; [done|]. repeat constructor; by intros [].
      * intros args rr url Hin. elem_inv Hin.
    + match type of Hf with extract_fdi _ ?h' = _ =>
        destruct (extract_fdi_cases (stdout res') h')
          as [(m & Hm & Hfirst & pre & Hpre)|[Hm _]]
      end; rewrite Hm in Hf; [|done]. injection Hf as <- <-.
      inv_run Hrun; elem_inv Hex;
        (split; [intros Hno; by destruct (Hno pre)|]);
        intros args rr url Hin Hurl; elem_inv Hin; elem_inv Hurl; eauto.
Qed.

Lemma extract_fdi_first_match_witness :
  (exists m,
      extract_fdi "Created foreman-discovery-image-3.8.2.iso in /var/www/html/pub" []
      = (Ok m, []) /\
      m = "foreman-discovery-image-3.8.2.iso" /\
      PatternSpec.first_match
        "Created foreman-discovery-image-3.8.2.iso in /var/www/html/pub" m) /\
  extract_fdi "discovery-remaster: command not found" [] = (Raise IndexError, []).
Proof.
  destruct extract_fdi_first_match as (H1 & H2 & _). split.
  - destruct (H1 "Created foreman-discovery-image-3.8.2.iso in /var/www/html/pub" [])
      as (m & Hm & Hf).
    { exists "Created ", "-"%char, "3.8.2.iso in /var/www/html/pub". by split. }
    exists m. split; [exact Hm|]. split; [|exact Hf].
    vm_compute in Hm. by injection Hm as <-.
  - apply H2. by apply scan_none.
Defined.

(** * Further properties *)

(** ** ContentPipeline: what the loops keep *)

(** Takes any run apart, case by case, also through assertions and
    subscripts. *)
Ltac inv_any H :=
  lazy beta in H;
  lazymatch type of H with
  | bind _ _ _ = (_, _) =>
      let H1 := fresh "Hrun" in let H2 := fresh "Hrun" in
      apply bind_inv in H as [(? & H1 & ?)|(? & ? & ? & H1 & H2 & ->)];
      [simplify_eq; inv_any H1 | inv_any H1; inv_any H2]
  | ret _ _ = (_, _) => apply ret_inv in H as [? ?]; simplify_eq
  | raise _ _ = (_, _) => injection H as ? ?; simplify_eq
  | gen_alpha _ _ = (_, _) => injection H as ? ?; simplify_eq
  | lift _ _ = (_, _) => apply lift_inv in H as [? ?]; simplify_eq
  | call _ _ _ = (_, _) => apply call_inv in H as [? ?]; simplify_eq
  | getitem ?d ?k _ = (_, _) =>
      unfold getitem in H; destruct (d k) eqn:?; inv_any H
  | first ?l _ = (_, _) => unfold first in H; destruct l eqn:?; inv_any H
  | assert ?c _ _ = (_, _) => unfold assert in H; destruct c eqn:?; inv_any H
  | match ?x with _ => _ end _ = (_, _) => is_var x; destruct x; inv_any H
  | _ => idtac
  end.

(** Replaces the trace of a closed run by its value. *)
Ltac eval_trace tr :=
  let t := eval vm_compute in tr in
  replace tr with t by (vm_compute; reflexivity).

Section ContentPipelineLocals.
Variable w : World.
Variable psat : ProvisioningSat.
Variable org : Organization.
Variable lce : LifecycleEnvironment.

Lemma attached_refl s : attached s s [].
Proof. unfold attached. by rewrite !app_nil_r. Qed.

Lemma attached_trans s1 s2 s3 es1 es2 :
  attached s1 s2 es1 -> attached s2 s3 es2 -> attached s1 s3 (es1 ++ es2).
Proof.
  unfold attached, sync_tasks, repositories_read.
  intros (-> & -> & -> & -> & -> & Hl1) (-> & -> & -> & -> & -> & Hl2).
  rewrite !omap_app, !app_assoc, !length_app, Hl1, Hl2. done.
Qed.

Lemma sync_step_attached oid s h s' es :
  sync_step w oid s h = (Ok s', es) -> attached s s' es.
Proof.
  destruct oid as [id|]; unfold sync_step; intros H; inv_ok H.
  - by repeat split.
  - apply attached_refl.
Qed.

Lemma enable_and_sync_attached name s h s' es :
  enable_and_sync w psat org name s h = (Ok s', es) -> attached s s' es.
Proof.
  unfold enable_and_sync. cbn [for_each]. intros H.
  apply bind_inv_ok in H as (id & es1 & esA & Hks & H & ->).
  apply enable_kickstart_ok in Hks as [a ->].
  apply bind_inv_ok in H as (s1 & es2 & esB & Hct & H & ->).
  assert (Hs1 : attached s s1 es2).
  { destruct (negb _); inv_ok Hct; [|apply attached_refl].
    apply enable_content_ok in Hrun as [a' ->]. by repeat split; rewrite ?app_nil_r. }
  apply bind_inv_ok in H as (s2 & es3 & esC & Hf & H & ->).
  apply sync_step_attached in Hf.
  apply bind_inv_ok in H as (s3 & es4 & esD & Hg & H & ->).
  apply sync_step_attached in Hg. apply ret_inv in H as [[= ->] ->].
  apply (attached_trans s s _ [_]); [by repeat split; rewrite ?app_nil_r|].
  eapply attached_trans; [exact Hs1|]. eapply attached_trans; [exact Hf|].
  rewrite app_nil_r. exact Hg.
Qed.

Lemma for_each_attached names s h s' es :
  for_each names (enable_and_sync w psat org) s h = (Ok s', es) -> attached s s' es.
Proof.
  revert s h es. induction names as [|name names IH]; intros s h es; cbn [for_each].
  - intros [= <- <-]. apply attached_refl.
  - intros (s1 & es1 & es2 & Hb & H & ->)%bind_inv_ok.
    eapply attached_trans; [by eapply enable_and_sync_attached | by eapply IH].
Qed.

(** What the first phase leaves: one task, the client repository attached. *)
Lemma create_client_content_locals v h s0 es :
  create_client_content w org v h = (Ok s0, es) ->
  exists client,
    repositories_created es = [client] /\
    tasks s0 = sync_tasks es /\
    length (tasks s0) = 1%nat /\
    rh_repos s0 = [] /\
    repositories_read es = [] /\
    repository (content_view s0) = [client].
Proof.
  unfold create_client_content. intros H. inv_ok H.
  injection Hrun as _ <-. simpl. eauto 10.
Qed.

(** A wait loop that returns has polled every task of its list to success. *)
Lemma wait_loop_polled l h u es :
  for_each l (wait_sync w) tt h = (Ok u, es) ->
  forall t, t ∈ l ->
    exists st, EvPoll (task_id t) (Ok st) ∈ es /\ result st = "success".
Proof.
  revert h es. induction l as [|t0 l IH]; intros h es; cbn [for_each].
  - intros _ t Hin. by apply elem_of_nil in Hin.
  - intros ([] & es1 & es2 & Hb & H & ->)%bind_inv_ok t Hin.
    apply elem_of_cons in Hin as [->|Hin].
    + unfold wait_sync in Hb. inv_ok Hb.
      match goal with Hs : String.eqb _ _ = true |- _ => apply String.eqb_eq in Hs end.
      eexists. split; [elem_find | eassumption].
    + destruct (IH _ _ H t Hin) as (st & Hst & Hr). exists st. split; [|done].
      apply elem_of_app. by right.
Qed.

End ContentPipelineLocals.

Section ContentPipelineLastPhase.
Variable w : World.
Variable psat : ProvisioningSat.
Variable org : Organization.
Variable lce : LifecycleEnvironment.

Lemma emits_create_client_early v :
  emits (fun e => ~ last_phase_event e) (create_client_content w org v).
Proof. unfold create_client_content. repeat emits_step; by intros []. Qed.

Lemma emits_enable_and_sync_early names s :
  emits (fun e => ~ last_phase_event e) (for_each names (enable_and_sync w psat org) s).
Proof.
  unfold enable_and_sync, enable_kickstart, enable_content, sync_step.
  repeat emits_step; by intros [].
Qed.

Lemma emits_wait_early l :
  emits (fun e => ~ last_phase_event e) (for_each l (wait_sync w) tt).
Proof. unfold wait_sync. repeat emits_step; by intros []. Qed.

Lemma emits_enable_and_sync_no_poll names s :
  emits (fun e => ~ is_poll e) (for_each names (enable_and_sync w psat org) s).
Proof.
  unfold enable_and_sync, enable_kickstart, enable_content, sync_step.
  repeat emits_step; by intros [].
Qed.

(** A run that issued an event of the last phase went through the earlier
    phases without an exception. *)
Lemma run_reaches_last_phase v h r es e :
  module_provisioning_rhel_content w psat org lce v h = (r, es) ->
  e ∈ es -> last_phase_event e ->
  exists z s0 esC s1 esL esW esP,
    int w v = Ok z /\
    create_client_content w org v h = (Ok s0, esC) /\
    for_each (vendor_names v z) (enable_and_sync w psat org) s0 (h ++ esC) = (Ok s1, esL) /\
    for_each (tasks s1) (wait_sync w) tt ((h ++ esC) ++ esL) = (Ok tt, esW) /\
    publish_and_bind w org lce v s1 (((h ++ esC) ++ esL) ++ esW) = (r, esP) /\
    es = esC ++ esL ++ esW ++ esP /\
    e ∈ esP.
Proof.
  intros H%run_phases Hin He. unfold fixture_phases in H.
  assert (Hno : forall l : Trace, Forall (fun e => ~ last_phase_event e) l -> e ∈ l -> False).
  { intros l Hl Hel. rewrite Forall_forall in Hl. by apply (Hl e). }
  destruct (int w v) as [z|e'] eqn:Hz; [|destruct H as [_ ->]; by apply elem_of_nil in Hin].
  pose proof (emits_create_client_early v h) as HC.
  destruct (create_client_content w org v h) as [rC esC] eqn:HeC. simpl in HC.
  destruct H as [(e' & -> & -> & ->)|(s0 & -> & H)]; [by destruct (Hno esC)|].
  pose proof (emits_enable_and_sync_early (vendor_names v z) s0 (h ++ esC)) as HL.
  destruct (for_each (vendor_names v z) _ s0 (h ++ esC)) as [rL esL] eqn:HeL. simpl in HL.
  destruct H as [(e' & -> & -> & ->)|(s1 & -> & H)].
  { destruct (Hno (esC ++ esL)); [by apply Forall_app | done]. }
  pose proof (emits_wait_early (tasks s1) ((h ++ esC) ++ esL)) as HW.
  destruct (for_each (tasks s1) _ tt _) as [rW esW] eqn:HeW. simpl in HW.
  destruct H as [(e' & -> & -> & ->)|(-> & esP & HP & ->)].
  { destruct (Hno (esC ++ esL ++ esW)); [by rewrite !Forall_app | done]. }
  exists z, s0, esC, s1, esL, esW, esP. repeat split; try done.
  rewrite !elem_of_app in Hin. destruct Hin as [?|[?|[?|?]]]; [| | |done].
  - by destruct (Hno esC).
  - by destruct (Hno esL).
  - by destruct (Hno esW).
Qed.

End ContentPipelineLastPhase.

Section ContentPipelinePublish.
Variable w : World.
Variable org : Organization.
Variable lce : LifecycleEnvironment.

(** The last phase, event by event. *)
Lemma publish_and_bind_events v s h r es :
  publish_and_bind w org lce v s h = (r, es) ->
  (forall cv rp, EvContentViewPublish cv rp ∈ es -> cv = content_view s) /\
  (forall name rf, EvContentViewSearch name rf ∈ es ->
     name = cv_name (content_view s) /\
     exists tp a st sts,
       EvContentViewPublish (content_view s) (Ok tp) ∈ es /\
       EvWaitForTasks a (Ok (st :: sts)) ∈ es /\
       search_query a =
         "Actions::Katello::ContentView::Publish and id = " +:+ task_id tp /\
       result st = "success") /\
  (forall cv' ra, EvActivationKeyCreate cv' ra ∈ es ->
     exists found,
       EvContentViewSearch (cv_name (content_view s)) (Ok (cv' :: found)) ∈ es) /\
  (forall q, EvOperatingSystemSearch q (Ok []) ∈ es ->
     (exists xy, r = Raise (AssertionError
                   ("Operating system RHEL " +:+ version_str xy +:+ " was not found"))) /\
     es = [EvOperatingSystemSearch q (Ok [])]).
Proof.
  unfold publish_and_bind. intros H.
  inv_any H; (split; [|split; [|split]]).
  all: try (intros ? ? Hin; elem_inv Hin; done).
  all: try (intros q Hin; elem_inv Hin; fail).
  all: try (intros cv' ra Hin; elem_inv Hin; eexists; elem_find).
  all: try (intros name rf Hin; elem_inv Hin; (split; [done|]);
            eexists _, _, _, _; (split; [elem_find|]); (split; [elem_find|]);
            split; [reflexivity | by apply String.eqb_eq]).
  intros q Hin. elem_inv Hin. split; [by eexists | done].
Qed.
(** The bundle of a last phase that returns. *)
Lemma publish_and_bind_bundle v s h b es :
  publish_and_bind w org lce v s h = (Ok b, es) ->
  exists e xy o others found,
    REPOS_kickstart w (rhel_xy_key v) = Some e /\
    Version w (ks_version e) = Ok xy /\
    EvOperatingSystemSearch
      ("family=Redhat and major=" +:+ pretty (major xy) +:+ " and minor=" +:+
       pretty (minor xy)) (Ok (o :: others)) ∈ es /\
    EvOperatingSystemRead o (Ok (os b)) ∈ es /\
    EvContentViewSearch (cv_name (content_view s)) (Ok (cv b :: found)) ∈ es /\
    EvActivationKeyCreate (cv b) (Ok (ak b)) ∈ es.
Proof.
  unfold publish_and_bind. intros H. inv_ok H. simpl.
  eexists _, _, _, _, _. split; [eassumption|]. split; [by symmetry|].
  repeat split; elem_find.
Qed.

End ContentPipelinePublish.

(** X1: when the fixture issues the publish, every sync it triggered, the
    one of the client repository and those of the vendor repositories, has
    been polled to success before. *)
Theorem syncs_polled_before_publish w psat org lce v h r es cv rp :
  module_provisioning_rhel_content w psat org lce v h = (r, es) ->
  EvContentViewPublish cv rp ∈ es ->
  exists before after,
    es = before ++ EvContentViewPublish cv rp :: after /\
    forall repo t, EvRepositorySync repo (Ok t) ∈ es ->
      EvRepositorySync repo (Ok t) ∈ before /\
      exists st, EvPoll (task_id t) (Ok st) ∈ before /\ result st = "success".
Proof.
  intros Hrun Hin.
  destruct (run_reaches_last_phase _ _ _ _ _ _ _ _ _ Hrun Hin I)
    as (z & s0 & esC & s1 & esL & esW & esP & _ & HC & HL & HW & HP & -> & HinP).
  apply list_elem_of_split in HinP as (p1 & p2 & ->).
  exists (esC ++ esL ++ esW ++ p1), p2. split; [by rewrite <- !app_assoc|].
  intros repo t Hs.
  pose proof (emits_wait_no_sync w (tasks s1) ((h ++ esC) ++ esL)) as HnW.
  rewrite HW in HnW. simpl in HnW.
  pose proof (emits_publish_no_sync w org lce v s1 (((h ++ esC) ++ esL) ++ esW)) as HnP.
  rewrite HP in HnP. simpl in HnP.
  assert (Hno : forall l : Trace, Forall (fun e => ~ is_sync e) l ->
                  EvRepositorySync repo (Ok t) ∈ l -> False).
  { intros l Hl Hel. rewrite Forall_forall in Hl. by apply (Hl _ Hel). }
  assert (Hearly : EvRepositorySync repo (Ok t) ∈ esC ++ esL).
  { rewrite !elem_of_app in Hs. rewrite elem_of_app.
    destruct Hs as [?|[?|[?|Hs]]]; auto; [by destruct (Hno esW)|].
    destruct (Hno _ HnP). by apply elem_of_app. }
  split; [rewrite app_assoc; apply elem_of_app; by left|].
  assert (Ht : t ∈ tasks s1).
  { apply create_client_content_locals in HC as (client & _ & Ht0 & _).
    apply for_each_attached in HL as (Ht1 & _). rewrite Ht1, Ht0.
    unfold sync_tasks. rewrite <- omap_app. apply list_elem_of_omap.
    by exists (EvRepositorySync repo (Ok t)). }
  destruct (wait_loop_polled _ _ _ _ _ HW t Ht) as (st & Hst & Hres).
  exists st. split; [|done]. rewrite !elem_of_app. auto.
Qed.

Lemma syncs_polled_before_publish_witness :
  let w := Demo.world Demo.all_success Demo.data_out (Demo.cmd_ok "") in
  let out := module_provisioning_rhel_content w (Demo.psat "") Demo.org Demo.lce
               (PyInt 8) [] in
  exists cv rp,
    EvContentViewPublish cv rp ∈ out.2 /\
    exists before after,
      out.2 = before ++ EvContentViewPublish cv rp :: after /\
      forall repo t, EvRepositorySync repo (Ok t) ∈ out.2 ->
        EvRepositorySync repo (Ok t) ∈ before /\
        exists st, EvPoll (task_id t) (Ok st) ∈ before /\ result st = "success".
Proof.
  intros w out.
  assert (Hin : exists cv rp, EvContentViewPublish cv rp ∈ out.2).
  { eval_trace (out.2). eexists _, _. repeat constructor. }
  destruct Hin as (cv & rp & Hin). exists cv, rp. split; [exact Hin|].
  exact (syncs_polled_before_publish w (Demo.psat "") Demo.org Demo.lce (PyInt 8) []
           out.1 out.2 cv rp (surjective_pairing out) Hin).
Defined.

(** X2: an activation key is created only for the content view that the
    search by the name of the created view returned first, and that search is
    made only after a publish whose task the wait reported with the result
    success.  So a publish that raises, or whose task ends otherwise, leaves
    no activation key behind. *)
Theorem activation_key_after_successful_publish w psat org lce v h r es cv' ra :
  module_provisioning_rhel_content w psat org lce v h = (r, es) ->
  EvActivationKeyCreate cv' ra ∈ es ->
  exists cv tp a st sts found,
    EvContentViewPublish cv (Ok tp) ∈ es /\
    EvWaitForTasks a (Ok (st :: sts)) ∈ es /\
    search_query a = "Actions::Katello::ContentView::Publish and id = " +:+ task_id tp /\
    result st = "success" /\
    EvContentViewSearch (cv_name cv) (Ok (cv' :: found)) ∈ es.
Proof.
  intros Hrun Hin.
  destruct (run_reaches_last_phase _ _ _ _ _ _ _ _ _ Hrun Hin I)
    as (z & s0 & esC & s1 & esL & esW & esP & _ & _ & _ & _ & HP & -> & HinP).
  apply publish_and_bind_events in HP as (_ & Hsearch & Hak & _).
  destruct (Hak _ _ HinP) as (found & Hf).
  destruct (Hsearch _ _ Hf) as (_ & tp & a & st & sts & Hp & Hw & Hq & Hres).
  exists (content_view s1), tp, a, st, sts, found. rewrite !elem_of_app. auto 10.
Qed.

Lemma activation_key_after_successful_publish_witness :
  let w := Demo.world Demo.all_success Demo.data_out (Demo.cmd_ok "") in
  let out := module_provisioning_rhel_content w (Demo.psat "") Demo.org Demo.lce
               (PyInt 8) [] in
  exists cv' ra,
    EvActivationKeyCreate cv' ra ∈ out.2 /\
    exists cv tp a st sts found,
      EvContentViewPublish cv (Ok tp) ∈ out.2 /\
      EvWaitForTasks a (Ok (st :: sts)) ∈ out.2 /\
      search_query a = "Actions::Katello::ContentView::Publish and id = " +:+ task_id tp /\
      result st = "success" /\
      EvContentViewSearch (cv_name cv) (Ok (cv' :: found)) ∈ out.2.
Proof.
  intros w out.
  assert (Hin : exists cv' ra, EvActivationKeyCreate cv' ra ∈ out.2).
  { eval_trace (out.2). eexists _, _. repeat constructor. }
  destruct Hin as (cv' & ra & Hin). exists cv', ra. split; [exact Hin|].
  exact (activation_key_after_successful_publish w (Demo.psat "") Demo.org Demo.lce
           (PyInt 8) [] out.1 out.2 cv' ra (surjective_pairing out) Hin).
Defined.

Section ContentPipelinePlain.
Variable w : World.
Variable psat : ProvisioningSat.
Variable org : Organization.
Variable lce : LifecycleEnvironment.





End ContentPipelinePlain.



Lemma create_client_content_view w org v h s0 es :
  create_client_content w org v h = (Ok s0, es) ->
  exists view,
    EvContentViewCreate (Ok view) ∈ es /\
    cv_name (content_view s0) = cv_name view /\
    cv_id (content_view s0) = cv_id view.
Proof.
  unfold create_client_content. intros H. inv_ok H. eexists. split; [elem_find|done].
Qed.

(** X4: the bundle the fixture returns.  Its [os] is what reading the first
    operating system found returned, and the search asked for the major and
    minor version of the kickstart entry; its [cv] is the first view that the
    search by the name of the created view returned after the publish, and
    its [ak] is the activation key created for that view. *)
Theorem bundle_of_returning_run w psat org lce v h b es :
  module_provisioning_rhel_content w psat org lce v h = (Ok b, es) ->
  exists e xy o others view found,
    REPOS_kickstart w (rhel_xy_key v) = Some e /\
    Version w (ks_version e) = Ok xy /\
    EvOperatingSystemSearch
      ("family=Redhat and major=" +:+ pretty (major xy) +:+ " and minor=" +:+
       pretty (minor xy)) (Ok (o :: others)) ∈ es /\
    EvOperatingSystemRead o (Ok (os b)) ∈ es /\
    EvContentViewCreate (Ok view) ∈ es /\
    EvContentViewSearch (cv_name view) (Ok (cv b :: found)) ∈ es /\
    EvActivationKeyCreate (cv b) (Ok (ak b)) ∈ es.
Proof.
  intros H. pose proof H as H'. apply run_phases in H'. unfold fixture_phases in H'.
  destruct (int w v) as [z|e']; [|by destruct H'].
  destruct (create_client_content w org v h) as [rC esC] eqn:HC.
  destruct H' as [(e' & _ & ? & _)|(s0 & -> & H')]; [done|].
  destruct (for_each (vendor_names v z) _ s0 (h ++ esC)) as [rL esL] eqn:HL.
  destruct H' as [(e' & _ & ? & _)|(s1 & -> & H')]; [done|].
  destruct (for_each (tasks s1) _ tt _) as [rW esW] eqn:HW.
  destruct H' as [(e' & _ & ? & _)|(-> & esP & HP & ->)]; [done|].
  apply publish_and_bind_bundle in HP
    as (e & xy & o & others & found & He & Hv & Hs & Hr & Hf & Ha).
  apply create_client_content_view in HC as (view & Hview & Hname & _).
  apply for_each_attached in HL as (_ & _ & _ & _ & Hn & _).
  rewrite Hn, Hname in Hf.
  exists e, xy, o, others, view, found. rewrite !elem_of_app. auto 15.
Qed.

Lemma bundle_of_returning_run_witness :
  let w := Demo.world Demo.all_success Demo.data_out (Demo.cmd_ok "") in
  let out := module_provisioning_rhel_content w (Demo.psat "discovery") Demo.org
               Demo.lce (PyInt 9) [] in
  exists b,
    out.1 = Ok b /\
    exists e xy o others view found,
      REPOS_kickstart w (rhel_xy_key (PyInt 9)) = Some e /\
      Version w (ks_version e) = Ok xy /\
      EvOperatingSystemSearch
        ("family=Redhat and major=" +:+ pretty (major xy) +:+ " and minor=" +:+
         pretty (minor xy)) (Ok (o :: others)) ∈ out.2 /\
      EvOperatingSystemRead o (Ok (os b)) ∈ out.2 /\
      EvContentViewCreate (Ok view) ∈ out.2 /\
      EvContentViewSearch (cv_name view) (Ok (cv b :: found)) ∈ out.2 /\
      EvActivationKeyCreate (cv b) (Ok (ak b)) ∈ out.2.
Proof.
  intros w out.
  assert (Hb : exists b, out.1 = Ok b) by (eexists; by vm_compute).
  destruct Hb as (b & Hb). exists b. split; [exact Hb|].
  apply (bundle_of_returning_run w (Demo.psat "discovery") Demo.org Demo.lce (PyInt 9) []
           b out.2).
  rewrite <- Hb. apply surjective_pairing.
Defined.



(** ** NetworkProvisioner: order, references and failures *)

Lemma getattr_box_raise {A} key (v : option A) e :
  Raise e = getattr_box key v -> v = None /\ e = KeyError key.
Proof. destruct v; [done | by intros [= ->]]. Qed.

(** X6: the Subnet is created last, after the broker workflow and after the
    Domain, and it belongs to that Domain.  The name of the Domain is the
    lower-cased random string with [.foo], the DNS zone the broker workflow
    was given.  Every service of the Subnet, and the DNS of the Domain, is
    the one capsule.  A run that returns hands back the Satellite, the
    parameter, this Domain and this Subnet. *)
Theorem subnet_belongs_to_created_domain w target org loc cap param h r es f rs :
  module_provisioning_sat w target org loc cap param h = (r, es) ->
  EvSubnetCreate f rs ∈ es ->
  exists alpha args d df dom,
    es = [EvGenString alpha; EvBrokerExecute args (Ok d); EvDomainCreate df (Ok dom);
          EvSubnetCreate f rs] /\
    s_domain f = [domain_id dom] /\
    d_name df = lower alpha +:+ ".foo" /\
    ("provisioning_dns_zone", d_name df) ∈ args /\
    ("target_host", sat_name target) ∈ args /\
    d_dns df = capsule_id cap /\
    (dhcp f = capsule_id cap /\ tftp f = capsule_id cap /\ template f = capsule_id cap /\
     s_dns f = capsule_id cap /\ httpboot f = capsule_id cap /\
     discovery f = capsule_id cap /\ remote_execution_proxy f = [capsule_id cap]) /\
    (boot_mode f = "DHCP" /\ ipam f = "DHCP") /\
    (d_location df = [loc] /\ d_organization df = [org] /\
     s_location f = [loc] /\ s_organization f = [org]) /\
    (forall box, r = Ok box ->
       sat box = target /\ provisioning_type box = param /\
       domain box = dom /\ rs = Ok (subnet box)).
Proof.
  unfold module_provisioning_sat. intros H Hin.
  inv_any H; elem_inv Hin; eexists _, _, _, _, _; simpl;
    (split; [reflexivity|]); repeat split; try done; try elem_find;
    by simplify_eq/=.
Qed.

Lemma subnet_belongs_to_created_domain_witness :
  exists f rs alpha args d df dom box,
    (Demo.provisioning_sat_run Demo.data_out).1 = Ok box /\
    (Demo.provisioning_sat_run Demo.data_out).2 =
      [EvGenString alpha; EvBrokerExecute args (Ok d); EvDomainCreate df (Ok dom);
       EvSubnetCreate f rs] /\
    s_domain f = [domain_id dom] /\
    d_name df = "abcde.foo" /\
    ("provisioning_dns_zone", "abcde.foo") ∈ args /\
    domain box = dom /\ rs = Ok (subnet box).
Proof.
  assert (Hs : exists f rs,
             EvSubnetCreate f rs ∈ (Demo.provisioning_sat_run Demo.data_out).2).
  { eexists _, _. find_event. }
  assert (Hb : exists box, (Demo.provisioning_sat_run Demo.data_out).1 = Ok box).
  { eexists. by vm_compute. }
  destruct Hs as (f & rs & Hs). destruct Hb as (box & Hb).
  destruct (subnet_belongs_to_created_domain
              (Demo.world Demo.all_success Demo.data_out (Demo.cmd_ok ""))
              Demo.satellite Demo.org Demo.location Demo.capsule "" []
              (Demo.provisioning_sat_run Demo.data_out).1
              (Demo.provisioning_sat_run Demo.data_out).2 f rs
              (surjective_pairing (Demo.provisioning_sat_run Demo.data_out)) Hs)
    as (alpha & args & d & df & dom & Hes & Hdom & Hname & Hzone & _ & _ & _ & _ & _ & Hbox).
  destruct (Hbox box Hb) as (_ & _ & Hd & Hrs).
  exists f, rs, alpha, args, d, df, dom, box.
  split; [exact Hb|]. split; [exact Hes|]. split; [exact Hdom|].
  assert (Ha : alpha = "AbCdE").
  { rewrite Hes in Hs. clear - Hes. vm_compute in Hes. by injection Hes as <-. }
  rewrite Ha in Hname. split; [exact Hname|].
  rewrite Hname in Hzone. split; [exact Hzone|]. by split.
Defined.

(** X7: what a broker output that cannot be used leaves behind.  The Domain
    is created only after the address was parsed and a primary DNS address was
    popped: an address that [ip_interface] rejects raises its ValueError and
    an empty DNS list raises IndexError, in both cases with nothing created.
    The gateway and the host range are read only after the Domain exists: when
    one of these keys is missing the run raises KeyError for it, the Domain
    stays and no Subnet is created. *)
Theorem unusable_broker_output w target org loc cap param h r es args d :
  module_provisioning_sat w target org loc cap param h = (r, es) ->
  EvBrokerExecute args (Ok d) ∈ es ->
  (forall df rd, EvDomainCreate df rd ∈ es ->
     exists addr net dns p sec rest,
       provisioning_addr_ipv4 d = Some addr /\
       ip_interface_network w addr = Ok net /\
       provisioning_upstream_dns d = Some dns /\
       pop_upstream_dns dns = Ok (p, sec, rest)) /\
  (forall addr e,
     provisioning_addr_ipv4 d = Some addr ->
     ip_interface_network w addr = Raise e ->
     r = Raise e /\ Forall (fun ev => ~ is_domain_or_subnet_create ev) es) /\
  (forall addr net,
     provisioning_addr_ipv4 d = Some addr ->
     ip_interface_network w addr = Ok net ->
     provisioning_upstream_dns d = Some [] ->
     r = Raise IndexError /\ Forall (fun ev => ~ is_domain_or_subnet_create ev) es) /\
  (forall df dom,
     EvDomainCreate df (Ok dom) ∈ es ->
     provisioning_gw_ipv4 d = None \/ provisioning_host_range_start d = None \/
     provisioning_host_range_end d = None ->
     (exists key, r = Raise (KeyError key)) /\
     forall f rs, EvSubnetCreate f rs ∉ es).
Proof.
  unfold module_provisioning_sat. intros H Hb.
  inv_any H; elem_inv Hb;
    repeat match goal with
           | H : Ok _ = getattr_box _ _ |- _ => apply getattr_box_ok in H
           | H : Raise _ = getattr_box _ _ |- _ => apply getattr_box_raise in H as [? ->]
           end.
  all: split; [|split; [|split]].
  all: try (intros df rd Hin; elem_inv Hin; eauto 10; fail).
  all: try (solve [intros addr e Ha Hn; simplify_eq/=; try congruence;
                   try (split; [congruence | repeat constructor; by intros []])]).
  all: try (solve [intros addr net Ha Hn Hd; simplify_eq/=; try congruence;
                   try (split; [congruence | repeat constructor; by intros []])]).
  all: try (solve [intros df dom Hin Hmiss; elem_inv Hin;
                   destruct Hmiss as [?|[?|?]]; simplify_eq/=;
                   try (split; [by eexists | intros f rs Hs; elem_inv Hs])]).
  intros addr net Ha Hn Hd.
  match goal with
  | Hdns : provisioning_upstream_dns _ = Some ?l, Hpop : Raise _ = pop_upstream_dns ?l |- _ =>
      rewrite Hd in Hdns; injection Hdns as <-; injection Hpop as ->
  end.
  split; [done | repeat constructor; by intros []].
Qed.

Lemma unusable_broker_output_witness :
  ((Demo.provisioning_sat_run data_out_no_dns).1 = Raise IndexError /\
   Forall (fun ev => ~ is_domain_or_subnet_create ev)
     (Demo.provisioning_sat_run data_out_no_dns).2) /\
  ((exists df dom,
       EvDomainCreate df (Ok dom) ∈ (Demo.provisioning_sat_run data_out_no_gateway).2) /\
   (exists key, (Demo.provisioning_sat_run data_out_no_gateway).1 = Raise (KeyError key)) /\
   forall f rs, EvSubnetCreate f rs ∉ (Demo.provisioning_sat_run data_out_no_gateway).2).
Proof.
  split.
  - assert (Hb : exists args, EvBrokerExecute args (Ok data_out_no_dns)
                              ∈ (Demo.provisioning_sat_run data_out_no_dns).2).
    { eexists. find_event. }
    destruct Hb as [args Hb].
    destruct (unusable_broker_output
                (Demo.world Demo.all_success data_out_no_dns (Demo.cmd_ok ""))
                Demo.satellite Demo.org Demo.location Demo.capsule "" []
                (Demo.provisioning_sat_run data_out_no_dns).1
                (Demo.provisioning_sat_run data_out_no_dns).2 args data_out_no_dns
                (surjective_pairing (Demo.provisioning_sat_run data_out_no_dns)) Hb)
      as (_ & _ & Hdns & _).
    exact (Hdns "10.0.0.5/24"
             (V4 {| ipaddress.ip := 167772165; ipaddress.prefixlen := 24 |})
             eq_refl eq_refl eq_refl).
  - assert (Hb : exists args, EvBrokerExecute args (Ok data_out_no_gateway)
                              ∈ (Demo.provisioning_sat_run data_out_no_gateway).2).
    { eexists. find_event. }
    assert (Hd : exists df dom,
               EvDomainCreate df (Ok dom)
                 ∈ (Demo.provisioning_sat_run data_out_no_gateway).2).
    { eexists _, _. find_event. }
    split; [exact Hd|].
    destruct Hb as [args Hb]. destruct Hd as (df & dom & Hd).
    destruct (unusable_broker_output
                (Demo.world Demo.all_success data_out_no_gateway (Demo.cmd_ok ""))
                Demo.satellite Demo.org Demo.location Demo.capsule "" []
                (Demo.provisioning_sat_run data_out_no_gateway).1
                (Demo.provisioning_sat_run data_out_no_gateway).2 args data_out_no_gateway
                (surjective_pairing (Demo.provisioning_sat_run data_out_no_gateway)) Hb)
      as (_ & _ & _ & Hgw).
    exact (Hgw df dom Hd (or_introl eq_refl)).
Defined.

(** ** The pops on the upstream DNS list *)

Lemma pop_some {A} (l : list A) x r : pop l = Some (x, r) -> l = r ++ [x].
Proof.
  revert x r. induction l as [|y l IH]; intros x r; [done|]. simpl.
  destruct l as [|z l]; [by intros [= <- <-]|].
  destruct (pop (z :: l)) as [[x' r']|] eqn:Hp; [|done].
  intros [= <- <-]. by rewrite (IH _ _ eq_refl).
Qed.

Lemma pop_none {A} (l : list A) : pop l = None -> l = [].
Proof.
  induction l as [|y l IH]; [done|]. simpl. destruct l as [|z l]; [done|].
  destruct (pop (z :: l)) as [[x' r']|] eqn:Hp; [done|]. by specialize (IH eq_refl).
Qed.

(** X8: the two pops take at most two addresses and only from the end.
    Whatever they return, the list they leave followed by the secondary, if
    there is one, and the primary is the list they were given; without a
    secondary nothing is left.  They raise only on the empty list, and then
    IndexError. *)
Theorem pop_upstream_dns_inverse dns :
  (forall p sec rest,
      pop_upstream_dns dns = Ok (p, sec, rest) ->
      dns = rest ++ match sec with Some s => [s] | None => [] end ++ [p] /\
      (sec = None -> rest = [])) /\
  (forall e, pop_upstream_dns dns = Raise e -> dns = [] /\ e = IndexError) /\
  (dns <> [] -> exists p sec rest, pop_upstream_dns dns = Ok (p, sec, rest)).
Proof.
  unfold pop_upstream_dns. destruct (pop dns) as [[p1 dns1]|] eqn:Hp1.
  - apply pop_some in Hp1 as ->.
    destruct (0 <? Z.of_nat (length dns1)) eqn:Hlen.
    + destruct (pop dns1) as [[p2 dns2]|] eqn:Hp2.
      * apply pop_some in Hp2 as ->. split; [|split]; [|done|eauto].
        intros p sec rest [= <- <- <-]. split; [|done]. by rewrite <- app_assoc.
      * by apply pop_none in Hp2 as ->.
    + assert (dns1 = []) as ->.
      { destruct dns1; [done|]. apply Z.ltb_ge in Hlen. simpl in Hlen. lia. }
      split; [|split]; [by intros p sec rest [= <- <- <-] | done | eauto].
  - apply pop_none in Hp1 as ->. split; [done|]. split; [by intros e [= <-]|done].
Qed.

Lemma pop_upstream_dns_inverse_witness :
  exists p sec rest,
    pop_upstream_dns ["1.1.1.1"; "8.8.4.4"; "8.8.8.8"] = Ok (p, sec, rest) /\
    ["1.1.1.1"; "8.8.4.4"; "8.8.8.8"]
    = rest ++ match sec with Some s => [s] | None => [] end ++ [p].
Proof.
  destruct (pop_upstream_dns_inverse ["1.1.1.1"; "8.8.4.4"; "8.8.8.8"])
    as (Hinv & _ & Hok).
  destruct (Hok ltac:(done)) as (p & sec & rest & Hp).
  exists p, sec, rest. split; [exact Hp|]. exact (proj1 (Hinv p sec rest Hp)).
Defined.

(** ** The discovery image from import to removal *)

Lemma extract_fdi_history stdout_text h h' :
  extract_fdi stdout_text h = extract_fdi stdout_text h'.
Proof. unfold extract_fdi, first. by destruct (re.findall stdout_text). Qed.

Lemma extract_fdi_silent stdout_text h r es :
  extract_fdi stdout_text h = (r, es) -> es = [].
Proof.
  unfold extract_fdi, first. destruct (re.findall stdout_text); by intros [= _ <-].
Qed.

(** X9: a run of [pxeless_discovery_host] that reaches its [yield] hands
    over the host it was given, and has done four things in this order: drawn
    the random string, remastered the image on the Satellite for the MAC
    address of the host, imported the extracted image under the name
    [<random>-<iso>], and set the host to boot from the image of that name.
    The code after the [yield] removes the image of the same name, and asks
    the broker for nothing else. *)
Theorem pxeless_image_imported_booted_removed w dsat pxe host h host' name es h' :
  pxeless_discovery_host_setup w dsat pxe host h = (Ok (host', name), es) ->
  host' = host /\
  (exists alpha mac firmware res fdi d1 d2,
      name = alpha +:+ "-" +:+ iso dsat /\
      broker_args host !! "provisioning_nic_mac_addr" = Some mac /\
      broker_args host !! "target_vm_firmware" = Some firmware /\
      extract_fdi (stdout res) [] = (Ok fdi, []) /\
      es = [EvGenString alpha;
            EvExecute (sat_hostname (d_sat dsat)) (remaster_command dsat mac) (Ok res);
            EvBrokerExecute
              [("workflow", "import-disk-image");
               ("import_disk_image_name", name);
               ("import_disk_image_url",
                "https://" +:+ sat_hostname (d_sat dsat) +:+ "/pub/" +:+ fdi);
               ("firmware_type", vm_firmware pxe)] (Ok d1);
            EvBrokerExecute
              [("job_template", "configure-pxe-boot");
               ("target_host", host_name host);
               ("target_vlan_id", vlan_id w);
               ("target_vm_firmware", firmware);
               ("target_pxeless_image", name);
               ("target_boot_scenario", "pxeless_pre")] (Ok d2)]) /\
  exists r,
    (pxeless_discovery_host_teardown w name h').2 =
      [EvBrokerExecute
         [("workflow", "remove-disk-image"); ("remove_disk_image_name", name)] r].
Proof.
  unfold pxeless_discovery_host_setup. intros H. inv_any H.
  pose proof (extract_fdi_silent _ _ _ _ Hrun) as ->.
  rewrite (extract_fdi_history _ _ []) in Hrun.
  split; [done|]. split.
  - eexists _, _, _, _, _, _, _.
    split; [reflexivity|]. split; [reflexivity|]. split; [reflexivity|].
    split; [exact Hrun|]. reflexivity.
  - unfold pxeless_discovery_host_teardown, bind, call. simpl.
    destruct (broker_execute w _ h'); simpl; eauto.
Qed.

Lemma pxeless_image_imported_booted_removed_witness :
  let w := Demo.world Demo.all_success Demo.data_out (Demo.cmd_ok remaster_output) in
  let host := Demo.host "vm1" ∅ in
  exists name es,
    pxeless_discovery_host_setup w discovery_sat Demo.pxe host [] = (Ok (host, name), es) /\
    name = "AbCdE-fdi.iso" /\
    (exists args d, EvBrokerExecute args (Ok d) ∈ es /\
                    ("import_disk_image_name", name) ∈ args /\
                    ("import_disk_image_url",
                     "https://sat.example.com/pub/foreman-discovery-image-3.8.2.iso") ∈ args) /\
    exists r,
      (pxeless_discovery_host_teardown w name es).2 =
        [EvBrokerExecute
           [("workflow", "remove-disk-image"); ("remove_disk_image_name", name)] r].
Proof.
  intros w host.
  assert (Hrun : exists name es,
             pxeless_discovery_host_setup w discovery_sat Demo.pxe host []
             = (Ok (host, name), es)).
  { eexists _, _. by vm_compute. }
  destruct Hrun as (name & es & Hrun). exists name, es. split; [exact Hrun|].
  destruct (pxeless_image_imported_booted_removed w discovery_sat Demo.pxe host []
              host name es es Hrun)
    as (_ & (alpha & mac & firmware & res & fdi & d1 & d2 & Hn & _ & _ & Hf & Hes) & Hdown).
  assert (Ha : alpha = "AbCdE" /\ fdi = "foreman-discovery-image-3.8.2.iso").
  { rewrite Hes in Hrun. vm_compute in Hrun. by simplify_eq. }
  destruct Ha as [-> ->]. split; [exact Hn|]. split; [|exact Hdown].
  eexists _, d1. rewrite Hes. split; [elem_find|]. rewrite Hn. split; elem_find.
Defined.

(** X10: how [pxeless_discovery_host] fails before its [yield].  A host
    without the MAC address among its broker arguments raises KeyError before
    any command is run and before the broker is asked for anything.  A
    remaster command that raises ends the run with nothing imported.  A host
    without the firmware among its broker arguments raises KeyError after the
    image was imported: the import is the one thing the broker was asked for,
    the host is not set to boot from the image.  A broker call that raises
    ends the run. *)
Theorem pxeless_setup_failures w dsat pxe host h r es :
  pxeless_discovery_host_setup w dsat pxe host h = (r, es) ->
  (broker_args host !! "provisioning_nic_mac_addr" = None ->
   r = Raise (KeyError "provisioning_nic_mac_addr") /\
   Forall (fun e => ~ is_execute e /\ ~ is_broker_execute e) es) /\
  (forall hostname cmd e,
      EvExecute hostname cmd (Raise e) ∈ es ->
      r = Raise e /\ Forall (fun e => ~ is_broker_execute e) es) /\
  (forall args d,
      broker_args host !! "target_vm_firmware" = None ->
      EvBrokerExecute args (Ok d) ∈ es ->
      r = Raise (KeyError "target_vm_firmware") /\
      Forall (fun e => is_broker_execute e -> is_image_import e) es) /\
  (forall args e, EvBrokerExecute args (Raise e) ∈ es -> r = Raise e).
Proof.
  unfold pxeless_discovery_host_setup. intros H. inv_any H;
    repeat match goal with
           | Hx : extract_fdi _ _ = (_, _) |- _ => apply extract_fdi_silent in Hx as ->
           end.
  all: split; [|split; [|split]].
  all: try (solve [intros Hm; first [congruence
                    | split; [done | repeat constructor; by intros []]]]).
  all: try (solve [intros hostname cmd e Hin; elem_inv Hin;
                   try (split; [done | repeat constructor; by intros []])]).
  all: try (solve [intros args d Hf Hin; first [congruence
                    | elem_inv Hin;
                      try (split;
                           [done | repeat constructor;
                                   first [by intros [] | intros _; apply list_elem_of_here]])]]).
  all: try (solve [intros args e Hin; elem_inv Hin; done]).
Qed.

Lemma pxeless_setup_failures_witness :
  let w := Demo.world Demo.all_success Demo.data_out (Demo.cmd_ok remaster_output) in
  let no_mac := pxeless_discovery_host_setup w discovery_sat Demo.pxe host_without_mac [] in
  let no_firmware :=
    pxeless_discovery_host_setup w discovery_sat Demo.pxe host_without_firmware [] in
  (no_mac.1 = Raise (KeyError "provisioning_nic_mac_addr") /\
   Forall (fun e => ~ is_execute e /\ ~ is_broker_execute e) no_mac.2) /\
  (Exists is_image_import no_firmware.2 /\
   no_firmware.1 = Raise (KeyError "target_vm_firmware") /\
   Forall (fun e => is_broker_execute e -> is_image_import e) no_firmware.2).
Proof.
  intros w no_mac no_firmware. split.
  - exact (proj1 (pxeless_setup_failures w discovery_sat Demo.pxe host_without_mac []
                    no_mac.1 no_mac.2 (surjective_pairing no_mac)) eq_refl).
  - assert (Hin : exists args d,
               EvBrokerExecute args (Ok d) ∈ no_firmware.2 /\
               ("workflow", "import-disk-image") ∈ args).
    { eval_trace (no_firmware.2). eexists _, _. split; repeat constructor. }
    destruct Hin as (args & d & Hin & Hw). split.
    + apply Exists_exists. eexists. split; [exact Hin | exact Hw].
    + exact (proj1 (proj2 (proj2 (pxeless_setup_failures w discovery_sat Demo.pxe
                                    host_without_firmware [] no_firmware.1 no_firmware.2
                                    (surjective_pairing no_firmware))))
               args d eq_refl Hin).
Defined.

(** ** The teardown of the hosts, outcome and all *)

(** X11: the teardown of [provisioning_host] on the host [host], whatever
    the restart of dhcpd answers.  The host is always checked in, once.  When
    the restart raises or returns another status than 0, the host is checked
    in as the test left it, no [blank] is assigned, and the teardown raises:
    the exception of the check-in when that raised too, else the exception of
    the restart, or AssertionError for the status.  When the restart returns
    status 0 the host is checked in with [blank] assigned, and the teardown
    raises only what the check-in raised. *)
Theorem failed_restart_leaves_host_untouched w psat host h out es :
  provisioning_host_teardown w psat (One host) h = (out, es) ->
  exists r c r',
    es = [EvExecute (sat_hostname (sat psat)) "systemctl restart dhcpd" r;
          EvBrokerCheckin c r'] /\
    ((forall res, r = Ok res -> status res <> 0) ->
     c = One host /\
     out = Raise match r', r with
                 | Raise e', _ => e'
                 | Ok _, Raise e => e
                 | Ok _, Ok _ => AssertionError ""
                 end) /\
    (forall res, r = Ok res -> status res = 0 ->
     c = One (keep_blank host) /\
     out = match r' with Ok _ => Ok c | Raise e' => Raise e' end).
Proof.
  unfold provisioning_host_teardown, with_exit, provisioning_host_after_yield,
    bind, call, assert.
  destruct (execute w _ _ h) as [res|e]; simpl.
  - destruct (status res =? 0) eqn:Hst; simpl.
    + apply Z.eqb_eq in Hst.
      destruct (broker_checkin w _ _) as [u|e'] eqn:Hc; simpl; intros [= <- <-];
        eexists _, _, _; (split; [reflexivity|]); (split; [|by intros ? [= <-] _]);
        intros Hne; by destruct (Hne res eq_refl).
    + apply Z.eqb_neq in Hst.
      destruct (broker_checkin w _ _) as [u|e'] eqn:Hc; simpl; intros [= <- <-];
        eexists _, _, _; (split; [reflexivity|]); (split; [done|]);
        by intros ? [= <-] ?.
  - destruct (broker_checkin w _ _) as [u|e'] eqn:Hc; simpl; intros [= <- <-];
      eexists _, _, _; (split; [reflexivity|]); by split.
Qed.

Lemma failed_restart_leaves_host_untouched_witness :
  let w := Demo.world Demo.all_success Demo.data_out cmd_fails in
  let host := Demo.host "vm2" ∅ in
  exists r r',
    provisioning_host_teardown w (Demo.psat "") (One host) [] =
      (Raise (AssertionError ""),
       [EvExecute "sat.example.com" "systemctl restart dhcpd" r;
        EvBrokerCheckin (One host) r']).
Proof.
  intros w host.
  destruct (failed_restart_leaves_host_untouched w (Demo.psat "") host []
              (provisioning_host_teardown w (Demo.psat "") (One host) []).1
              (provisioning_host_teardown w (Demo.psat "") (One host) []).2
              (surjective_pairing _)) as (r & c & r' & Hes & Hfail & _).
  assert (Hr : r = Ok (cmd_fails "systemctl restart dhcpd") /\ r' = Ok tt).
  { vm_compute in Hes. by simplify_eq. }
  destruct Hr as [-> ->].
  destruct Hfail as [-> Hout]; [by intros res [= <-]|].
  exists (Ok (cmd_fails "systemctl restart dhcpd")), (Ok tt).
  rewrite (surjective_pairing (provisioning_host_teardown _ _ _ _)), Hout, Hes. done.
Defined.

Lemma lookup_map {A B} (f : A -> B) (l : list A) (i : nat) :
  map f l !! i = f <$> l !! i.
Proof. revert i. induction l as [|a l IH]; intros [|i]; simpl; auto. Qed.

Lemma keep_blank_blank host :
  attrs (keep_blank host) !! "blank" = Some (getattr_blank host).
Proof. unfold keep_blank, setattr_blank. simpl. apply lookup_insert_eq. Qed.

(** X12: the teardown of [provision_multiple_hosts] checks in as many hosts
    as it was handed, in the same order and under the same names and broker
    arguments; each of them carries a [blank] attribute, with the value it
    had or False, so that running the assignment again would change nothing;
    the teardown raises only what the check-in raised. *)
Theorem multiple_hosts_teardown_preserves w l h out es :
  provision_multiple_hosts_teardown w (Many l) h = (out, es) ->
  exists l' r',
    es = [EvBrokerCheckin (Many l') r'] /\
    out = match r' with Ok _ => Ok (Many l') | Raise e => Raise e end /\
    length l' = length l /\
    forall i host',
      l' !! i = Some host' ->
      exists host,
        l !! i = Some host /\
        host_name host' = host_name host /\
        broker_args host' = broker_args host /\
        attrs host' !! "blank" = Some (getattr_blank host) /\
        (forall k, k <> "blank" -> attrs host' !! k = attrs host !! k) /\
        keep_blank host' = host'.
Proof.
  unfold provision_multiple_hosts_teardown, with_exit,
    provision_multiple_hosts_after_yield, call. simpl.
  intros H. exists (map keep_blank l), (broker_checkin w (Many (map keep_blank l)) (h ++ [])).
  split; [|split; [|split]].
  - destruct (broker_checkin w _ _); by injection H as <- <-.
  - destruct (broker_checkin w _ _); by injection H as <- <-.
  - apply length_map.
  - intros i host'. rewrite lookup_map. destruct (l !! i) as [host|]; [|done].
    intros [= <-]. exists host. split; [done|]. split; [done|]. split; [done|].
    split; [apply keep_blank_blank|]. split; [intros k; apply keep_blank_other|].
    eapply keep_blank_set, keep_blank_blank.
Qed.

Lemma multiple_hosts_teardown_preserves_witness :
  let w := Demo.world Demo.all_success Demo.data_out (Demo.cmd_ok "") in
  let blank_host := Demo.host "vm1" {[ "blank" := PyBool true ]} in
  let bare_host := Demo.host "vm2" ∅ in
  exists l',
    provision_multiple_hosts_teardown w (Many [blank_host; bare_host]) []
    = (Ok (Many l'), [EvBrokerCheckin (Many l') (Ok tt)]) /\
    map host_name l' = ["vm1"; "vm2"] /\
    map (fun host => attrs host !! "blank") l' = [Some (PyBool true); Some (PyBool false)].
Proof.
  intros w blank_host bare_host.
  destruct (multiple_hosts_teardown_preserves w [blank_host; bare_host] []
              (provision_multiple_hosts_teardown w (Many [blank_host; bare_host]) []).1
              (provision_multiple_hosts_teardown w (Many [blank_host; bare_host]) []).2
              (surjective_pairing _)) as (l' & r' & Hes & Hout & Hlen & Hall).
  assert (Hr : r' = Ok tt).
  { vm_compute in Hes. by simplify_eq. }
  subst r'. exists l'. split.
  { rewrite (surjective_pairing (provision_multiple_hosts_teardown _ _ _)), Hout, Hes.
    done. }
  destruct l' as [|h1 [|h2 [|h3 l']]]; try done.
  destruct (Hall 0%nat h1 eq_refl) as (x1 & [= <-] & Hn1 & _ & Hb1 & _).
  destruct (Hall 1%nat h2 eq_refl) as (x2 & [= <-] & Hn2 & _ & Hb2 & _).
  simpl. rewrite Hn1, Hn2, Hb1, Hb2. done.
Defined.
